(** * discord-rpc: the IPC transport and the RPC client session

    A shallow embedding of [src/transport.ts] (class [IPCTransport]) and
    [src/client.ts] (class [Client]) together with the constants and error
    classes they use, and the properties of the framing codec, the request
    correlator, the teardown path, the pipe discovery and the state setter. *)

From Stdlib Require Import ZArith NArith Lia List.
From Stdlib Require Import Strings.Byte Strings.Ascii.
From Stdlib Require Floats.
From stdpp Require Import base option list strings gmap pretty.

Set Warnings "-register-all".
Local Open Scope N_scope.

(** ** JavaScript values that travel over the wire *)

(** The result of [JSON.parse]: numbers are the integral ones the protocol
    uses (opcodes, error codes, process ids). *)
Inductive json : Type :=
| JNull
| JBool (b : bool)
| JNum (n : Z)
| JStr (s : string)
| JArr (items : list json)
| JObj (members : list (string * json)).

(** A JavaScript value that may also be [undefined]. *)
Definition value := option json.
Definition undefined : value := None.

(** The error classes of [src/errors.ts], and the two built-in errors the
    modelled code can raise. *)
Inductive JsError : Type :=
| ConnectionError (message : string)
| CommandError (message : value) (code : value)
| TimeoutError (message : string)
| StateError (message : string)
| TypeError
| RangeError.

Inductive Outcome (A : Type) : Type :=
| Ok (a : A)
| Throw (e : JsError).
Arguments Ok {A} a.
Arguments Throw {A} e.

(** ** Buffers *)

Definition Buffer := list byte.

(** [HEADER_SIZE] of [src/constants.ts]. *)
Definition HEADER_SIZE : nat := 8.

Definition u8 (n : N) : byte :=
  match Byte.of_N (n mod 256) with
  | Some b => b
  | None => "000"%byte
  end.

(** The four bytes [writeUInt32LE] stores. *)
Definition le32 (v : N) : Buffer :=
  [u8 v; u8 (v / 256); u8 (v / 65536); u8 (v / 16777216)].

(** [buf.writeUInt32LE(v, off)] on a zeroed header: a value outside
    [0, 2^32) raises a RangeError. *)
Definition writeUInt32LE (v : N) : option Buffer :=
  if v <? 4294967296 then Some (le32 v) else None.

(** [buf.readUInt32LE(off)]: reading past the end raises a RangeError. *)
Definition readUInt32LE (buf : Buffer) (off : nat) : option N :=
  match drop off buf with
  | b0 :: b1 :: b2 :: b3 :: _ =>
      Some (Byte.to_N b0 + 256 * Byte.to_N b1 + 65536 * Byte.to_N b2
            + 16777216 * Byte.to_N b3)
  | _ => None
  end.

(** ** Platform functions

    [JSON.stringify], [JSON.parse], the UTF-8 conversions of [Buffer] and
    [path.join] belong to the runtime, not to the repository. *)
Class Platform := {
  JSON_stringify : json -> string;
  JSON_parse : string -> option json;
  utf8_encode : string -> Buffer;
  utf8_decode : Buffer -> string;
  path_join : list string -> string;
}.

(** ** The framing codec of [IPCTransport] *)

Section Codec.
Context `{Platform}.

(** The bytes [IPCTransport.send] hands to [socket.write]. *)
Definition encode (op : N) (payload : json) : Outcome Buffer :=
  let data := utf8_encode (JSON_stringify payload) in
  match writeUInt32LE op, writeUInt32LE (N.of_nat (length data)) with
  | Some h0, Some h1 => Ok (h0 ++ h1 ++ data)
  | _, _ => Throw RangeError
  end.

(** [IPCTransport.processBuffer], for any owner [W] of the accumulation
    buffer and any registered packet handler. An exception of the handler is
    caught together with the parse error, so the handler is given as the
    state change it leaves behind. *)
Section Decoder.
Context {W : Type}.
Variable getBuffer : W -> Buffer.
Variable setBuffer : Buffer -> W -> W.
Variable onPacket : option (N -> json -> W -> W).

Fixpoint processBuffer_loop (fuel : nat) (w : W) : W :=
  match fuel with
  | O => w
  | S fuel' =>
      let buffer := getBuffer w in
      if (length buffer <? HEADER_SIZE)%nat then w
      else
        match readUInt32LE buffer 0, readUInt32LE buffer 4 with
        | Some op, Some len =>
            let totalPacketSize := (HEADER_SIZE + N.to_nat len)%nat in
            if (length buffer <? totalPacketSize)%nat then w
            else
              let raw := take (N.to_nat len) (drop HEADER_SIZE buffer) in
              let w1 := setBuffer (drop totalPacketSize buffer) w in
              let w2 :=
                match JSON_parse (utf8_decode raw) with
                | Some payload =>
                    match onPacket with
                    | Some handler => handler op payload w1
                    | None => w1
                    end
                | None => w1
                end in
              processBuffer_loop fuel' w2
        | _, _ => w
        end
  end.

(** Every iteration consumes at least the eight header bytes. *)
Definition processBuffer (w : W) : W :=
  processBuffer_loop (length (getBuffer w)) w.

(** The ['data'] listener installed by [setupListeners]. *)
Definition onData (chunk : Buffer) (w : W) : W :=
  processBuffer (setBuffer (getBuffer w ++ chunk) w).

Definition feed (chunks : list Buffer) (w : W) : W :=
  foldl (fun acc chunk => onData chunk acc) w chunks.
End Decoder.

(** A receiving end that records what its handler is called with. *)
Definition Recorder : Type := Buffer * list (N * json).
Definition rec_setBuffer (b : Buffer) (r : Recorder) : Recorder := (b, snd r).
Definition rec_handler (op : N) (payload : json) (r : Recorder) : Recorder :=
  (fst r, snd r ++ [(op, payload)]).
Definition rec_process : Recorder -> Recorder :=
  processBuffer fst rec_setBuffer (Some rec_handler).
Definition rec_feed : list Buffer -> Recorder -> Recorder :=
  feed fst rec_setBuffer (Some rec_handler).
End Codec.

(** ** Constants of [src/constants.ts] *)

Definition OpCode_Handshake : N := 0.
Definition OpCode_Frame : N := 1.
Definition OpCode_Close : N := 2.
Definition OpCode_Ping : N := 3.
Definition OpCode_Pong : N := 4.

Definition Command_Dispatch : string := "DISPATCH".
Definition Command_SetActivity : string := "SET_ACTIVITY".
Definition RPCEvent_Ready : string := "READY".
Definition RPCEvent_Error : string := "ERROR".

Definition IPC_VERSION : Z := 1.
Definition HEARTBEAT_INTERVAL : Z := 30000.
Definition MAX_PIPE_INDEX : nat := 9.

(** ** JavaScript operators on wire values *)

Fixpoint lookup_member (k : string) (members : list (string * json)) : value :=
  match members with
  | [] => undefined
  | (k', v) :: rest => if String.eqb k k' then Some v else lookup_member k rest
  end.

(** [o.k]: a TypeError on [undefined] and [null], the member of an object,
    [undefined] on anything else (none of the keys read by the client is a
    built-in property of a string, a number, a boolean or an array). *)
Definition getprop (o : value) (k : string) : Outcome value :=
  match o with
  | None | Some JNull => Throw TypeError
  | Some (JObj members) => Ok (lookup_member k members)
  | Some _ => Ok undefined
  end.

(** [if (v)]. *)
Definition truthy (v : value) : bool :=
  match v with
  | None | Some JNull | Some (JBool false) | Some (JNum 0%Z) | Some (JStr "") =>
      false
  | Some _ => true
  end.

(** [v === s] for a string literal [s]. *)
Definition strict_eq_str (v : value) (s : string) : bool :=
  match v with
  | Some (JStr t) => String.eqb t s
  | _ => false
  end.

(** [v ?? d]. *)
Definition nullish_or (v : value) (d : json) : value :=
  match v with
  | None | Some JNull => Some d
  | Some _ => v
  end.

(** An object literal as [JSON.stringify] sees it: members whose value is
    [undefined] are left out. *)
Definition object_literal (fields : list (string * value)) : json :=
  JObj (omap (fun kv => match kv.2 with
                        | Some v => Some (kv.1, v)
                        | None => None
                        end) fields).

(** ** [Map<string, V>]: entries in insertion order, one per key *)

Section JsMap.
Context {V : Type}.

Fixpoint Map_get (k : string) (m : list (string * V)) : option V :=
  match m with
  | [] => None
  | (k', v) :: rest => if String.eqb k k' then Some v else Map_get k rest
  end.

Fixpoint Map_set (k : string) (v : V) (m : list (string * V))
  : list (string * V) :=
  match m with
  | [] => [(k, v)]
  | (k', v') :: rest =>
      if String.eqb k k' then (k', v) :: rest else (k', v') :: Map_set k v rest
  end.

Fixpoint Map_delete (k : string) (m : list (string * V))
  : list (string * V) :=
  match m with
  | [] => []
  | (k', v) :: rest =>
      if String.eqb k k' then Map_delete k rest
      else (k', v) :: Map_delete k rest
  end.
End JsMap.

(** ** The state of a client and of its runtime *)

Inductive ConnectionState : Type :=
| disconnected
| connecting
| connected
| ready.

#[global] Instance ConnectionState_eq_dec : EqDecision ConnectionState.
Proof. solve_decision. Defined.

(** An entry of [pendingRequests]: [resolve] and [reject] are the two
    capabilities of one promise. *)
Record PendingRequest : Type := { promise : nat; timer : nat }.

Record Socket : Type := { sock_id : nat; destroyed : bool }.

Record Options : Type := { heartbeatInterval : Z; connectionTimeout : Z }.

(** [ClientOptions] of [src/types.ts], as far as the constructor reads it. *)
Record ClientOptions : Type := {
  heartbeatInterval_opt : option Z;
  connectionTimeout_opt : option Z;
}.

(** How one [net.connect(path)] ends: ['connect'], ['error'] with a code, or
    neither before the timer of [tryConnect] fires. *)
Inductive ConnResult : Type :=
| Connected
| Failed (code : string) (message : string)
| TimedOut.

(** What the process finds around it. [uuid] and [net] are consulted in
    order, once per [randomUUID()] and once per [net.connect]. *)
Record Env : Type := {
  uuid : nat -> string;
  net : nat -> ConnResult;
  win32 : bool;
  XDG_RUNTIME_DIR : option string;
  TMPDIR : option string;
  TMP : option string;
  TEMP : option string;
  pid : Z;
}.

(** [ClientEvents] of [src/types.ts]. *)
Inductive ClientEvent : Type :=
| EvReady (data : value)
| EvDisconnected (reason : value)
| EvError (error : JsError)
| EvStateChange (s : ConnectionState)
| EvRpcEvent (event : value) (data : value).

Inductive Effect : Type :=
| Emit (e : ClientEvent)
| Resolve (p : nat) (v : value)
| Reject (p : nat) (e : JsError)
| SetTimeout (t : nat) (ms : Z)
| ClearTimeout (t : nat)
| SetInterval (t : nat) (ms : Z)
| ClearInterval (t : nat)
| NetConnect (s : nat) (path : string)
| SocketWrite (s : nat) (data : Buffer)
| SocketRemoveAllListeners (s : nat)
| SocketDestroy (s : nat).

(** The callbacks handed to [setTimeout] and [setInterval]. *)
Inductive TimerTask : Type :=
| RequestTimeout (nonce : string) (cmd : string) (p : nat)
| HandshakeTimeout (p : nat)
| HeartbeatTick
| FlushDelay.

Record World : Type := MkWorld {
  (** [Client]: [private state]. *)
  state : ConnectionState;
  clientId : option string;
  options : Options;
  (** [Client.pendingRequests], a [Map] in insertion order. *)
  pendingRequests : list (string * PendingRequest);
  heartbeatTimer : option nat;
  (** The [once('ready', onReady)] listeners of [login]: the handshake promise
      and its timer. *)
  readyOnce : list (nat * nat);
  (** [IPCTransport]: [socket] and [buffer]. *)
  socket : option Socket;
  buffer : Buffer;
  (** The runtime: timers that may still fire, counters for fresh handles and
      for the environment's answers, and everything done to the outside. *)
  timers : gmap nat TimerTask;
  next_id : nat;
  uuid_ctr : nat;
  net_ctr : nat;
  log : list Effect;
  env : Env;
}.

(** One update per field that changes. *)
Definition with_state (x : ConnectionState) (w : World) : World :=
  {| state := x; clientId := clientId w; options := options w;
     pendingRequests := pendingRequests w;
     heartbeatTimer := heartbeatTimer w; readyOnce := readyOnce w;
     socket := socket w; buffer := buffer w; timers := timers w;
     next_id := next_id w; uuid_ctr := uuid_ctr w; net_ctr := net_ctr w;
     log := log w; env := env w |}.

Definition with_clientId (x : option string) (w : World) : World :=
  {| state := state w; clientId := x; options := options w;
     pendingRequests := pendingRequests w;
     heartbeatTimer := heartbeatTimer w; readyOnce := readyOnce w;
     socket := socket w; buffer := buffer w; timers := timers w;
     next_id := next_id w; uuid_ctr := uuid_ctr w; net_ctr := net_ctr w;
     log := log w; env := env w |}.

Definition with_pendingRequests (x : list (string * PendingRequest)) (w : World)
  : World :=
  {| state := state w; clientId := clientId w; options := options w;
     pendingRequests := x; heartbeatTimer := heartbeatTimer w;
     readyOnce := readyOnce w; socket := socket w; buffer := buffer w;
     timers := timers w; next_id := next_id w; uuid_ctr := uuid_ctr w;
     net_ctr := net_ctr w; log := log w; env := env w |}.

Definition with_heartbeatTimer (x : option nat) (w : World) : World :=
  {| state := state w; clientId := clientId w; options := options w;
     pendingRequests := pendingRequests w; heartbeatTimer := x;
     readyOnce := readyOnce w; socket := socket w; buffer := buffer w;
     timers := timers w; next_id := next_id w; uuid_ctr := uuid_ctr w;
     net_ctr := net_ctr w; log := log w; env := env w |}.

Definition with_readyOnce (x : list (nat * nat)) (w : World) : World :=
  {| state := state w; clientId := clientId w; options := options w;
     pendingRequests := pendingRequests w;
     heartbeatTimer := heartbeatTimer w; readyOnce := x; socket := socket w;
     buffer := buffer w; timers := timers w; next_id := next_id w;
     uuid_ctr := uuid_ctr w; net_ctr := net_ctr w; log := log w;
     env := env w |}.

Definition with_socket (x : option Socket) (w : World) : World :=
  {| state := state w; clientId := clientId w; options := options w;
     pendingRequests := pendingRequests w;
     heartbeatTimer := heartbeatTimer w; readyOnce := readyOnce w;
     socket := x; buffer := buffer w; timers := timers w;
     next_id := next_id w; uuid_ctr := uuid_ctr w; net_ctr := net_ctr w;
     log := log w; env := env w |}.

Definition with_buffer (x : Buffer) (w : World) : World :=
  {| state := state w; clientId := clientId w; options := options w;
     pendingRequests := pendingRequests w;
     heartbeatTimer := heartbeatTimer w; readyOnce := readyOnce w;
     socket := socket w; buffer := x; timers := timers w;
     next_id := next_id w; uuid_ctr := uuid_ctr w; net_ctr := net_ctr w;
     log := log w; env := env w |}.

Definition with_timers (x : gmap nat TimerTask) (w : World) : World :=
  {| state := state w; clientId := clientId w; options := options w;
     pendingRequests := pendingRequests w;
     heartbeatTimer := heartbeatTimer w; readyOnce := readyOnce w;
     socket := socket w; buffer := buffer w; timers := x;
     next_id := next_id w; uuid_ctr := uuid_ctr w; net_ctr := net_ctr w;
     log := log w; env := env w |}.

Definition with_next_id (x : nat) (w : World) : World :=
  {| state := state w; clientId := clientId w; options := options w;
     pendingRequests := pendingRequests w;
     heartbeatTimer := heartbeatTimer w; readyOnce := readyOnce w;
     socket := socket w; buffer := buffer w; timers := timers w;
     next_id := x; uuid_ctr := uuid_ctr w; net_ctr := net_ctr w;
     log := log w; env := env w |}.

Definition with_uuid_ctr (x : nat) (w : World) : World :=
  {| state := state w; clientId := clientId w; options := options w;
     pendingRequests := pendingRequests w;
     heartbeatTimer := heartbeatTimer w; readyOnce := readyOnce w;
     socket := socket w; buffer := buffer w; timers := timers w;
     next_id := next_id w; uuid_ctr := x; net_ctr := net_ctr w; log := log w;
     env := env w |}.

Definition with_net_ctr (x : nat) (w : World) : World :=
  {| state := state w; clientId := clientId w; options := options w;
     pendingRequests := pendingRequests w;
     heartbeatTimer := heartbeatTimer w; readyOnce := readyOnce w;
     socket := socket w; buffer := buffer w; timers := timers w;
     next_id := next_id w; uuid_ctr := uuid_ctr w; net_ctr := x;
     log := log w; env := env w |}.

Definition with_log (x : list Effect) (w : World) : World :=
  {| state := state w; clientId := clientId w; options := options w;
     pendingRequests := pendingRequests w;
     heartbeatTimer := heartbeatTimer w; readyOnce := readyOnce w;
     socket := socket w; buffer := buffer w; timers := timers w;
     next_id := next_id w; uuid_ctr := uuid_ctr w; net_ctr := net_ctr w;
     log := x; env := env w |}.

(** ** Computations that may throw *)

Definition M (A : Type) : Type := World -> World * Outcome A.

Definition ret {A} (a : A) : M A := fun w => (w, Ok a).
Definition throw {A} (e : JsError) : M A := fun w => (w, Throw e).
Definition bind {A B} (m : M A) (k : A -> M B) : M B :=
  fun w => match m w with
           | (w', Ok a) => k a w'
           | (w', Throw e) => (w', Throw e)
           end.
Definition lift (f : World -> World) : M unit := fun w => (f w, Ok tt).
Definition lift_outcome {A} (o : Outcome A) : M A := fun w => (w, o).
(** [try { m } catch { }]. *)
Definition swallow (m : M unit) : World -> World := fun w => fst (m w).

Notation "'let*' x ':=' m 'in' k" := (bind m (fun x => k))
  (at level 10, x name, m at level 100, k at level 200, only parsing).

(** ** Runtime primitives *)

(** Recording something done to the outside. Observers of an emitted event
    are outside the model; they are taken not to throw, and ['error'] is
    taken to have a listener (without one, [emit] itself throws). *)
Definition perform (e : Effect) (w : World) : World :=
  with_log (log w ++ [e]) w.

Definition emit (e : ClientEvent) : World -> World := perform (Emit e).

Definition fresh (w : World) : nat * World :=
  (next_id w, with_next_id (S (next_id w)) w).

Definition randomUUID (w : World) : string * World :=
  (uuid (env w) (uuid_ctr w), with_uuid_ctr (S (uuid_ctr w)) w).

Definition setTimeout (task : TimerTask) (ms : Z) (w : World) : nat * World :=
  let (t, w1) := fresh w in
  (t, perform (SetTimeout t ms) (with_timers (<[t := task]> (timers w1)) w1)).

Definition clearTimeout (t : nat) (w : World) : World :=
  perform (ClearTimeout t) (with_timers (delete t (timers w)) w).

Definition setInterval (task : TimerTask) (ms : Z) (w : World) : nat * World :=
  let (t, w1) := fresh w in
  (t, perform (SetInterval t ms) (with_timers (<[t := task]> (timers w1)) w1)).

Definition clearInterval (t : nat) (w : World) : World :=
  perform (ClearInterval t) (with_timers (delete t (timers w)) w).

Section Client.
Context `{Platform}.

(** ** [IPCTransport] *)

(** [get connected()]. *)
Definition transport_connected (w : World) : bool :=
  match socket w with
  | Some s => negb (destroyed s)
  | None => false
  end.

(** [send(op, payload)]. *)
Definition send (op : N) (payload : json) : M unit :=
  fun w =>
    match socket w with
    | Some s =>
        if destroyed s
        then (w, Throw (ConnectionError
                          "Cannot send data: transport is not connected."))
        else
          match encode op payload with
          | Ok packet => (perform (SocketWrite (sock_id s) packet) w, Ok tt)
          | Throw e => (w, Throw e)
          end
    | None => (w, Throw (ConnectionError
                           "Cannot send data: transport is not connected."))
    end.

(** The clean-up shared by [destroy()] and [tryPath]: drop the listeners,
    destroy the socket, forget it. *)
Definition drop_socket (w : World) : World :=
  match socket w with
  | Some s =>
      with_socket None
        (perform (SocketDestroy (sock_id s))
           (perform (SocketRemoveAllListeners (sock_id s)) w))
  | None => w
  end.

(** [destroy()] of the transport. *)
Definition transport_destroy (w : World) : World :=
  with_buffer [] (drop_socket w).

(** [getPipePaths(index)]. *)
Definition env_set (v : option string) : option string :=
  match v with
  | Some "" | None => None
  | Some dir => Some dir
  end.

Definition getPipePaths (e : Env) (index : nat) : list string :=
  let name := "discord-ipc-" +:+ pretty index in
  if win32 e then ["\\?\pipe\" +:+ name]
  else
    let dirs :=
      match env_set (XDG_RUNTIME_DIR e) with
      | Some xdg =>
          [xdg; path_join [xdg; "app"; "com.discordapp.Discord"];
           path_join [xdg; "snap.discord"]]
      | None => []
      end
      ++ option_list (env_set (TMPDIR e))
      ++ option_list (env_set (TMP e))
      ++ option_list (env_set (TEMP e)) in
    let dirs := match dirs with [] => ["/tmp"] | _ => dirs end in
    map (fun dir => path_join [dir; name]) dirs.

Definition no_pipe_found (index : nat) : JsError :=
  ConnectionError ("No Discord IPC pipe found at index " +:+ pretty index
                   +:+ ".").

(** [net.connect(path)]: a new socket, and the event the environment
    answers with. *)
Definition net_connect (path : string) (w : World) : (nat * ConnResult) * World :=
  let (s, w1) := fresh w in
  ((s, net (env w1) (net_ctr w1)),
   perform (NetConnect s path) (with_net_ctr (S (net_ctr w1)) w1)).

(** [tryPath(pathIndex)] inside [tryConnect]; [remaining] is
    [paths.slice(pathIndex)]. The attempt ends with the first of
    ['connect'], ['error'] and the timer. *)
Fixpoint tryPath (index : nat) (timeout : Z) (remaining : list string)
  : M unit :=
  match remaining with
  | [] => throw (no_pipe_found index)
  | path :: rest =>
      if String.eqb path "" then throw (no_pipe_found index)
      else fun w =>
        let w1 := drop_socket w in
        let '((s, result), w2) := net_connect path w1 in
        let (t, w3) := fresh w2 in
        let w4 := perform (SetTimeout t timeout) w3 in
        match result with
        | TimedOut =>
            (perform (SocketDestroy s) w4,
             Throw (ConnectionError ("Connection timed out after "
                                     +:+ pretty timeout +:+ "ms.")))
        | Connected =>
            (with_socket (Some {| sock_id := s; destroyed := false |})
               (perform (ClearTimeout t) w4), Ok tt)
        | Failed code message =>
            let w5 := perform (SocketDestroy s) (perform (ClearTimeout t) w4) in
            if String.eqb code "ENOENT" || String.eqb code "ECONNREFUSED"
            then tryPath index timeout rest w5
            else (w5, Throw (ConnectionError ("IPC connection error: "
                                              +:+ message)))
        end
  end.

Definition tryConnect (index : nat) (timeout : Z) : M unit :=
  fun w => tryPath index timeout (getPipePaths (env w) index) w.

(** The [for] loop of [connect]: [i] runs up to [MAX_PIPE_INDEX], with
    [todo] slots still to go. *)
Fixpoint connect_scan (timeout : Z) (todo : nat) (i : nat) : M unit :=
  match todo with
  | O =>
      throw (ConnectionError
               ("Could not connect to Discord. No running instance found (scanned "
                +:+ pretty (MAX_PIPE_INDEX + 1)%nat +:+ " pipes)."))
  | S todo' =>
      fun w =>
        match tryConnect i timeout w with
        | (w', Ok _) => (w', Ok tt)
        | (w', Throw _) => connect_scan timeout todo' (S i) w'
        end
  end.

(** [connect(pipeIndex?, timeout)]. *)
Definition connect (pipeIndex : option nat) (timeout : Z) : M unit :=
  match pipeIndex with
  | Some index => tryConnect index timeout
  | None => connect_scan timeout (MAX_PIPE_INDEX + 1) 0
  end.

(** ** [Client] *)

(** The constructor. *)
Definition new_Client (o : ClientOptions) (e : Env) : World :=
  {| state := disconnected;
     clientId := None;
     options :=
       {| heartbeatInterval :=
            default HEARTBEAT_INTERVAL (heartbeatInterval_opt o);
          connectionTimeout := default 10000%Z (connectionTimeout_opt o) |};
     pendingRequests := [];
     heartbeatTimer := None;
     readyOnce := [];
     socket := None;
     buffer := [];
     timers := ∅;
     next_id := 0;
     uuid_ctr := 0;
     net_ctr := 0;
     log := [];
     env := e |}.

(** [setState(newState)]. *)
Definition setState (newState : ConnectionState) (w : World) : World :=
  if decide (state w = newState) then w
  else emit (EvStateChange newState) (with_state newState w).

(** [stopHeartbeat()]. *)
Definition stopHeartbeat (w : World) : World :=
  match heartbeatTimer w with
  | Some t => with_heartbeatTimer None (clearInterval t w)
  | None => w
  end.

(** [startHeartbeat()]. *)
Definition startHeartbeat (w : World) : World :=
  let w1 := stopHeartbeat w in
  let (t, w2) := setInterval HeartbeatTick (heartbeatInterval (options w1)) w1 in
  with_heartbeatTimer (Some t) w2.

(** [rejectAllPending(reason)]: the loop visits the entries in insertion
    order and deletes each one it has rejected. *)
Fixpoint rejectAll_loop (entries : list (string * PendingRequest))
    (reason : string) (w : World) : World :=
  match entries with
  | [] => w
  | (nonce, pending) :: rest =>
      let w1 := clearTimeout (timer pending) w in
      let w2 := perform (Reject (promise pending) (ConnectionError reason)) w1 in
      let w3 := with_pendingRequests (Map_delete nonce (pendingRequests w2)) w2 in
      rejectAll_loop rest reason w3
  end.

Definition rejectAllPending (reason : string) (w : World) : World :=
  rejectAll_loop (pendingRequests w) reason w.

(** [request(cmd, args, evt)]; the result is the promise it returns. *)
Definition request (cmd : string) (args evt : value) (w : World)
  : nat * World :=
  if decide (state w = ready) then
    let (nonce, w1) := randomUUID w in
    let (p, w2) := fresh w1 in
    let (t, w3) :=
      setTimeout (RequestTimeout nonce cmd p) (connectionTimeout (options w2))
        w2 in
    let w4 :=
      with_pendingRequests
        (Map_set nonce {| promise := p; timer := t |} (pendingRequests w3))
        w3 in
    match send OpCode_Frame
            (object_literal [("cmd", Some (JStr cmd)); ("args", args);
                             ("evt", evt); ("nonce", Some (JStr nonce))])
            w4 with
    | (w5, Ok _) => (p, w5)
    | (w5, Throw e) => (p, perform (Reject p e) w5)
    end
  else
    let (p, w1) := fresh w in
    (p, perform (Reject p (StateError
                             "Client is not ready. Call login() first.")) w1).

(** [setActivity(activity)] and [clearActivity()]. *)
Definition setActivity (activity : json) (w : World) : nat * World :=
  request Command_SetActivity
    (Some (JObj [("pid", JNum (pid (env w))); ("activity", activity)]))
    undefined w.

Definition clearActivity (w : World) : nat * World :=
  request Command_SetActivity
    (Some (JObj [("pid", JNum (pid (env w))); ("activity", JNull)]))
    undefined w.

(** [ping()]. *)
Definition ping : M unit :=
  fun w =>
    if transport_connected w then
      let (nonce, w1) := randomUUID w in
      send OpCode_Ping (object_literal [("nonce", Some (JStr nonce))]) w1
    else (w, Ok tt).

(** ** [destroy()]

    An [async] function: it runs up to its first [await] inside the call.
    When the state is [ready] it suspends on the promise of
    [clearActivity()]; if that promise is fulfilled it sets the 50 ms timer
    and suspends again. The last four statements run when it resumes. *)
Definition destroy_begin (w : World) : option nat * World :=
  if decide (state w = ready) then
    let (p, w1) := clearActivity w in (Some p, w1)
  else (None, w).

Definition destroy_flush (w : World) : World :=
  snd (setTimeout FlushDelay 50 w).

Definition destroy_finish (w : World) : World :=
  setState disconnected
    (transport_destroy (rejectAllPending "Client destroyed." (stopHeartbeat w))).

(** What a call of [destroy()] has done when it hands control back. *)
Definition destroy_call (w : World) : World :=
  match destroy_begin w with
  | (Some _, w1) => w1
  | (None, w1) => destroy_finish w1
  end.

(** What happens while [destroy()] is suspended: whether the awaited
    request is fulfilled, and the events handled in the meantime. *)
Record Suspension : Type := {
  clear_fulfilled : bool;
  while_clearing : World -> World;
  while_flushing : World -> World;
}.

(** The world in which [destroy()] reaches [stopHeartbeat()]. *)
Definition destroy_resumed (susp : Suspension) (w : World) : World :=
  match destroy_begin w with
  | (None, w1) => w1
  | (Some _, w1) =>
      let w2 := while_clearing susp w1 in
      if clear_fulfilled susp then while_flushing susp (destroy_flush w2)
      else w2
  end.

(** [destroy()] from the call to the settlement of its promise. *)
Definition destroy (susp : Suspension) (w : World) : World :=
  destroy_finish (destroy_resumed susp w).

(** ** Dispatch of incoming packets *)

(** The listener [onReady] that [login] registers with [once]. *)
Definition onReady (data : value) (listener : nat * nat) (w : World) : World :=
  let (p, t) := listener in
  perform (Resolve p data) (startHeartbeat (setState ready (clearTimeout t w))).

(** [emit('ready', data)]: the [once] listeners are removed, then run. *)
Definition emit_ready (data : value) (w : World) : World :=
  foldl (fun acc listener => onReady data listener acc)
    (with_readyOnce [] (emit (EvReady data) w)) (readyOnce w).

(** [pendingRequests.get(frame.nonce)] and [.delete(frame.nonce)]: the keys
    are strings, so any other value finds nothing. *)
Definition pending_get (nonce : value) (w : World) : option PendingRequest :=
  match nonce with
  | Some (JStr k) => Map_get k (pendingRequests w)
  | _ => None
  end.

Definition pending_delete (nonce : value) (w : World) : World :=
  match nonce with
  | Some (JStr k) => with_pendingRequests (Map_delete k (pendingRequests w)) w
  | _ => w
  end.

(** The routing of a Frame by [onPacket], from the READY test on, given the
    four members of the frame. *)
Definition route_frame (evt nonce data cmd : value) : M unit :=
  if strict_eq_str evt RPCEvent_Ready then lift (emit_ready data)
  else if strict_eq_str evt RPCEvent_Error && negb (truthy nonce) then
    let* message := lift_outcome (getprop data "message") in
    let* code := lift_outcome (getprop data "code") in
    lift (emit (EvError (CommandError
                           (nullish_or message (JStr "Unknown RPC error"))
                           (nullish_or code (JNum 0)))))
  else fun w =>
    match (if truthy nonce then pending_get nonce w else None) with
    | Some pending =>
        (let* _ := lift (pending_delete nonce) in
         let* _ := lift (clearTimeout (timer pending)) in
         if strict_eq_str evt RPCEvent_Error then
           let* message := lift_outcome (getprop data "message") in
           let* code := lift_outcome (getprop data "code") in
           lift (perform (Reject (promise pending)
                            (CommandError
                               (nullish_or message (JStr "Command failed"))
                               (nullish_or code (JNum 0)))))
         else lift (perform (Resolve (promise pending) data))) w
    | None =>
        if strict_eq_str cmd Command_Dispatch && truthy evt
        then (emit (EvRpcEvent evt data) w, Ok tt)
        else (w, Ok tt)
    end.

(** [onPacket(op, raw)]. The four members of the frame are read up front:
    the first read, [frame.evt], throws exactly when [raw] is [null], and
    then none of the others is reached; otherwise none of them throws. *)
Definition onPacket (op : N) (raw : json) : M unit :=
  if op =? OpCode_Close then
    let* message := lift_outcome (getprop (Some raw) "message") in
    let* _ := lift (emit (EvDisconnected message)) in
    lift destroy_call
  else if op =? OpCode_Ping then send OpCode_Pong raw
  else if negb (op =? OpCode_Frame) then ret tt
  else
    let* evt := lift_outcome (getprop (Some raw) "evt") in
    let* nonce := lift_outcome (getprop (Some raw) "nonce") in
    let* data := lift_outcome (getprop (Some raw) "data") in
    let* cmd := lift_outcome (getprop (Some raw) "cmd") in
    route_frame evt nonce data cmd.

(** [onTransportClose()]. *)
Definition onTransportClose (w : World) : World :=
  let w1 := rejectAllPending "Transport connection closed." (stopHeartbeat w) in
  if decide (state w1 = disconnected) then w1
  else emit (EvDisconnected (Some (JStr "Connection closed unexpectedly.")))
         (setState disconnected w1).

(** The listeners of [setupListeners], with the handlers the constructor
    of [Client] registers. *)
Definition packet_handler (op : N) (payload : json) : World -> World :=
  swallow (onPacket op payload).

Definition on_data (chunk : Buffer) : World -> World :=
  onData buffer with_buffer (Some packet_handler) chunk.

Definition on_close (w : World) : World :=
  onTransportClose (with_buffer [] (with_socket None w)).

(** ** [login(options)]

    [login_begin] is the call up to [await this.transport.connect(...)];
    [login_resume] is the rest, with the search of [connect] taken whole. Its
    result is the promise that [login] returns. *)
Definition login_begin (id : string) : M unit :=
  fun w =>
    if decide (state w = disconnected)
    then (setState connecting (with_clientId (Some id) w), Ok tt)
    else (w, Throw (StateError
             "Client is already connected or connecting. Call destroy() first.")).

Definition login_resume (id : string) : M nat :=
  fun w =>
    match connect None (connectionTimeout (options w)) w with
    | (w1, Throw e) => (setState disconnected w1, Throw e)
    | (w1, Ok _) =>
        let w2 := setState connected w1 in
        let (p, w3) := fresh w2 in
        let (t, w4) :=
          setTimeout (HandshakeTimeout p) (connectionTimeout (options w3)) w3 in
        let w5 := with_readyOnce (readyOnce w4 ++ [(p, t)]) w4 in
        match send OpCode_Handshake
                (object_literal [("v", Some (JNum IPC_VERSION));
                                 ("client_id", Some (JStr id))]) w5 with
        | (w6, Ok _) => (w6, Ok p)
        | (w6, Throw e) => (perform (Reject p e) w6, Ok p)
        end
    end.

(** ** Timers *)

(** The timer [t] fires: a timeout leaves the table, an interval stays. *)
Definition fire (t : nat) (w : World) : World :=
  match timers w !! t with
  | None => w
  | Some (RequestTimeout nonce cmd p) =>
      let w1 := with_timers (delete t (timers w)) w in
      let w2 := with_pendingRequests (Map_delete nonce (pendingRequests w1)) w1 in
      perform (Reject p (TimeoutError ("Request " +:+ cmd +:+ " timed out."))) w2
  | Some (HandshakeTimeout p) =>
      let w1 := with_timers (delete t (timers w)) w in
      destroy_call (perform (Reject p (TimeoutError "Handshake timed out.")) w1)
  | Some HeartbeatTick => swallow ping w
  | Some FlushDelay =>
      destroy_finish (with_timers (delete t (timers w)) w)
  end.

(** The socket is destroyed under the client, before ['close'] arrives. *)
Definition socket_breaks (w : World) : World :=
  match socket w with
  | Some s => with_socket (Some {| sock_id := sock_id s; destroyed := true |}) w
  | None => w
  end.

(** ** Runs of a client

    One step is one call from outside or one callback of the event loop. The
    continuations of [login] and [destroy] may run at any later step. *)
Inductive step : World -> World -> Prop :=
| step_login_begin id w : step w (fst (login_begin id w))
| step_login_resume id w : step w (fst (login_resume id w))
| step_request cmd args evt w : step w (snd (request cmd args evt w))
| step_ping w : step w (fst (ping w))
| step_destroy_call w : step w (destroy_call w)
| step_destroy_flush w : step w (destroy_flush w)
| step_destroy_finish w : step w (destroy_finish w)
| step_data chunk w : is_Some (socket w) -> step w (on_data chunk w)
| step_close w : is_Some (socket w) -> step w (on_close w)
| step_break w : step w (socket_breaks w)
| step_fire t w : step w (fire t w).

Definition reachable (o : ClientOptions) (e : Env) : World -> Prop :=
  rtc step (new_Client o e).

(** ** Frames as [src/types.ts] declares them *)

Definition frame_member (k : string) (raw : json) : value :=
  match raw with
  | JObj members => lookup_member k members
  | _ => undefined
  end.

(** [interface RPCFrame]: [cmd] a string, [evt] and [nonce] a string or
    [null], [data] an object. *)
Definition is_RPCFrame (raw : json) : bool :=
  match frame_member "cmd" raw, frame_member "evt" raw,
        frame_member "nonce" raw, frame_member "data" raw with
  | Some (JStr _), Some (JStr _ | JNull), Some (JStr _ | JNull),
    Some (JObj _) => true
  | _, _, _, _ => false
  end.
End Client.


(** * [PresenceBuilder] of [src/builder.ts] *)

Module PresenceBuilder.
Import PrimFloat.
Local Open Scope string_scope.

Definition MAX_BUTTONS : nat := 2.
Definition MAX_STRING_LENGTH : nat := 128.
Definition MAX_BUTTON_LABEL_LENGTH : nat := 32.

(** [ActivityType] of [src/constants.ts]. *)
Definition ActivityType_Playing : Z := 0.
Definition ActivityType_Streaming : Z := 1.
Definition ActivityType_Listening : Z := 2.
Definition ActivityType_Watching : Z := 3.
Definition ActivityType_Competing : Z := 5.

Definition VALID_ACTIVITY_TYPES : list Z :=
  [ActivityType_Playing; ActivityType_Listening; ActivityType_Watching;
   ActivityType_Competing].

(** A JavaScript number is an IEEE 754 double: [<] and [>] on numbers are
    the comparisons of doubles, which are false as soon as one side is
    [NaN]. [String(n)] belongs to the runtime. *)
Definition number : Type := PrimFloat.float.
Definition number_lt (x y : number) : bool := PrimFloat.ltb x y.
Definition number_gt (x y : number) : bool := PrimFloat.ltb y x.

Class NumberFormat := String_of_number : number -> string.

(** The structures of [src/types.ts]. A member that is absent or
    [undefined] is [None]. The activity type and the timestamps are
    integers; the sizes of a party are any numbers. *)
Record ActivityTimestamps : Type := {
  start : option Z;
  end_ : option Z;
}.

Record ActivityAssets : Type := {
  large_image : option string;
  large_text : option string;
  large_url : option string;
  small_image : option string;
  small_text : option string;
  small_url : option string;
}.

Record ActivityParty : Type := {
  id : option string;
  size : option (number * number);
}.

Record ActivitySecrets : Type := {
  join : option string;
  spectate : option string;
  match_ : option string;
}.

Record ActivityButton : Type := { label : string; url : string }.

(** [buttons] holds a reference to an array: [addButton] pushes onto the
    array in place, and the copy that [build()] returns holds the same
    reference. The other structures are never changed in place by the
    builder, so they are held as values. *)
Record Activity : Type := {
  type : option Z;
  state : option string;
  state_url : option string;
  details : option string;
  details_url : option string;
  timestamps : option ActivityTimestamps;
  assets : option ActivityAssets;
  party : option ActivityParty;
  secrets : option ActivitySecrets;
  instance : option bool;
  buttons : option nat;
}.

(** A builder and the arrays made so far; a reference is an index into
    [arrays]. *)
Record Builder : Type := {
  payload : Activity;
  arrays : list (list ActivityButton);
}.

Inductive Completion : Type :=
| Returns
| Throws_RangeError (message : string).

Definition Method : Type := Builder -> Builder * Completion.

Definition empty_Activity : Activity :=
  {| type := None; state := None; state_url := None; details := None;
     details_url := None; timestamps := None; assets := None; party := None;
     secrets := None; instance := None; buttons := None |}.

(** [new PresenceBuilder()]. *)
Definition new_PresenceBuilder : Builder :=
  {| payload := empty_Activity; arrays := [] |}.

(** An assignment to one member of [this.payload]. *)
Definition assign (f : Activity -> Activity) : Method :=
  fun b => ({| payload := f (payload b); arrays := arrays b |}, Returns).

(** [truncate(str, maxLength)]. *)
Definition truncate (str : string) (maxLength : nat) : string :=
  if (maxLength <? String.length str)%nat then String.substring 0 maxLength str
  else str.

Definition setType (type : Z) : Method :=
  fun b =>
    if bool_decide (type ∈ VALID_ACTIVITY_TYPES) then
      assign (fun a =>
                {| type := Some type; state := state a;
                   state_url := state_url a; details := details a;
                   details_url := details_url a; timestamps := timestamps a;
                   assets := assets a; party := party a; secrets := secrets a;
                   instance := instance a; buttons := buttons a |}) b
    else
      (b, Throws_RangeError
            ("Invalid activity type for SET_ACTIVITY: " +:+ pretty type +:+ ". "
             +:+ "Only Playing (0), Listening (2), Watching (3), and Competing (5) are supported.")).

Definition setDetails (details : string) : Method :=
  assign (fun a =>
            {| type := type a; state := state a; state_url := state_url a;
               details := Some (truncate details MAX_STRING_LENGTH);
               details_url := details_url a; timestamps := timestamps a;
               assets := assets a; party := party a; secrets := secrets a;
               instance := instance a; buttons := buttons a |}).

Definition setDetailsUrl (url : string) : Method :=
  assign (fun a =>
            {| type := type a; state := state a; state_url := state_url a;
               details := details a; details_url := Some url;
               timestamps := timestamps a; assets := assets a;
               party := party a; secrets := secrets a;
               instance := instance a; buttons := buttons a |}).

Definition setState (state : string) : Method :=
  assign (fun a =>
            {| type := type a;
               state := Some (truncate state MAX_STRING_LENGTH);
               state_url := state_url a; details := details a;
               details_url := details_url a; timestamps := timestamps a;
               assets := assets a; party := party a; secrets := secrets a;
               instance := instance a; buttons := buttons a |}).

Definition setStateUrl (url : string) : Method :=
  assign (fun a =>
            {| type := type a; state := state a;
               state_url := Some url; details := details a;
               details_url := details_url a; timestamps := timestamps a;
               assets := assets a; party := party a; secrets := secrets a;
               instance := instance a; buttons := buttons a |}).

Definition with_timestamps (x : option ActivityTimestamps) (a : Activity)
  : Activity :=
  {| type := type a; state := state a; state_url := state_url a;
     details := details a; details_url := details_url a; timestamps := x;
     assets := assets a; party := party a; secrets := secrets a;
     instance := instance a; buttons := buttons a |}.

Definition with_assets (x : option ActivityAssets) (a : Activity) : Activity :=
  {| type := type a; state := state a; state_url := state_url a;
     details := details a; details_url := details_url a;
     timestamps := timestamps a; assets := x; party := party a;
     secrets := secrets a; instance := instance a; buttons := buttons a |}.

Definition with_party (x : option ActivityParty) (a : Activity) : Activity :=
  {| type := type a; state := state a; state_url := state_url a;
     details := details a; details_url := details_url a;
     timestamps := timestamps a; assets := assets a; party := x;
     secrets := secrets a; instance := instance a; buttons := buttons a |}.

Definition with_buttons (x : option nat) (a : Activity) : Activity :=
  {| type := type a; state := state a; state_url := state_url a;
     details := details a; details_url := details_url a;
     timestamps := timestamps a; assets := assets a; party := party a;
     secrets := secrets a; instance := instance a; buttons := x |}.

Definition setTimestamps (timestamps : ActivityTimestamps) : Method :=
  assign (with_timestamps (Some timestamps)).

(** [number | Date]. *)
Inductive DateArg : Type :=
| ANumber (n : Z)
| ADate (time : Z).

(** [date instanceof Date ? date.getTime() : date]. *)
Definition epoch (date : DateArg) : Z :=
  match date with
  | ADate time => time
  | ANumber n => n
  end.

(** [{ ...this.payload.timestamps, start: ... }]. *)
Definition setStartTimestamp (date : DateArg) : Method :=
  assign (fun a =>
            with_timestamps
              (Some {| start := Some (epoch date);
                       end_ := timestamps a ≫= end_ |}) a).

Definition setEndTimestamp (date : DateArg) : Method :=
  assign (fun a =>
            with_timestamps
              (Some {| start := timestamps a ≫= start;
                       end_ := Some (epoch date) |}) a).

Definition setAssets (assets : ActivityAssets) : Method :=
  assign (with_assets (Some assets)).

Definition setLargeImage (key : string) (text url : option string) : Method :=
  assign (fun a =>
            with_assets
              (Some {| large_image := Some key; large_text := text;
                       large_url := url;
                       small_image := assets a ≫= small_image;
                       small_text := assets a ≫= small_text;
                       small_url := assets a ≫= small_url |}) a).

Definition setSmallImage (key : string) (text url : option string) : Method :=
  assign (fun a =>
            with_assets
              (Some {| large_image := assets a ≫= large_image;
                       large_text := assets a ≫= large_text;
                       large_url := assets a ≫= large_url;
                       small_image := Some key; small_text := text;
                       small_url := url |}) a).

Section Methods.
Context `{NumberFormat}.

Definition setParty (id : string) (currentSize maxSize : number) : Method :=
fun b =>
  if number_lt currentSize 0%float || number_lt maxSize 1%float
     || number_gt currentSize maxSize
  then
    (b, Throws_RangeError
          ("Invalid party size: " +:+ String_of_number currentSize +:+ "/"
           +:+ String_of_number maxSize))
  else
    assign (with_party (Some {| id := Some id;
                                size := Some (currentSize, maxSize) |})) b.

Definition setPartyRaw (party : ActivityParty) : Method :=
assign (with_party (Some party)).

Definition setSecrets (secrets : ActivitySecrets) : Method :=
assign (fun a =>
          {| type := type a; state := state a; state_url := state_url a;
             details := details a; details_url := details_url a;
             timestamps := timestamps a; assets := assets a;
             party := party a; secrets := Some secrets;
             instance := instance a; buttons := buttons a |}).

Definition setInstance (instance : bool) : Method :=
assign (fun a =>
          {| type := type a; state := state a; state_url := state_url a;
             details := details a; details_url := details_url a;
             timestamps := timestamps a; assets := assets a;
             party := party a; secrets := secrets a;
             instance := Some instance; buttons := buttons a |}).

(** [buttons.map(...)] makes a new array. *)
Definition setButtons (buttons : list ActivityButton) : Method :=
fun b =>
  if (MAX_BUTTONS <? length buttons)%nat then
    (b, Throws_RangeError
          ("Maximum of " +:+ pretty MAX_BUTTONS +:+ " buttons allowed, got "
           +:+ pretty (length buttons) +:+ "."))
  else
    ({| payload := with_buttons (Some (length (arrays b))) (payload b);
        arrays :=
          (arrays b
           ++ [map (fun x => {| label := truncate (label x)
                                           MAX_BUTTON_LABEL_LENGTH;
                                url := url x |}) buttons])%list |},
     Returns).

(** [this.payload.buttons ??= []], then the check, then [push]. *)
Definition addButton (label url : string) : Method :=
fun b =>
  let b1 :=
    match buttons (payload b) with
    | Some _ => b
    | None =>
        {| payload := with_buttons (Some (length (arrays b))) (payload b);
           arrays := (arrays b ++ [[]])%list |}
    end in
  let r := default 0%nat (buttons (payload b1)) in
  let current := default [] (arrays b1 !! r) in
  if (MAX_BUTTONS <=? length current)%nat then
    (b1, Throws_RangeError
           ("Maximum of " +:+ pretty MAX_BUTTONS +:+ " buttons allowed."))
  else
    ({| payload := payload b1;
        arrays :=
          <[r := (current ++ [{| label := truncate label
                                            MAX_BUTTON_LABEL_LENGTH;
                                 url := url |}])%list]> (arrays b1) |},
     Returns).

(** [build()]: a copy of the members of the payload. *)
Definition build (b : Builder) : Activity := payload b.

(** The buttons of an activity, as the arrays are now. *)
Definition buttons_of (arrays : list (list ActivityButton)) (a : Activity)
: option (list ActivityButton) :=
buttons a ≫= fun r => arrays !! r.

(** The calls of the fluent interface. *)
Inductive method_call : Method -> Prop :=
| call_setType type : method_call (setType type)
| call_setDetails details : method_call (setDetails details)
| call_setDetailsUrl url : method_call (setDetailsUrl url)
| call_setState state : method_call (setState state)
| call_setStateUrl url : method_call (setStateUrl url)
| call_setTimestamps timestamps : method_call (setTimestamps timestamps)
| call_setStartTimestamp date : method_call (setStartTimestamp date)
| call_setEndTimestamp date : method_call (setEndTimestamp date)
| call_setAssets assets : method_call (setAssets assets)
| call_setLargeImage key text url : method_call (setLargeImage key text url)
| call_setSmallImage key text url : method_call (setSmallImage key text url)
| call_setParty id currentSize maxSize :
  method_call (setParty id currentSize maxSize)
| call_setPartyRaw party : method_call (setPartyRaw party)
| call_setSecrets secrets : method_call (setSecrets secrets)
| call_setInstance instance : method_call (setInstance instance)
| call_setButtons buttons : method_call (setButtons buttons)
| call_addButton label url : method_call (addButton label url).
End Methods.

(** A chain [b.m1(...).m2(...)...]: it ends at the first call that throws. *)
Fixpoint chain (calls : list Method) (b : Builder) : Builder * Completion :=
  match calls with
  | [] => (b, Returns)
  | m :: rest =>
      match m b with
      | (b', Returns) => chain rest b'
      | (b', Throws_RangeError message) => (b', Throws_RangeError message)
      end
  end.

(** The limits the builder enforces: a valid type, at most 128 characters
    of details and of state, and in every array of buttons at most two
    buttons with labels of at most 32 characters; the reference held by the
    payload is one of the arrays. *)
Definition within_limits (b : Builder) : Prop :=
  (forall t, type (payload b) = Some t -> t ∈ VALID_ACTIVITY_TYPES)
  /\ (forall s, details (payload b) = Some s ->
        (String.length s <= MAX_STRING_LENGTH)%nat)
  /\ (forall s, state (payload b) = Some s ->
        (String.length s <= MAX_STRING_LENGTH)%nat)
  /\ (forall r, buttons (payload b) = Some r -> (r < length (arrays b))%nat)
  /\ Forall (fun bs =>
               (length bs <= MAX_BUTTONS)%nat
               /\ Forall (fun x => (String.length (label x)
                                    <= MAX_BUTTON_LABEL_LENGTH)%nat) bs)
       (arrays b).
End PresenceBuilder.

(** * [Client.getAvatarUrl] of [src/client.ts] *)

Module Avatar.
Local Open Scope string_scope.

(** [AvatarUrlOptions] of [src/types.ts]. *)
Record AvatarUrlOptions : Type := {
  extension : option string;
  size : option Z;
  forceStatic : option bool;
}.

Section GetAvatarUrl.
(** [BigInt(userId)] belongs to the runtime: the integer the string
    denotes, or nothing when it denotes none and a SyntaxError is
    thrown. *)
Variable BigInt : string -> option Z.

(** The result is [None] when [BigInt] throws. [x >> 22n] is the floor
    of the division by [2^22], and [%] truncates towards zero. *)
Definition getAvatarUrl (userId : string) (avatarHash : option string)
    (options : option AvatarUrlOptions) : option string :=
  let size := default 512%Z (options ≫= size) in
  let forceStatic := default false (options ≫= forceStatic) in
  let ext := default "png" (options ≫= extension) in
  match avatarHash with
  | None | Some "" =>
      match BigInt userId with
      | Some n =>
          let index := Z.rem (Z.shiftr n 22) 6 in
          Some ("https://cdn.discordapp.com/embed/avatars/" +:+ pretty index
                +:+ ".png")
      | None => None
      end
  | Some hash =>
      let ext :=
        if String.prefix "a_" hash && negb forceStatic then "gif" else ext in
      Some ("https://cdn.discordapp.com/avatars/" +:+ userId +:+ "/"
            +:+ hash +:+ "." +:+ ext +:+ "?size=" +:+ pretty size)
  end.
End GetAvatarUrl.
End Avatar.
(** ** A reference platform

    A JSON printer and parser for ASCII text without control characters,
    the identity as UTF-8 conversion on such text, and [path.join] on
    segments that need no normalisation. It is used to run the model on
    concrete inputs; the theorems hold for every platform. *)

Module Reference.
Local Open Scope string_scope.

Fixpoint escape (s : string) : string :=
  match s with
  | EmptyString => EmptyString
  | String c rest =>
      if Ascii.eqb c "034"%char then String "\"%char (String c (escape rest))
      else if Ascii.eqb c "\"%char then String "\"%char (String c (escape rest))
      else String c (escape rest)
  end.

Definition dquote : string := String "034"%char EmptyString.

Definition quote (s : string) : string := dquote +:+ escape s +:+ dquote.

Definition commas (parts : list string) : string := String.concat "," parts.

Fixpoint print (v : json) : string :=
  match v with
  | JNull => "null"
  | JBool true => "true"
  | JBool false => "false"
  | JNum n => pretty n
  | JStr s => quote s
  | JArr items =>
      "[" +:+ commas ((fix each (l : list json) : list string :=
                         match l with
                         | [] => []
                         | x :: r => print x :: each r
                         end) items) +:+ "]"
  | JObj members =>
      "{" +:+ commas ((fix each (l : list (string * json)) : list string :=
                         match l with
                         | [] => []
                         | (k, x) :: r => (quote k +:+ ":" +:+ print x) :: each r
                         end) members) +:+ "}"
  end.

Definition is_space (c : ascii) : bool :=
  Ascii.eqb c " "%char || Ascii.eqb c "009"%char || Ascii.eqb c "010"%char
  || Ascii.eqb c "013"%char.

Fixpoint skip_ws (s : string) : string :=
  match s with
  | String c rest => if is_space c then skip_ws rest else s
  | EmptyString => s
  end.

Definition digit (c : ascii) : option Z :=
  let n := Ascii.N_of_ascii c in
  if (48 <=? n)%N && (n <=? 57)%N then Some (Z.of_N (n - 48)) else None.

Fixpoint read_digits (s : string) (acc : Z) : Z * string :=
  match s with
  | String c rest =>
      match digit c with
      | Some d => read_digits rest (10 * acc + d)
      | None => (acc, s)
      end
  | EmptyString => (acc, s)
  end.

Definition read_number (s : string) : option (Z * string) :=
  match s with
  | String "-" (String c rest) =>
      match digit c with
      | Some d => let (n, r) := read_digits rest d in Some (- n, r)%Z
      | None => None
      end
  | String c rest =>
      match digit c with
      | Some d => Some (read_digits rest d)
      | None => None
      end
  | EmptyString => None
  end.

(** The text after an opening quote, up to the closing one. *)
Fixpoint read_string (s : string) : option (string * string) :=
  match s with
  | EmptyString => None
  | String c rest =>
      if Ascii.eqb c "034"%char then Some (EmptyString, rest)
      else if Ascii.eqb c "\"%char then
        match rest with
        | String e rest' =>
            if Ascii.eqb e "034"%char || Ascii.eqb e "\"%char then
              match read_string rest' with
              | Some (body, r) => Some (String e body, r)
              | None => None
              end
            else None
        | EmptyString => None
        end
      else
        match read_string rest with
        | Some (body, r) => Some (String c body, r)
        | None => None
        end
  end.

Fixpoint read_value (fuel : nat) (s : string) : option (json * string) :=
  match fuel with
  | O => None
  | S fuel' =>
      match skip_ws s with
      | String "n" (String "u" (String "l" (String "l" r))) => Some (JNull, r)
      | String "t" (String "r" (String "u" (String "e" r))) =>
          Some (JBool true, r)
      | String "f" (String "a" (String "l" (String "s" (String "e" r)))) =>
          Some (JBool false, r)
      | String "034"%char r =>
          match read_string r with
          | Some (body, r') => Some (JStr body, r')
          | None => None
          end
      | String "[" r =>
          match skip_ws r with
          | String "]" r' => Some (JArr [], r')
          | _ =>
              match read_items fuel' r with
              | Some (items, r') => Some (JArr items, r')
              | None => None
              end
          end
      | String "{" r =>
          match skip_ws r with
          | String "}" r' => Some (JObj [], r')
          | _ =>
              match read_members fuel' r with
              | Some (members, r') => Some (JObj members, r')
              | None => None
              end
          end
      | other =>
          match read_number other with
          | Some (n, r) => Some (JNum n, r)
          | None => None
          end
      end
  end
with read_items (fuel : nat) (s : string) : option (list json * string) :=
  match fuel with
  | O => None
  | S fuel' =>
      match read_value fuel' s with
      | Some (v, r) =>
          match skip_ws r with
          | String "]" r' => Some ([v], r')
          | String "," r' =>
              match read_items fuel' r' with
              | Some (vs, r'') => Some (v :: vs, r'')
              | None => None
              end
          | _ => None
          end
      | None => None
      end
  end
with read_members (fuel : nat) (s : string)
  : option (list (string * json) * string) :=
  match fuel with
  | O => None
  | S fuel' =>
      match skip_ws s with
      | String "034"%char r =>
          match read_string r with
          | Some (k, r1) =>
              match skip_ws r1 with
              | String ":" r2 =>
                  match read_value fuel' r2 with
                  | Some (v, r3) =>
                      match skip_ws r3 with
                      | String "}" r4 => Some ([(k, v)], r4)
                      | String "," r4 =>
                          match read_members fuel' r4 with
                          | Some (kvs, r5) => Some ((k, v) :: kvs, r5)
                          | None => None
                          end
                      | _ => None
                      end
                  | None => None
                  end
              | _ => None
              end
          | None => None
          end
      | _ => None
      end
  end.

Definition parse (s : string) : option json :=
  match read_value (S (String.length s)) s with
  | Some (v, r) =>
      match skip_ws r with
      | EmptyString => Some v
      | _ => None
      end
  | None => None
  end.

#[global] Instance platform : Platform := {|
  JSON_stringify := print;
  JSON_parse := parse;
  utf8_encode := String.list_byte_of_string;
  utf8_decode := String.string_of_list_byte;
  path_join := String.concat "/";
|}.
End Reference.

(** ** Vocabulary of the statements *)

Section Vocabulary.
Context `{Platform}.

(** What was appended to the log between [w] and [w']. *)
Definition effects_since (w w' : World) : list Effect :=
  drop (length (log w)) (log w').

(** How a matched response settles the request: [reject] with a
    [CommandError] when the frame's event is the error marker, [resolve]
    with the frame's data otherwise. *)
Definition response_settlement (raw : json) (pending : PendingRequest)
  : Effect :=
  let data := frame_member "data" raw in
  if strict_eq_str (frame_member "evt" raw) RPCEvent_Error then
    Reject (promise pending)
      (CommandError
         (nullish_or (from_option (frame_member "message") undefined data)
            (JStr "Command failed"))
         (nullish_or (from_option (frame_member "code") undefined data)
            (JNum 0)))
  else Resolve (promise pending) data.

(** The outcome the request correlator promises for a frame whose nonce
    is the token [tok] of the pending entry [pending]. *)
Definition response_matched (w : World) (tok : string)
    (pending : PendingRequest) (raw : json) (w' : World) : Prop :=
  Map_get tok (pendingRequests w') = None
  /\ (forall tok', tok' <> tok ->
        Map_get tok' (pendingRequests w') = Map_get tok' (pendingRequests w))
  /\ timers w' = delete (timer pending) (timers w)
  /\ log w' = log w ++ [ClearTimeout (timer pending);
                        response_settlement raw pending]
  /\ state w' = state w
  /\ heartbeatTimer w' = heartbeatTimer w
  /\ socket w' = socket w.

(** The effects of the last four statements of [destroy()]. *)
Definition teardown_effects (w : World) : list Effect :=
  match heartbeatTimer w with
  | Some t => [ClearInterval t]
  | None => []
  end
  ++ flat_map (fun entry =>
                 [ClearTimeout (timer entry.2);
                  Reject (promise entry.2) (ConnectionError "Client destroyed.")])
       (pendingRequests w)
  ++ match socket w with
     | Some s => [SocketRemoveAllListeners (sock_id s); SocketDestroy (sock_id s)]
     | None => []
     end
  ++ (if decide (state w = disconnected) then []
      else [Emit (EvStateChange disconnected)]).




(** The states announced so far, in order. *)
Definition stateChanges (effects : list Effect) : list ConnectionState :=
  omap (fun e => match e with
                 | Emit (EvStateChange s) => Some s
                 | _ => None
                 end) effects.

Fixpoint no_repeat (l : list ConnectionState) : Prop :=
  match l with
  | a :: (b :: _) as rest => a <> b /\ no_repeat rest
  | _ => True
  end.

(** The delays of the timeouts set, and the paths connected to, in order. *)
Definition timeouts_set (effects : list Effect) : list Z :=
  omap (fun e => match e with
                 | SetTimeout _ ms => Some ms
                 | _ => None
                 end) effects.

Definition paths_tried (effects : list Effect) : list string :=
  omap (fun e => match e with
                 | NetConnect _ path => Some path
                 | _ => None
                 end) effects.

(** Every connection attempt runs against a timer of [ms] milliseconds:
    each [net.connect] is followed at once by a [setTimeout] with that
    delay, and the next thing done is either the [clearTimeout] of that
    timer, by the socket's answer, or the destruction of that socket, by the
    timer's callback. *)
Fixpoint attempts_timed (ms : Z) (effects : list Effect) : Prop :=
  match effects with
  | [] => True
  | NetConnect s _ :: rest =>
      match rest with
      | SetTimeout t ms' :: next :: _ =>
          ms' = ms /\ (next = ClearTimeout t \/ next = SocketDestroy s)
      | _ => False
      end
      /\ attempts_timed ms rest
  | _ :: rest => attempts_timed ms rest
  end.

(** From [w] to [w'] every connection attempt is timed with [ms], and no
    other timeout than theirs is set. *)
Definition timed (ms : Z) (w w' : World) : Prop :=
  exists effs,
    log w' = log w ++ effs
    /\ attempts_timed ms effs
    /\ length (timeouts_set effs) = length (paths_tried effs).

(** The world after [connect] has gone through the [k] slots from [i] on,
    in ascending order, whatever each attempt gave. *)
Definition after_from (timeout : Z) (i k : nat) (w : World) : World :=
  foldl (fun acc i => fst (tryConnect i timeout acc)) w (seq i k).

Definition after_slots (timeout : Z) (k : nat) (w : World) : World :=
  after_from timeout 0 k w.

Definition slot_fails (timeout : Z) (i : nat) (w : World) : Prop :=
  exists e, snd (tryConnect i timeout (after_slots timeout i w)) = Throw e.

Definition retryable (r : ConnResult) : bool :=
  match r with
  | Failed code _ => String.eqb code "ENOENT" || String.eqb code "ECONNREFUSED"
  | _ => false
  end.
(** The effects of an operation, as far as the statements below look at
    them: every timeout set has the delay [ms], no state is announced, and
    the state and the options stay. *)
Definition quiet (ms : Z) (w w' : World) : Prop :=
  exists effs,
    log w' = log w ++ effs
    /\ Forall (eq ms) (timeouts_set effs)
    /\ stateChanges effs = []
    /\ state w' = state w /\ options w' = options w /\ env w' = env w.


(** What the request correlator does with a request made in world [w], its
    timeout, and a frame [raw] that carries its token and arrives late. *)
Definition timeout_then_late_frame (cmd : string) (args evt : value)
    (w : World) (raw : json) : Prop :=
  let tok := uuid (env w) (uuid_ctr w) in
  let (p, w1) := request cmd args evt w in
  exists t,
    Map_get tok (pendingRequests w1) = Some {| promise := p; timer := t |}
    /\ timers w1 !! t = Some (RequestTimeout tok cmd p)
    /\ forall w2,
         timers w2 !! t = Some (RequestTimeout tok cmd p) ->
         let w3 := fire t w2 in
         Map_get tok (pendingRequests w3) = None
         /\ (forall tok', tok' <> tok ->
               Map_get tok' (pendingRequests w3)
               = Map_get tok' (pendingRequests w2))
         /\ timers w3 = delete t (timers w2)
         /\ effects_since w2 w3
            = [Reject p (TimeoutError ("Request " +:+ cmd +:+ " timed out."))]
         /\ forall w4,
              Map_get tok (pendingRequests w4) = None ->
              onPacket OpCode_Frame raw w4
              = (if strict_eq_str (frame_member "cmd" raw) Command_Dispatch
                    && truthy (frame_member "evt" raw)
                 then emit (EvRpcEvent (frame_member "evt" raw)
                              (frame_member "data" raw)) w4
                 else w4, Ok tt).


(** The state and the announcements agree: the options are [opts], the
    last state announced (or [disconnected], the initial one, when none
    was) is the current state, and no announcement repeats the state
    before it. *)
Definition tracks (opts : Options) (w : World) : Prop :=
  options w = opts
  /\ last (disconnected :: stateChanges (log w)) = Some (state w)
  /\ no_repeat (disconnected :: stateChanges (log w)).

(** Properties of worlds that every operation of the client keeps: they
    survive an update of any field but [state], [log] and [buffer], a
    buffer that does not grow, an effect that announces no state, and the
    state setter. *)
Class Stable (P : World -> Prop) : Prop := {
  stable_clientId x w : P w -> P (with_clientId x w);
  stable_pendingRequests x w : P w -> P (with_pendingRequests x w);
  stable_heartbeatTimer x w : P w -> P (with_heartbeatTimer x w);
  stable_readyOnce x w : P w -> P (with_readyOnce x w);
  stable_socket x w : P w -> P (with_socket x w);
  stable_timers x w : P w -> P (with_timers x w);
  stable_next_id x w : P w -> P (with_next_id x w);
  stable_uuid_ctr x w : P w -> P (with_uuid_ctr x w);
  stable_net_ctr x w : P w -> P (with_net_ctr x w);
  stable_buffer x w :
    (length x <= length (buffer w))%nat -> P w -> P (with_buffer x w);
  stable_perform e w : stateChanges [e] = [] -> P w -> P (perform e w);
  stable_setState s w : P w -> P (setState s w);
}.

(** The accumulation buffer holds at most [n] bytes. *)
Definition buffer_within (n : nat) (w : World) : Prop :=
  (length (buffer w) <= n)%nat.
End Vocabulary.

(** ** A session on the reference platform *)

Module Scenario.
Import Reference.
Local Open Scope string_scope.

(** Linux with [XDG_RUNTIME_DIR] and [TEMP] set; the third connection
    attempt succeeds, the others find no socket. *)
Definition env0 : Env := {|
  uuid := fun n => "nonce-" +:+ pretty n;
  net := fun n => match n with
                  | 2%nat => Connected
                  | _ => Failed "ENOENT" "no such file or directory"
                  end;
  win32 := false;
  XDG_RUNTIME_DIR := Some "/run/user/1000";
  TMPDIR := None;
  TMP := None;
  TEMP := Some "/tmp";
  pid := 4242;
|}.

Definition packet (op : N) (payload : json) : Buffer :=
  match encode op payload with
  | Ok bytes => bytes
  | Throw _ => []
  end.

Definition ready_frame : json :=
  JObj [("cmd", JStr "DISPATCH"); ("evt", JStr "READY"); ("nonce", JNull);
        ("data", JObj [("v", JNum 1)])].

Definition fresh_client : World :=
  new_Client {| heartbeatInterval_opt := None; connectionTimeout_opt := None |}
    env0.
Definition connecting_client : World := fst (login_begin "app-1" fresh_client).
Definition connected_client : World :=
  fst (login_resume "app-1" connecting_client).
Definition ready_client : World :=
  on_data (packet OpCode_Frame ready_frame) connected_client.

(** Two requests in flight. *)
Definition busy_client : World :=
  snd (request "GET_GUILDS" undefined undefined
         (snd (request "SUBSCRIBE" (Some (JObj [])) (Some (JStr "GUILD_STATUS"))
                 ready_client))).





(** The bytes of the READY frame, and one way of cutting them up. *)
Definition ready_bytes : Buffer := packet OpCode_Frame ready_frame.
Definition ready_chunks : list Buffer :=
  [take 3 ready_bytes; []; take 7 (drop 3 ready_bytes); drop 10 ready_bytes].

(** A payload block that is cut off after the first key. *)
Definition cut_payload : Buffer :=
  String.list_byte_of_string ("{" +:+ dquote +:+ "cmd" +:+ dquote +:+ ":").
Definition cut_header : Buffer :=
  (le32 OpCode_Frame ++ le32 (N.of_nat (length cut_payload)))%list.

(** Responses to the first request of [busy_client]. *)
Definition first_pending : PendingRequest := {| promise := 9; timer := 10 |}.

Definition error_response : json :=
  JObj [("cmd", JStr "SUBSCRIBE"); ("evt", JStr "ERROR");
        ("nonce", JStr "nonce-0");
        ("data", JObj [("code", JNum 4004); ("message", JStr "Invalid event")])].

Definition ready_with_nonce : json :=
  JObj [("cmd", JStr "SUBSCRIBE"); ("evt", JStr "READY");
        ("nonce", JStr "nonce-0"); ("data", JObj [])].

(** A request with the command DISPATCH that runs into its timeout, and
    the error response that arrives afterwards. *)
Definition dispatch_client : World :=
  snd (request Command_Dispatch undefined undefined ready_client).
Definition timed_out_client : World := fire 10 dispatch_client.

Definition late_data : json :=
  JObj [("code", JNum 4002); ("message", JStr "Invalid command")].
Definition late_response : json :=
  JObj [("cmd", JStr "DISPATCH"); ("evt", JStr "ERROR");
        ("nonce", JStr "nonce-0"); ("data", late_data)].

Definition silent_late_response : json :=
  JObj [("cmd", JStr "GET_GUILDS"); ("evt", JNull);
        ("nonce", JStr "nonce-0"); ("data", JObj [("guilds", JArr [])])].



(** Nothing listens on the slots 0 to 2; the first path of slot 3 connects. *)
Definition env_slot3 : Env := {|
  uuid := uuid env0;
  net := fun n => match n with
                  | 12%nat => Connected
                  | _ => Failed "ENOENT" "no such file or directory"
                  end;
  win32 := false;
  XDG_RUNTIME_DIR := XDG_RUNTIME_DIR env0;
  TMPDIR := None;
  TMP := None;
  TEMP := TEMP env0;
  pid := pid env0;
|}.

Definition slot3_client : World :=
  fst (login_begin "app-1"
         (new_Client {| heartbeatInterval_opt := None;
                        connectionTimeout_opt := Some 2500%Z |} env_slot3)).
End Scenario.


(** ** Vocabulary for the statements about whole sessions *)

Section Observations.
Context `{Platform}.

(** The payload survives the platform's JSON and UTF-8 conversions. *)
Definition round_trips (payload : json) : Prop :=
  JSON_parse (utf8_decode (utf8_encode (JSON_stringify payload)))
  = Some payload.

(** [bs] is what [send] writes for the message [msg], and the receiving end
    reads the payload back. *)
Definition encodes (msg : N * json) (bs : Buffer) : Prop :=
  encode msg.1 msg.2 = Ok bs /\ round_trips msg.2.

(** The operation that leads from [w] to [w'] allocates handles at most:
    the timer table, the registry, the heartbeat handle and the [ready]
    listeners are the same. *)
Definition same_timing (w w' : World) : Prop :=
  timers w' = timers w
  /\ pendingRequests w' = pendingRequests w
  /\ heartbeatTimer w' = heartbeatTimer w
  /\ readyOnce w' = readyOnce w
  /\ (next_id w <= next_id w')%nat.

(** The client's references into the timer table are sound: every handle
    in the table has been allocated; the timer of every pending request is
    set, with the callback that rejects that request; the heartbeat handle
    is a set interval; and the timer of every [ready] listener is the
    handshake timer of its promise, or has gone. [listeners] are the
    listeners that [emit('ready')] has taken off the list and not run yet. *)
Definition agree_with (listeners : list (nat * nat)) (w : World) : Prop :=
  (forall t task, timers w !! t = Some task -> (t < next_id w)%nat)
  /\ (forall tok pending,
        (tok, pending) ∈ pendingRequests w ->
        exists cmd,
          timers w !! timer pending
          = Some (RequestTimeout tok cmd (promise pending)))
  /\ (forall t, heartbeatTimer w = Some t -> timers w !! t = Some HeartbeatTick)
  /\ (forall p t,
        (p, t) ∈ listeners ++ readyOnce w ->
        (t < next_id w)%nat
        /\ (timers w !! t = None \/ timers w !! t = Some (HandshakeTimeout p))).

Definition timers_agree : World -> Prop := agree_with [].

(** The effects of [onTransportClose()]. *)
Definition close_effects (w : World) : list Effect :=
  match heartbeatTimer w with
  | Some t => [ClearInterval t]
  | None => []
  end
  ++ flat_map (fun entry =>
                 [ClearTimeout (timer entry.2);
                  Reject (promise entry.2)
                    (ConnectionError "Transport connection closed.")])
       (pendingRequests w)
  ++ (if decide (state w = disconnected) then []
      else [Emit (EvStateChange disconnected);
            Emit (EvDisconnected
                    (Some (JStr "Connection closed unexpectedly.")))]).

(** The buffer holds no complete packet: the header is not complete, or
    the payload it announces is not. *)
Definition awaits_bytes (b : Buffer) : Prop :=
  (length b < HEADER_SIZE)%nat
  \/ exists len,
       readUInt32LE b 4 = Some len
       /\ (length b < HEADER_SIZE + N.to_nat len)%nat.

(** The sockets made by [net.connect], and the sockets destroyed. *)
Definition sockets_opened (effects : list Effect) : list nat :=
  omap (fun e => match e with
                 | NetConnect s _ => Some s
                 | _ => None
                 end) effects.

Definition sockets_destroyed (effects : list Effect) : list nat :=
  omap (fun e => match e with
                 | SocketDestroy s => Some s
                 | _ => None
                 end) effects.

(** How a search for a pipe leaves the sockets: after a success the
    transport holds a live socket, and every other socket opened on the way
    is destroyed; after a failure either nothing was tried, or the
    transport holds no socket and every socket opened is destroyed. In
    both cases the socket held before is destroyed once anything is
    tried, and at most [bound] connections are attempted. *)
Definition search_tidy (bound : nat) (w : World) (r : World * Outcome unit)
  : Prop :=
  exists effs,
    log (fst r) = log w ++ effs
    /\ (length (paths_tried effs) <= bound)%nat
    /\ (forall sk, socket w = Some sk -> effs <> [] ->
          sock_id sk ∈ sockets_destroyed effs)
    /\ match snd r with
       | Ok _ =>
           exists s,
             socket (fst r) = Some {| sock_id := s; destroyed := false |}
             /\ forall s', s' ∈ sockets_opened effs ->
                            s' = s \/ s' ∈ sockets_destroyed effs
       | Throw _ =>
           (effs = [] /\ socket (fst r) = socket w)
           \/ (effs <> [] /\ socket (fst r) = None
               /\ forall s', s' ∈ sockets_opened effs ->
                              s' ∈ sockets_destroyed effs)
       end.

(** The payload [request] hands to [send]. *)
Definition request_frame (cmd : string) (args evt : value) (tok : string)
  : json :=
  object_literal [("cmd", Some (JStr cmd)); ("args", args); ("evt", evt);
                  ("nonce", Some (JStr tok))].

(** What [login] sends once the socket is connected. *)
Definition handshake_payload (id : string) : json :=
  object_literal [("v", Some (JNum IPC_VERSION)); ("client_id", Some (JStr id))].

(** A client in the [ready] state has a heartbeat. *)
Definition beating (w : World) : Prop :=
  state w = ready -> is_Some (heartbeatTimer w).
End Observations.

(** ** More sessions on the reference platform *)

Module Cases.
Import Reference Scenario.
Import PrimFloat.
Local Open Scope string_scope.

(** A READY frame and a Ping in one read, followed by the first twelve
    bytes of an error response. *)
Definition ping_payload : json := JObj [("nonce", JStr "srv-1")].
Definition two_messages : list (N * json) :=
  [(OpCode_Frame, ready_frame); (OpCode_Ping, ping_payload)].
Definition two_packets : list Buffer :=
  [ready_bytes; packet OpCode_Ping ping_payload].
Definition error_bytes : Buffer := packet OpCode_Frame error_response.

(** Windows with no Discord running: every pipe is missing. *)
Definition env_nothing : Env := {|
  uuid := uuid env0;
  net := fun _ => Failed "ENOENT" "no such file or directory";
  win32 := true;
  XDG_RUNTIME_DIR := None;
  TMPDIR := None;
  TMP := None;
  TEMP := None;
  pid := pid env0;
|}.

Definition lonely_client : World :=
  new_Client {| heartbeatInterval_opt := None; connectionTimeout_opt := None |}
    env_nothing.

(** Windows with Discord listening: every connection attempt succeeds. A
    client that has connected there and waits for READY. *)
Definition env_listening : Env := {|
  uuid := uuid env0;
  net := fun _ => Connected;
  win32 := true;
  XDG_RUNTIME_DIR := None;
  TMPDIR := None;
  TMP := None;
  TEMP := None;
  pid := pid env0;
|}.

Definition waiting_client : World :=
  fst (login_resume "app-1"
         (fst (login_begin "app-1"
                 (new_Client {| heartbeatInterval_opt := None;
                                connectionTimeout_opt := None |}
                    env_listening)))).

(** The ready client after its socket has been destroyed under it. *)
Definition broken_client : World := socket_breaks ready_client.

Definition guilds_frame : json :=
  request_frame "GET_GUILDS" undefined undefined "nonce-0".

Definition close_payload : json :=
  JObj [("code", JNum 1000); ("message", JStr "bye")].

(** What [clearActivity()] sends from the ready client. *)
Definition clear_frame : json :=
  request_frame Command_SetActivity
    (Some (JObj [("pid", JNum (pid env0)); ("activity", JNull)]))
    undefined "nonce-0".

(** [String] on numbers, for the chains below: an integer below 10^21,
    [NaN] and the infinities are written as JavaScript writes them; another
    number is written as the quotient it is, not as its shortest decimal. *)
Definition reference_String (x : PresenceBuilder.number) : string :=
  match FloatOps.Prim2SF x with
  | SpecFloat.S754_zero _ => "0"
  | SpecFloat.S754_infinity s => if s then "-Infinity" else "Infinity"
  | SpecFloat.S754_nan => "NaN"
  | SpecFloat.S754_finite s m e =>
      let sign := if s then "-" else "" in
      if (0 <=? e)%Z then sign +:+ pretty (Z.pos m * 2 ^ e)%Z
      else if (Z.pos m mod 2 ^ (- e) =? 0)%Z
           then sign +:+ pretty (Z.pos m / 2 ^ (- e))%Z
           else sign +:+ pretty (Z.pos m) +:+ "/2^" +:+ pretty (- e)%Z
  end.

#[global] Instance number_format : PresenceBuilder.NumberFormat :=
  reference_String.

(** A builder with one button, and a chain whose last call is refused. *)
Definition join_builder : PresenceBuilder.Builder :=
  fst (PresenceBuilder.chain
         [PresenceBuilder.addButton "Join" "https://example.com/join"]
         PresenceBuilder.new_PresenceBuilder).

Definition long_chain : list PresenceBuilder.Method :=
  [PresenceBuilder.setDetails "Playing ranked";
   PresenceBuilder.setType 0;
   PresenceBuilder.setParty "party-123" 2%float 5%float;
   PresenceBuilder.addButton "Join" "https://example.com/join";
   PresenceBuilder.addButton "Watch" "https://example.com/watch";
   PresenceBuilder.addButton "More" "https://example.com/more"].
End Cases.
(** ** Reading fields through updates *)

Ltac wsimpl :=
  cbn [with_state with_clientId with_pendingRequests with_heartbeatTimer
       with_readyOnce with_socket with_buffer with_timers with_next_id
       with_uuid_ctr with_net_ctr with_log perform emit fresh randomUUID
       setTimeout clearTimeout setInterval clearInterval
       state clientId options pendingRequests heartbeatTimer readyOnce socket
       buffer timers next_id uuid_ctr net_ctr log env fst snd].

Tactic Notation "wsimpl" "in" hyp(H) :=
  cbn [with_state with_clientId with_pendingRequests with_heartbeatTimer
       with_readyOnce with_socket with_buffer with_timers with_next_id
       with_uuid_ctr with_net_ctr with_log perform emit fresh randomUUID
       setTimeout clearTimeout setInterval clearInterval
       state clientId options pendingRequests heartbeatTimer readyOnce socket
       buffer timers next_id uuid_ctr net_ctr log env fst snd] in H.

(** ** Byte-level facts *)

Lemma to_N_u8 n : Byte.to_N (u8 n) = n mod 256.
Proof.
  unfold u8. destruct (Byte.of_N (n mod 256)) as [b|] eqn:E.
  - by apply Byte.to_of_N.
  - apply Byte.of_N_None_iff in E.
    pose proof (N.mod_upper_bound n 256). lia.
Qed.

Lemma le32_sum v :
  v < 4294967296 ->
  v mod 256 + 256 * ((v / 256) mod 256) + 65536 * ((v / 65536) mod 256)
    + 16777216 * ((v / 16777216) mod 256) = v.
Proof.
  intros Hv.
  change 65536 with (256 * 256). change 16777216 with (256 * 256 * 256).
  rewrite <- !N.Div0.div_div.
  pose proof (N.div_mod v 256 ltac:(lia)) as E0.
  pose proof (N.div_mod (v / 256) 256 ltac:(lia)) as E1.
  pose proof (N.div_mod (v / 256 / 256) 256 ltac:(lia)) as E2.
  assert (v / 256 / 256 / 256 < 256) as Hhi
    by (do 3 apply N.Div0.div_lt_upper_bound; lia).
  rewrite (N.mod_small (v / 256 / 256 / 256) 256) by lia.
  lia.
Qed.

Lemma read_le32 v : v < 4294967296 -> readUInt32LE (le32 v) 0 = Some v.
Proof.
  intros Hv. unfold readUInt32LE, le32.
  cbv beta iota delta [drop]. rewrite !to_N_u8. f_equal.
  by apply le32_sum.
Qed.

Lemma read_app l k off v :
  readUInt32LE l off = Some v -> readUInt32LE (l ++ k) off = Some v.
Proof.
  unfold readUInt32LE. rewrite drop_app.
  destruct (drop off l) as [|b0 [|b1 [|b2 [|b3 tl]]]]; try discriminate.
  intros E. exact E.
Qed.

Lemma read_shift pre l : readUInt32LE (pre ++ l) (length pre) = readUInt32LE l 0.
Proof. unfold readUInt32LE. by rewrite drop_app_length, drop_0. Qed.

Lemma writeUInt32LE_Some v h :
  writeUInt32LE v = Some h -> h = le32 v /\ v < 4294967296.
Proof.
  unfold writeUInt32LE. destruct (N.ltb_spec v 4294967296); [|discriminate].
  intros [= <-]. done.
Qed.

(** ** The decoder on a recording receiver *)

Section CodecFacts.
Context `{Platform}.

Abbreviation loop := (processBuffer_loop fst rec_setBuffer (Some rec_handler)).

Lemma rec_loop_short fuel (b : Buffer) evs :
  (length b < HEADER_SIZE)%nat -> loop fuel (b, evs) = (b, evs).
Proof.
  intros Hb. destruct fuel as [|fuel]; [done|].
  cbn [processBuffer_loop fst].
  destruct (Nat.ltb_spec (length b) HEADER_SIZE); [done | lia].
Qed.

Lemma rec_loop_incomplete fuel (hdr part : Buffer) op len evs :
  length hdr = HEADER_SIZE ->
  readUInt32LE hdr 0 = Some op ->
  readUInt32LE hdr 4 = Some len ->
  (length part < N.to_nat len)%nat ->
  loop fuel (hdr ++ part, evs) = (hdr ++ part, evs).
Proof.
  intros Hh H0 H4 Hp. destruct fuel as [|fuel]; [done|].
  cbn [processBuffer_loop fst].
  destruct (Nat.ltb_spec (length (hdr ++ part)) HEADER_SIZE); [done|].
  rewrite (read_app _ _ _ _ H0), (read_app _ _ _ _ H4).
  destruct (Nat.ltb_spec (length (hdr ++ part)) (HEADER_SIZE + N.to_nat len));
    [done|].
  rewrite length_app in *. lia.
Qed.

Lemma rec_loop_complete fuel (hdr raw rest : Buffer) op len evs :
  length hdr = HEADER_SIZE ->
  readUInt32LE hdr 0 = Some op ->
  readUInt32LE hdr 4 = Some len ->
  length raw = N.to_nat len ->
  loop (S fuel) (hdr ++ raw ++ rest, evs)
  = loop fuel (rest, match JSON_parse (utf8_decode raw) with
                     | Some payload => evs ++ [(op, payload)]
                     | None => evs
                     end).
Proof.
  intros Hh H0 H4 Hr. cbn [processBuffer_loop fst snd rec_setBuffer].
  destruct (Nat.ltb_spec (length (hdr ++ raw ++ rest)) HEADER_SIZE) as [Hlt|_].
  { rewrite length_app in Hlt. lia. }
  rewrite (read_app _ _ _ _ H0), (read_app _ _ _ _ H4).
  destruct (Nat.ltb_spec (length (hdr ++ raw ++ rest))
              (HEADER_SIZE + N.to_nat len)) as [Hlt|_].
  { rewrite !length_app in Hlt. lia. }
  rewrite <- Hh at 1. rewrite drop_app_length.
  rewrite <- Hr at 1. rewrite take_app_length.
  replace (HEADER_SIZE + N.to_nat len)%nat with (length (hdr ++ raw))
    by (rewrite length_app; lia).
  rewrite app_assoc, drop_app_length.
  by destruct (JSON_parse (utf8_decode raw)).
Qed.

(** The fuel [processBuffer] starts with is never exhausted: any larger
    amount gives the same result. *)
Lemma rec_loop_fuel f1 f2 (r : Recorder) :
  (length (fst r) <= f1)%nat -> (length (fst r) <= f2)%nat ->
  loop f1 r = loop f2 r.
Proof.
  revert f2 r. induction f1 as [|f1 IH]; intros f2 [b evs] H1 H2.
  { cbn [fst] in *. rewrite !rec_loop_short by (unfold HEADER_SIZE; lia).
    done. }
  destruct f2 as [|f2].
  { cbn [fst] in *. rewrite rec_loop_short by (unfold HEADER_SIZE; lia).
    done. }
  cbn [processBuffer_loop fst snd rec_setBuffer] in *.
  destruct (Nat.ltb_spec (length b) HEADER_SIZE) as [|Hge]; [done|].
  destruct (readUInt32LE b 0) as [op|]; [|done].
  destruct (readUInt32LE b 4) as [len|]; [|done].
  destruct (Nat.ltb_spec (length b) (HEADER_SIZE + N.to_nat len)); [done|].
  unfold HEADER_SIZE in *.
  destruct (JSON_parse _); apply IH; cbn [fst rec_handler rec_setBuffer];
    rewrite length_drop; lia.
Qed.

Lemma encode_Ok op payload bs :
  encode op payload = Ok bs ->
  let data := utf8_encode (JSON_stringify payload) in
  let hdr := le32 op ++ le32 (N.of_nat (length data)) in
  bs = hdr ++ data /\ length hdr = HEADER_SIZE
  /\ readUInt32LE hdr 0 = Some op
  /\ readUInt32LE hdr 4 = Some (N.of_nat (length data)).
Proof.
  unfold encode.
  destruct (writeUInt32LE op) as [h0|] eqn:E0; [|discriminate].
  destruct (writeUInt32LE (N.of_nat _)) as [h1|] eqn:E1; [|discriminate].
  apply writeUInt32LE_Some in E0 as [-> Hop].
  apply writeUInt32LE_Some in E1 as [-> Hlen].
  intros [= <-]. cbv zeta. split; [reflexivity|].
  split; [done|]. split.
  - apply read_app. by apply read_le32.
  - change 4%nat with (length (le32 op)). rewrite read_shift.
    by apply read_le32.
Qed.

(** Bytes that end before the message does are left in the buffer. *)
Lemma rec_process_prefix op payload bs (acc : Buffer) evs :
  encode op payload = Ok bs ->
  take (length acc) bs = acc -> (length acc < length bs)%nat ->
  rec_process (acc, evs) = (acc, evs).
Proof.
  intros Henc Hpre Hlt. apply encode_Ok in Henc as (-> & Hh & H0 & H4).
  unfold rec_process, processBuffer. cbn [fst].
  destruct (Nat.lt_ge_cases (length acc) HEADER_SIZE) as [Hs|Hs].
  { by apply rec_loop_short. }
  set (hdr := le32 op ++ _) in *.
  set (data := utf8_encode _) in *.
  assert (acc = hdr ++ take (length acc - HEADER_SIZE) data) as Hacc.
  { rewrite <- Hpre at 1. rewrite take_app, Hh.
    f_equal. apply take_ge. lia. }
  rewrite Hacc at 2 3. rewrite length_app in Hlt.
  apply (rec_loop_incomplete _ _ _ op (N.of_nat (length data))); try done.
  rewrite length_take. lia.
Qed.

Lemma rec_process_whole op payload bs evs :
  encode op payload = Ok bs ->
  JSON_parse (utf8_decode (utf8_encode (JSON_stringify payload)))
  = Some payload ->
  rec_process (bs, evs) = ([], evs ++ [(op, payload)]).
Proof.
  intros Henc Hrt. apply encode_Ok in Henc as (-> & Hh & H0 & H4).
  unfold rec_process, processBuffer. cbn [fst].
  set (hdr := le32 op ++ _) in *.
  set (data := utf8_encode _) in *.
  rewrite length_app, Hh. change (HEADER_SIZE + length data)%nat
    with (S (7 + length data)).
  rewrite <- (app_nil_r data) at 2.
  rewrite (rec_loop_complete _ hdr data [] op (N.of_nat (length data)));
    try done; [|lia].
  rewrite Hrt. by apply rec_loop_short; simpl; unfold HEADER_SIZE; lia.
Qed.

Lemma rec_feed_cons (c : Buffer) cs (r : Recorder) :
  rec_feed (c :: cs) r = rec_feed cs (rec_process (fst r ++ c, snd r)).
Proof. reflexivity. Qed.

Lemma rec_feed_nils (chunks : list Buffer) evs :
  concat chunks = [] -> rec_feed chunks ([], evs) = ([], evs).
Proof.
  induction chunks as [|c cs IH]; [done|].
  intros Hc. apply app_eq_nil in Hc as [-> Hcs].
  rewrite rec_feed_cons. cbn [fst snd app].
  replace (rec_process ([], evs)) with (([], evs) : Recorder) by done.
  by apply IH.
Qed.

Lemma rec_feed_from op payload bs (chunks : list Buffer) (acc : Buffer) :
  encode op payload = Ok bs ->
  JSON_parse (utf8_decode (utf8_encode (JSON_stringify payload)))
  = Some payload ->
  acc ++ concat chunks = bs -> (length acc < length bs)%nat ->
  rec_feed chunks (acc, []) = ([], [(op, payload)]).
Proof.
  intros Henc Hrt. revert acc.
  induction chunks as [|c cs IH]; intros acc Hcat Hlt.
  { simpl in Hcat. rewrite app_nil_r in Hcat. subst. lia. }
  simpl in Hcat. rewrite rec_feed_cons. cbn [fst snd].
  destruct (Nat.lt_ge_cases (length (acc ++ c)) (length bs)) as [Hs|Hs].
  - rewrite (rec_process_prefix op payload bs); try done.
    + apply IH; [by rewrite <- app_assoc | done].
    + rewrite <- Hcat, app_assoc. apply take_app_length.
  - assert (acc ++ c = bs /\ concat cs = []) as [Hfull Hnil].
    { rewrite app_assoc in Hcat.
      assert (length (concat cs) = 0)%nat as Hz.
      { apply (f_equal length) in Hcat. rewrite length_app in Hcat. lia. }
      destruct (concat cs); [|done]. by rewrite app_nil_r in Hcat. }
    rewrite Hfull.
    rewrite (rec_process_whole op payload bs); try done.
    by apply rec_feed_nils.
Qed.

(** C1. Framing round trip and partial-read reassembly: when [send]
    encodes [(op, payload)] into the bytes [bs] and the payload survives
    the platform's JSON and UTF-8 round trip, every way of cutting [bs]
    into chunks (empty chunks included), delivered one at a time to a
    receiver that starts with an empty accumulation buffer, ends with an
    empty buffer and exactly one handler call, with [(op, payload)]. *)
Theorem framing_roundtrip_chunked op payload bs (chunks : list Buffer) :
  encode op payload = Ok bs ->
  JSON_parse (utf8_decode (utf8_encode (JSON_stringify payload)))
  = Some payload ->
  concat chunks = bs ->
  rec_feed chunks ([], []) = ([], [(op, payload)])
  /\ rec_feed [bs] ([], []) = rec_feed chunks ([], []).
Proof.
  intros Henc Hrt Hcat.
  assert (length ([] : Buffer) < length bs)%nat as Hlt.
  { apply encode_Ok in Henc as (-> & Hh & _). rewrite length_app, Hh.
    unfold HEADER_SIZE. simpl. lia. }
  assert (forall cs : list Buffer, concat cs = bs ->
            rec_feed cs ([], []) = ([], [(op, payload)])) as Hall.
  { intros cs Hcs. by apply (rec_feed_from op payload bs). }
  rewrite (Hall chunks Hcat). split; [done|].
  apply Hall. simpl. by rewrite app_nil_r.
Qed.

(** C2. Malformed payload isolation: a buffer that holds a message with a
    full header and a complete payload block that does not parse, followed
    by a well-formed encoded message, is consumed to the end; the handler
    is called once, with the second message, and nothing is raised. *)
Theorem malformed_message_skipped (hdr bad : Buffer) op payload bs evs :
  length hdr = HEADER_SIZE ->
  readUInt32LE hdr 4 = Some (N.of_nat (length bad)) ->
  JSON_parse (utf8_decode bad) = None ->
  encode op payload = Ok bs ->
  JSON_parse (utf8_decode (utf8_encode (JSON_stringify payload)))
  = Some payload ->
  rec_process (hdr ++ bad, evs) = ([], evs)
  /\ rec_process (hdr ++ bad ++ bs, evs) = ([], evs ++ [(op, payload)]).
Proof.
  intros Hh H4 Hbad Henc Hrt.
  assert (exists op1, readUInt32LE hdr 0 = Some op1) as [op1 H0].
  { unfold readUInt32LE. rewrite drop_0.
    destruct hdr as [|b0 [|b1 [|b2 [|b3 tl]]]]; try discriminate. eauto. }
  split.
  - unfold rec_process, processBuffer. cbn [fst].
    rewrite length_app, Hh. change (HEADER_SIZE + length bad)%nat
      with (S (7 + length bad)).
    rewrite <- (app_nil_r bad) at 2.
    rewrite (rec_loop_complete _ hdr bad [] op1 (N.of_nat (length bad)));
      try done; [|lia].
    rewrite Hbad. apply rec_loop_short. unfold HEADER_SIZE. simpl. lia.
  - pose proof (rec_process_whole op payload bs evs Henc Hrt) as Hw.
    unfold rec_process, processBuffer in *. cbn [fst] in *.
    rewrite !length_app, Hh. change (HEADER_SIZE + (length bad + length bs))%nat
      with (S (7 + length bad + length bs)).
    rewrite (rec_loop_complete _ hdr bad bs op1 (N.of_nat (length bad)));
      try done; [|lia].
    rewrite Hbad, <- Hw. apply rec_loop_fuel; cbn [fst]; lia.
Qed.
End CodecFacts.

(** ** Reading fields through updates *)

Lemma with_log_same w : with_log (log w) w = w.
Proof. by destruct w. Qed.

Lemma world_ext w1 w2 :
  state w1 = state w2 -> clientId w1 = clientId w2 -> options w1 = options w2 ->
  pendingRequests w1 = pendingRequests w2 ->
  heartbeatTimer w1 = heartbeatTimer w2 -> readyOnce w1 = readyOnce w2 ->
  socket w1 = socket w2 -> buffer w1 = buffer w2 -> timers w1 = timers w2 ->
  next_id w1 = next_id w2 -> uuid_ctr w1 = uuid_ctr w2 ->
  net_ctr w1 = net_ctr w2 -> log w1 = log w2 -> env w1 = env w2 ->
  w1 = w2.
Proof. destruct w1, w2. cbn. by intros -> -> -> -> -> -> -> -> -> -> -> -> -> ->. Qed.

Ltac world_eq := apply world_ext; wsimpl; rewrite <- ?app_assoc; try done.

(** ** [Map] facts *)

Section JsMapFacts.
Context {V : Type}.
Implicit Types (m : list (string * V)) (k : string).

Lemma Map_get_delete_eq k m : Map_get k (Map_delete k m) = None.
Proof.
  induction m as [|[k' v] m IH]; [done|]. simpl.
  destruct (String.eqb k k') eqn:E; [done|]. simpl. by rewrite E.
Qed.

Lemma Map_get_delete_ne k k' m :
  k <> k' -> Map_get k' (Map_delete k m) = Map_get k' m.
Proof.
  intros Hne. induction m as [|[k0 v] m IH]; [done|]. simpl.
  destruct (String.eqb k k0) eqn:E.
  - apply String.eqb_eq in E as <-.
    by rewrite IH, (proj2 (String.eqb_neq k' k)).
  - simpl. by rewrite IH.
Qed.

Lemma Map_get_set_eq k v m : Map_get k (Map_set k v m) = Some v.
Proof.
  induction m as [|[k' v'] m IH]; simpl.
  - by rewrite String.eqb_refl.
  - destruct (String.eqb k k') eqn:E; simpl; by rewrite E.
Qed.

Lemma Map_get_set_ne k k' v m :
  k <> k' -> Map_get k' (Map_set k v m) = Map_get k' m.
Proof.
  intros Hne. induction m as [|[k0 v0] m IH]; simpl.
  - by rewrite (proj2 (String.eqb_neq k' k)).
  - destruct (String.eqb k k0) eqn:E; simpl; [|by rewrite IH].
    apply String.eqb_eq in E as <-.
    by rewrite (proj2 (String.eqb_neq k' k)).
Qed.

Lemma elem_of_Map_delete k k' v m :
  (k', v) ∈ Map_delete k m -> k' <> k /\ (k', v) ∈ m.
Proof.
  induction m as [|[k0 v0] m IH]; simpl; [by intros ?%elem_of_nil|].
  destruct (String.eqb k k0) eqn:E.
  - intros [? ?]%IH. split; [done|]. by apply list_elem_of_further.
  - intros [[= -> ->]|Hin]%elem_of_cons.
    + apply String.eqb_neq in E. split; [congruence|]. apply list_elem_of_here.
    + destruct (IH Hin). split; [done|]. by apply list_elem_of_further.
Qed.
End JsMapFacts.

(** ** The request correlator *)

Section CorrelatorFacts.
Context `{Platform}.

Lemma truthy_token tok : tok <> "" -> truthy (Some (JStr tok)) = true.
Proof. by destruct tok. Qed.

Lemma route_frame_matched evt tok (data cmd : value) pending w :
  strict_eq_str evt RPCEvent_Ready = false ->
  tok <> "" ->
  Map_get tok (pendingRequests w) = Some pending ->
  (exists members, data = Some (JObj members)) ->
  route_frame evt (Some (JStr tok)) data cmd w
  = (perform
       (if strict_eq_str evt RPCEvent_Error then
          Reject (promise pending)
            (CommandError
               (nullish_or (from_option (frame_member "message") undefined data)
                  (JStr "Command failed"))
               (nullish_or (from_option (frame_member "code") undefined data)
                  (JNum 0)))
        else Resolve (promise pending) data)
       (clearTimeout (timer pending)
          (with_pendingRequests (Map_delete tok (pendingRequests w)) w)),
     Ok tt).
Proof.
  intros Hready Htok Hget [members ->]. unfold route_frame.
  rewrite Hready, (truthy_token tok Htok), andb_false_r.
  cbn [negb pending_get]. rewrite Hget.
  unfold bind, lift, lift_outcome. cbn [pending_delete getprop].
  by destruct (strict_eq_str evt RPCEvent_Error).
Qed.

Lemma onPacket_frame members w :
  onPacket OpCode_Frame (JObj members) w
  = route_frame (lookup_member "evt" members) (lookup_member "nonce" members)
      (lookup_member "data" members) (lookup_member "cmd" members) w.
Proof. reflexivity. Qed.

Lemma is_RPCFrame_inv raw :
  is_RPCFrame raw = true ->
  exists members d, raw = JObj members
                    /\ lookup_member "data" members = Some (JObj d).
Proof.
  unfold is_RPCFrame. destruct raw as [| | | | |members]; try done.
  cbn [frame_member].
  destruct (lookup_member "data" members) as [[]|] eqn:Hd;
    destruct (lookup_member "cmd" members) as [[]|];
    destruct (lookup_member "evt" members) as [[]|];
    destruct (lookup_member "nonce" members) as [[]|];
    try discriminate; eauto.
Qed.

(** C3 (amended). A Frame of the declared shape whose nonce is the token
    of a pending request and whose event is not READY removes that entry,
    cancels its timeout and settles the request: rejected with a
    [CommandError] carrying the server's message and code when the event is
    the error marker, resolved with the frame's data otherwise. Nothing is
    emitted, and the entries under different tokens stay as they were. *)
Theorem matched_response_settles_request w tok pending raw :
  Map_get tok (pendingRequests w) = Some pending ->
  tok <> "" ->
  is_RPCFrame raw = true ->
  frame_member "nonce" raw = Some (JStr tok) ->
  strict_eq_str (frame_member "evt" raw) RPCEvent_Ready = false ->
  snd (onPacket OpCode_Frame raw w) = Ok tt
  /\ response_matched w tok pending raw (fst (onPacket OpCode_Frame raw w)).
Proof.
  intros Hget Htok Hframe Hnonce Hevt.
  destruct (is_RPCFrame_inv raw Hframe) as (members & d & -> & Hdata).
  cbn [frame_member] in *.
  rewrite onPacket_frame, Hnonce.
  rewrite (route_frame_matched _ tok _ _ pending w Hevt Htok Hget)
    by (rewrite Hdata; eauto).
  split; [done|]. cbn [fst]. unfold response_matched.
  repeat split.
  - apply Map_get_delete_eq.
  - intros tok' Hne. by apply Map_get_delete_ne.
  - cbn. unfold response_settlement. cbn [frame_member].
    by rewrite <- app_assoc.
Qed.

Lemma route_frame_unmatched evt tok (data cmd : value) w :
  strict_eq_str evt RPCEvent_Ready = false ->
  tok <> "" ->
  Map_get tok (pendingRequests w) = None ->
  route_frame evt (Some (JStr tok)) data cmd w
  = (if strict_eq_str cmd Command_Dispatch && truthy evt
     then emit (EvRpcEvent evt data) w else w, Ok tt).
Proof.
  intros Hready Htok Hget. unfold route_frame.
  rewrite Hready, (truthy_token tok Htok), andb_false_r.
  cbn [negb pending_get]. rewrite Hget.
  by destruct (strict_eq_str cmd Command_Dispatch && truthy evt).
Qed.

Lemma send_world op payload w :
  exists effs,
    fst (send op payload w) = with_log (log w ++ effs) w
    /\ timeouts_set effs = [] /\ stateChanges effs = [].
Proof.
  unfold send.
  destruct (socket w) as [s|];
    [|exists []; by rewrite app_nil_r, with_log_same].
  destruct (destroyed s); [exists []; by rewrite app_nil_r, with_log_same|].
  destruct (encode op payload) as [packet|e]; cbn [fst].
  - by exists [SocketWrite (sock_id s) packet].
  - exists []. by rewrite app_nil_r, with_log_same.
Qed.

(** What [request] does in the [ready] state. *)
Lemma request_ready cmd args evt w :
  state w = ready ->
  let tok := uuid (env w) (uuid_ctr w) in
  let p := next_id w in
  let t := S (next_id w) in
  exists effs,
    request cmd args evt w
    = (p, with_log (log w ++ SetTimeout t (connectionTimeout (options w)) :: effs)
            (with_pendingRequests
               (Map_set tok {| promise := p; timer := t |} (pendingRequests w))
               (with_timers (<[t := RequestTimeout tok cmd p]> (timers w))
                  (with_next_id (S t) (with_uuid_ctr (S (uuid_ctr w)) w)))))
    /\ timeouts_set effs = [] /\ stateChanges effs = [].
Proof.
  intros Hstate tok p t. unfold request.
  destruct (decide (state w = ready)) as [_|]; [|done].
  cbn [randomUUID fresh setTimeout].
  match goal with
  | |- context [send ?op ?payload ?w4] =>
      destruct (send_world op payload w4) as (effs & Hw & Ht & Hs);
      destruct (send op payload w4) as [w5 [[]|e]]
  end; cbn [fst] in Hw; subst w5.
  - exists effs. split; [|done]. f_equal. world_eq.
  - exists (effs ++ [Reject p e]). split.
    + f_equal. world_eq.
    + unfold timeouts_set, stateChanges in *.
      rewrite !omap_app, Ht, Hs. done.
Qed.

(** C4 (amended). A request issued in the [ready] state is registered
    under a fresh token together with a timeout. When that timeout fires
    while it is still set, the entry leaves the registry and the request is
    rejected with a [TimeoutError], and nothing else happens. A Frame of the
    declared shape carrying that token which arrives while the token is
    absent from the registry settles nothing and changes nothing, except
    that a frame whose command is DISPATCH and whose event is set is emitted
    as an [rpcEvent]; frames whose event is READY are left out. *)
Theorem timeout_rejects_then_late_frame cmd args evt w raw :
  state w = ready ->
  uuid (env w) (uuid_ctr w) <> "" ->
  is_RPCFrame raw = true ->
  frame_member "nonce" raw = Some (JStr (uuid (env w) (uuid_ctr w))) ->
  strict_eq_str (frame_member "evt" raw) RPCEvent_Ready = false ->
  timeout_then_late_frame cmd args evt w raw.
Proof.
  unfold timeout_then_late_frame. set (tok := uuid (env w) (uuid_ctr w)).
  intros Hstate Htok Hframe Hnonce Hevt.
  destruct (request_ready cmd args evt w Hstate) as (effs & -> & _).
  fold tok. exists (S (next_id w)). wsimpl.
  split; [apply Map_get_set_eq|].
  split; [apply lookup_insert_eq|].
  intros w2 Hin. unfold fire. rewrite Hin. wsimpl.
  split; [apply Map_get_delete_eq|].
  split; [intros tok' Hne; by apply Map_get_delete_ne|].
  split; [done|].
  split; [unfold effects_since; wsimpl; by rewrite drop_app_length|].
  intros w4 Hnone.
  destruct (is_RPCFrame_inv raw Hframe) as (members & d & -> & Hdata).
  cbn [frame_member] in *.
  rewrite onPacket_frame, Hnonce.
  by apply route_frame_unmatched.
Qed.

(** C6. In every state other than [ready], [request] returns a promise
    that is rejected at once with a [StateError]; that rejection is the
    only effect: nothing is written to the socket and the registry, the
    timers and the transport are left as they were. *)
Theorem request_not_ready_rejects cmd args evt w :
  state w <> ready ->
  let (p, w') := request cmd args evt w in
  effects_since w w'
  = [Reject p (StateError "Client is not ready. Call login() first.")]
  /\ pendingRequests w' = pendingRequests w
  /\ timers w' = timers w
  /\ socket w' = socket w
  /\ state w' = state w.
Proof.
  intros Hstate. unfold request.
  destruct (decide (state w = ready)) as [|_]; [done|].
  cbn. unfold effects_since. cbn. by rewrite drop_app_length.
Qed.
End CorrelatorFacts.

(** ** Teardown *)

Section TeardownFacts.
Context `{Platform}.

Lemma state_setState s w : state (setState s w) = s.
Proof. unfold setState. by destruct (decide (state w = s)). Qed.

Lemma rejectAll_loop_spec entries reason w :
  let w' := rejectAll_loop entries reason w in
  log w' = log w
           ++ flat_map (fun entry =>
                          [ClearTimeout (timer entry.2);
                           Reject (promise entry.2) (ConnectionError reason)])
                entries
  /\ timers w' = foldl (fun tm entry => delete (timer entry.2) tm) (timers w)
                   entries
  /\ pendingRequests w'
     = foldl (fun m entry => Map_delete entry.1 m) (pendingRequests w) entries
  /\ state w' = state w /\ heartbeatTimer w' = heartbeatTimer w
  /\ socket w' = socket w /\ buffer w' = buffer w.
Proof.
  revert w. induction entries as [|[nonce pending] rest IH]; intros w.
  { cbn. by rewrite app_nil_r. }
  cbn [rejectAll_loop]. cbv zeta.
  destruct (IH (with_pendingRequests
                  (Map_delete nonce
                     (pendingRequests
                        (perform (Reject (promise pending)
                                    (ConnectionError reason))
                           (clearTimeout (timer pending) w))))
                  (perform (Reject (promise pending) (ConnectionError reason))
                     (clearTimeout (timer pending) w))))
    as (Hlog & Htm & Hpend & Hst & Hhb & Hsock & Hbuf).
  cbv zeta in *. rewrite Hlog, Htm, Hpend, Hst, Hhb, Hsock, Hbuf.
  wsimpl. cbn [flat_map foldl fst snd]. by rewrite <- !app_assoc.
Qed.

Lemma Map_delete_covered {V} (l m : list (string * V)) :
  (forall k v, (k, v) ∈ m -> k ∈ l.*1) ->
  foldl (fun acc entry => Map_delete entry.1 acc) m l = [].
Proof.
  revert m. induction l as [|[k v] l IH]; intros m Hcov.
  - destruct m as [|[k v] m]; [done|].
    specialize (Hcov k v (list_elem_of_here _ _)). by apply elem_of_nil in Hcov.
  - cbn [foldl fst]. apply IH. intros k' v' Hin.
    apply elem_of_Map_delete in Hin as [Hne Hin].
    specialize (Hcov k' v' Hin). cbn in Hcov.
    apply elem_of_cons in Hcov as [->|]; done.
Qed.

Lemma foldl_delete_None (entries : list (string * PendingRequest))
    (tm : gmap nat TimerTask) t :
  tm !! t = None ->
  foldl (fun tm entry => delete (timer entry.2) tm) tm entries !! t = None.
Proof.
  revert tm. induction entries as [|e rest IH]; intros tm Hnone; [done|].
  cbn [foldl]. apply IH. rewrite lookup_delete. by case_decide.
Qed.

Lemma foldl_delete_elem (entries : list (string * PendingRequest))
    (tm : gmap nat TimerTask) tok pending :
  (tok, pending) ∈ entries ->
  foldl (fun tm entry => delete (timer entry.2) tm) tm entries
  !! timer pending = None.
Proof.
  revert tm. induction entries as [|e rest IH]; intros tm Hin.
  { by apply elem_of_nil in Hin. }
  cbn [foldl]. apply elem_of_cons in Hin as [<-|Hin]; [|by apply IH].
  apply foldl_delete_None. cbn. apply lookup_delete_eq.
Qed.

(** What the last four statements of [destroy()] do, in any world. *)
Lemma destroy_finish_spec w :
  let w' := destroy_finish w in
  heartbeatTimer w' = None
  /\ pendingRequests w' = []
  /\ socket w' = None /\ buffer w' = []
  /\ state w' = disconnected
  /\ log w' = log w ++ teardown_effects w
  /\ (forall t, heartbeatTimer w = Some t -> timers w' !! t = None)
  /\ (forall tok pending,
        (tok, pending) ∈ pendingRequests w -> timers w' !! timer pending = None).
Proof.
  cbv zeta. unfold destroy_finish, rejectAllPending.
  set (w1 := stopHeartbeat w).
  assert (pendingRequests w1 = pendingRequests w /\ socket w1 = socket w
          /\ state w1 = state w /\ heartbeatTimer w1 = None
          /\ log w1 = log w ++ match heartbeatTimer w with
                               | Some t => [ClearInterval t]
                               | None => []
                               end
          /\ (forall t, heartbeatTimer w = Some t -> timers w1 !! t = None)
          /\ (forall t, timers w !! t = None -> timers w1 !! t = None))
    as (Hp1 & Hs1 & Hst1 & Hhb1 & Hlog1 & Htm1 & Htm1').
  { subst w1. unfold stopHeartbeat.
    destruct (heartbeatTimer w) as [t|] eqn:Ehb; wsimpl.
    - repeat split; try done.
      + intros ? [= <-]. apply lookup_delete_eq.
      + intros t' Hn. rewrite lookup_delete. by case_decide.
    - rewrite app_nil_r. repeat split; try done. }
  destruct (rejectAll_loop_spec (pendingRequests w1) "Client destroyed." w1)
    as (Hlog2 & Htm2 & Hpend2 & Hst2 & Hhb2 & Hsock2 & Hbuf2).
  set (w2 := rejectAll_loop (pendingRequests w1) "Client destroyed." w1) in *.
  cbv zeta in *.
  assert (pendingRequests w2 = []) as Hempty.
  { rewrite Hpend2. apply Map_delete_covered. intros k v Hin.
    apply list_elem_of_fmap. by exists (k, v). }
  set (w3 := transport_destroy w2).
  assert (pendingRequests w3 = [] /\ socket w3 = None /\ buffer w3 = []
          /\ state w3 = state w /\ heartbeatTimer w3 = None
          /\ timers w3 = timers w2
          /\ log w3 = log w2
                      ++ match socket w with
                         | Some s => [SocketRemoveAllListeners (sock_id s);
                                      SocketDestroy (sock_id s)]
                         | None => []
                         end)
    as (Hp3 & Hs3 & Hb3 & Hst3 & Hhb3 & Htm3 & Hlog3).
  { subst w3. unfold transport_destroy, drop_socket. rewrite Hsock2, Hs1.
    destruct (socket w) as [s|] eqn:Es; wsimpl;
      rewrite ?Hempty, ?Hst2, ?Hst1, ?Hhb2, ?Hhb1, ?Hsock2, ?Hs1, ?Es,
        <- ?app_assoc, ?app_nil_r; done. }
  assert (forall t, timers w3 !! t = None ->
                    timers (setState disconnected w3) !! t = None) as Htm4.
  { intros t. unfold setState. by destruct (decide _). }
  split. { unfold setState. by destruct (decide _). }
  split. { unfold setState. by destruct (decide _). }
  split. { unfold setState. by destruct (decide _). }
  split. { unfold setState. by destruct (decide _). }
  split. { apply state_setState. }
  split.
  { unfold teardown_effects, setState. rewrite Hst3.
    destruct (decide (state w = disconnected)); wsimpl;
      rewrite Hlog3, Hlog2, Hlog1, Hp1, <- ?app_assoc, ?app_nil_r; done. }
  split.
  - intros t Ht. apply Htm4. rewrite Htm3, Htm2.
    apply foldl_delete_None. by apply Htm1.
  - intros tok pending Hin. apply Htm4. rewrite Htm3, Htm2, Hp1.
    by apply (foldl_delete_elem _ _ tok).
Qed.



End TeardownFacts.

(** ** Pipe discovery *)

Section ConnectFacts.
Context `{Platform}.

Lemma after_from_S timeout i k w :
  after_from timeout i (S k) w
  = after_from timeout (S i) k (fst (tryConnect i timeout w)).
Proof. reflexivity. Qed.

Lemma after_from_snoc timeout i k w :
  after_from timeout i (S k) w
  = fst (tryConnect (i + k) timeout (after_from timeout i k w)).
Proof.
  unfold after_from. by rewrite seq_S, foldl_app.
Qed.

Lemma connect_scan_success timeout k :
  forall todo i w,
    (k < todo)%nat ->
    (forall j, (j < k)%nat ->
       exists e, snd (tryConnect (i + j) timeout (after_from timeout i j w))
                 = Throw e) ->
    snd (tryConnect (i + k) timeout (after_from timeout i k w)) = Ok tt ->
    connect_scan timeout todo i w = (after_from timeout i (S k) w, Ok tt).
Proof.
  induction k as [|k IH]; intros todo i w Hlt Hfail Hok;
    (destruct todo as [|todo]; [lia|]); cbn [connect_scan].
  - rewrite Nat.add_0_r in Hok. cbn in Hok. unfold after_from. cbn.
    destruct (tryConnect i timeout w) as [w' [[]|e]]; cbn in *; done.
  - destruct (Hfail 0%nat ltac:(lia)) as [e He].
    rewrite Nat.add_0_r in He. cbn in He.
    rewrite after_from_S.
    destruct (tryConnect i timeout w) as [w' [[]|e']] eqn:Etry;
      cbn in He; [done|]. cbn [fst].
    apply IH; [lia| |].
    + intros j Hj. specialize (Hfail (S j) ltac:(lia)).
      rewrite after_from_S, Etry in Hfail. cbn [fst] in Hfail.
      by replace (S i + j)%nat with (i + S j)%nat by lia.
    + rewrite after_from_S, Etry in Hok. cbn [fst] in Hok.
      by replace (S i + k)%nat with (i + S k)%nat by lia.
Qed.

Lemma connect_scan_failure timeout todo :
  forall i w,
    (forall j, (j < todo)%nat ->
       exists e, snd (tryConnect (i + j) timeout (after_from timeout i j w))
                 = Throw e) ->
    connect_scan timeout todo i w
    = (after_from timeout i todo w,
       Throw (ConnectionError
                ("Could not connect to Discord. No running instance found (scanned "
                 +:+ pretty (MAX_PIPE_INDEX + 1)%nat +:+ " pipes)."))).
Proof.
  induction todo as [|todo IH]; intros i w Hfail; [done|].
  cbn [connect_scan].
  destruct (Hfail 0%nat ltac:(lia)) as [e He].
  rewrite Nat.add_0_r in He. cbn in He.
  rewrite after_from_S.
  destruct (tryConnect i timeout w) as [w' [[]|e']] eqn:Etry;
    cbn in He; [done|]. cbn [fst].
  apply IH. intros j Hj. specialize (Hfail (S j) ltac:(lia)).
  rewrite after_from_S, Etry in Hfail. cbn [fst] in Hfail.
  by replace (S i + j)%nat with (i + S j)%nat by lia.
Qed.

Lemma scanned_message :
  "Could not connect to Discord. No running instance found (scanned "
  +:+ pretty 10%nat +:+ " pipes)."
  = "Could not connect to Discord. No running instance found (scanned 10 pipes).".
Proof. vm_compute. reflexivity. Qed.

(** C7. With a slot index, [connect] is the attempt on that slot alone.
    Without one it goes through the slots 0, 1, ... in ascending order: if
    slot [k <= 9] is the first that connects, the result is success in the
    world left by the attempts on slots 0 to [k] and nothing more; if all
    of slots 0 to 9 fail, it is the world left by those ten attempts and a
    [ConnectionError] that says 10 pipes were scanned. *)
Theorem connect_scans_slots_in_order timeout w :
  (forall index, connect (Some index) timeout w = tryConnect index timeout w)
  /\ (forall k,
        (k <= MAX_PIPE_INDEX)%nat ->
        (forall i, (i < k)%nat -> slot_fails timeout i w) ->
        snd (tryConnect k timeout (after_slots timeout k w)) = Ok tt ->
        connect None timeout w = (after_slots timeout (S k) w, Ok tt))
  /\ ((forall i, (i <= MAX_PIPE_INDEX)%nat -> slot_fails timeout i w) ->
      connect None timeout w
      = (after_slots timeout 10 w,
         Throw (ConnectionError
                  "Could not connect to Discord. No running instance found (scanned 10 pipes)."))).
Proof.
  split; [done|]. split.
  - intros k Hk Hfail Hok. unfold connect, after_slots, slot_fails in *.
    apply (connect_scan_success timeout k).
    + unfold MAX_PIPE_INDEX in *. lia.
    + exact Hfail.
    + exact Hok.
  - intros Hfail. unfold connect.
    change (MAX_PIPE_INDEX + 1)%nat with 10%nat.
    rewrite (connect_scan_failure timeout 10 0 w).
    + change (MAX_PIPE_INDEX + 1)%nat with 10%nat.
      unfold after_slots. rewrite scanned_message. reflexivity.
    + intros j Hj. apply (Hfail j). unfold MAX_PIPE_INDEX in *. lia.
Qed.

Lemma quiet_refl ms w : quiet ms w w.
Proof. exists []. by rewrite app_nil_r. Qed.

Lemma quiet_trans ms w1 w2 w3 : quiet ms w1 w2 -> quiet ms w2 w3 -> quiet ms w1 w3.
Proof.
  intros (e1 & L1 & T1 & S1 & ? & ? & ?) (e2 & L2 & T2 & S2 & ? & ? & ?).
  exists (e1 ++ e2). rewrite L2, L1, <- app_assoc.
  unfold timeouts_set, stateChanges in *. rewrite !omap_app, S1, S2.
  repeat split; try congruence. by apply Forall_app.
Qed.

Lemma drop_socket_fields w :
  env (drop_socket w) = env w /\ net_ctr (drop_socket w) = net_ctr w
  /\ next_id (drop_socket w) = next_id w
  /\ socket (drop_socket w) = None /\ state (drop_socket w) = state w
  /\ options (drop_socket w) = options w.
Proof.
  unfold drop_socket. destruct (socket w) as [s|] eqn:E; wsimpl; done.
Qed.

Lemma quiet_drop_socket ms w : quiet ms w (drop_socket w).
Proof.
  unfold drop_socket. destruct (socket w) as [s|]; [|apply quiet_refl].
  exists [SocketRemoveAllListeners (sock_id s); SocketDestroy (sock_id s)].
  wsimpl. rewrite <- app_assoc. repeat split; done.
Qed.

(** One attempt: the world in which the answer of the environment is
    looked at, the new socket and the timer. *)
Lemma tryPath_step index timeout path rest w :
  path <> "" ->
  exists w4 s t,
    log w4 = log (drop_socket w) ++ [NetConnect s path; SetTimeout t timeout]
    /\ env w4 = env w /\ net_ctr w4 = S (net_ctr w) /\ socket w4 = None
    /\ state w4 = state w /\ options w4 = options w
    /\ tryPath index timeout (path :: rest) w
       = match net (env w) (net_ctr w) with
         | TimedOut =>
             (perform (SocketDestroy s) w4,
              Throw (ConnectionError ("Connection timed out after "
                                      +:+ pretty timeout +:+ "ms.")))
         | Connected =>
             (with_socket (Some {| sock_id := s; destroyed := false |})
                (perform (ClearTimeout t) w4), Ok tt)
         | Failed code message =>
             let w5 := perform (SocketDestroy s) (perform (ClearTimeout t) w4) in
             if String.eqb code "ENOENT" || String.eqb code "ECONNREFUSED"
             then tryPath index timeout rest w5
             else (w5, Throw (ConnectionError ("IPC connection error: "
                                               +:+ message)))
         end.
Proof.
  intros Hpath. cbn [tryPath].
  rewrite (proj2 (String.eqb_neq path "") Hpath).
  unfold net_connect.
  destruct (drop_socket_fields w) as (He & Hn & Hid & Hs & Hst & Ho).
  set (w1 := drop_socket w) in *. wsimpl. rewrite He, Hn.
  eexists _, _, _. split; [|split; [|split; [|split; [|split; [|split]]]]];
    [| | | | | |reflexivity]; wsimpl; try done.
  by rewrite <- app_assoc.
Qed.

Lemma tryPath_quiet index timeout remaining :
  forall w, quiet timeout w (fst (tryPath index timeout remaining w)).
Proof.
  induction remaining as [|path rest IH]; intros w; [apply quiet_refl|].
  destruct (decide (path = "")) as [->|Hpath]; [apply quiet_refl|].
  destruct (tryPath_step index timeout path rest w Hpath)
    as (w4 & s & t & Hlog & He & Hn & Hs & Hst & Ho & ->).
  assert (quiet timeout w w4) as Hq4.
  { apply (quiet_trans _ _ (drop_socket w)); [apply quiet_drop_socket|].
    exists [NetConnect s path; SetTimeout t timeout].
    destruct (drop_socket_fields w) as (-> & _ & _ & _ & -> & ->).
    repeat split; try done. cbn. by constructor. }
  destruct (net (env w) (net_ctr w)) as [|code message|]; cbn [fst].
  - apply (quiet_trans _ _ w4); [done|].
    exists [ClearTimeout t]. wsimpl. repeat split; done.
  - cbv zeta.
    assert (quiet timeout w4
              (perform (SocketDestroy s) (perform (ClearTimeout t) w4))) as Hq5.
    { exists [ClearTimeout t; SocketDestroy s]. wsimpl.
      rewrite <- app_assoc. repeat split; done. }
    destruct (String.eqb code "ENOENT" || String.eqb code "ECONNREFUSED").
    + eapply quiet_trans; [|apply IH]. by eapply quiet_trans.
    + by eapply quiet_trans.
  - apply (quiet_trans _ _ w4); [done|].
    exists [SocketDestroy s]. wsimpl. repeat split; done.
Qed.

Lemma connect_scan_quiet timeout todo :
  forall i w, quiet timeout w (fst (connect_scan timeout todo i w)).
Proof.
  induction todo as [|todo IH]; intros i w; [apply quiet_refl|].
  cbn [connect_scan]. pose proof (tryPath_quiet i timeout
                                    (getPipePaths (env w) i) w) as Hq.
  unfold tryConnect.
  destruct (tryPath i timeout (getPipePaths (env w) i) w) as [w' [[]|e]];
    cbn [fst] in *; [done|].
  eapply quiet_trans; [exact Hq|apply IH].
Qed.

Lemma connect_quiet pipeIndex timeout w :
  quiet timeout w (fst (connect pipeIndex timeout w)).
Proof.
  destruct pipeIndex as [index|]; [apply tryPath_quiet|apply connect_scan_quiet].
Qed.

Lemma paths_tried_app e1 e2 :
  paths_tried (e1 ++ e2) = paths_tried e1 ++ paths_tried e2.
Proof. apply omap_app. Qed.

Lemma paths_tried_drop_socket w :
  exists effs, log (drop_socket w) = log w ++ effs /\ paths_tried effs = [].
Proof.
  unfold drop_socket. destruct (socket w) as [s|].
  - eexists. wsimpl. rewrite <- app_assoc. split; [reflexivity|done].
  - exists []. by rewrite app_nil_r.
Qed.


(** Every path ends with ENOENT or ECONNREFUSED. *)
Lemma tryPath_exhausted index timeout remaining :
  forall w,
    Forall (fun p => p <> "") remaining ->
    (forall m, (m < length remaining)%nat ->
       retryable (net (env w) (net_ctr w + m)) = true) ->
    let r := tryPath index timeout remaining w in
    exists effs,
      log (fst r) = log w ++ effs
      /\ paths_tried effs = remaining
      /\ snd r = Throw (no_pipe_found index).
Proof.
  induction remaining as [|path rest IH]; intros w Hne Hretry.
  { exists []. by rewrite app_nil_r. }
  apply Forall_cons in Hne as [Hpath Hne].
  destruct (tryPath_step index timeout path rest w Hpath)
    as (w4 & s & t & Hlog & He & Hn & Hs & Hst & Ho & Heq).
  destruct (paths_tried_drop_socket w) as (e0 & Hlog0 & Hp0).
  cbv zeta. rewrite Heq. clear Heq.
  pose proof (Hretry 0%nat ltac:(cbn; lia)) as H0. rewrite Nat.add_0_r in H0.
  destruct (net (env w) (net_ctr w)) as [|code message|]; try discriminate.
  cbn in H0. rewrite H0. cbv zeta.
  set (w5 := perform (SocketDestroy s) (perform (ClearTimeout t) w4)).
  assert (env w5 = env w /\ net_ctr w5 = S (net_ctr w)) as [He5 Hn5]
    by (subst w5; wsimpl; done).
  destruct (IH w5 Hne) as (effs & Hlog5 & Hpaths & Hres).
  { intros m Hm. rewrite He5, Hn5.
    replace (S (net_ctr w) + m)%nat with (net_ctr w + S m)%nat by lia.
    apply Hretry. cbn. lia. }
  exists (e0 ++ [NetConnect s path; SetTimeout t timeout; ClearTimeout t;
                 SocketDestroy s] ++ effs).
  split.
  { rewrite Hlog5. subst w5. wsimpl. rewrite Hlog, Hlog0.
    by rewrite <- !app_assoc. }
  split; [|done].
  rewrite !paths_tried_app, Hp0, Hpaths. done.
Qed.

End ConnectFacts.

(** ** The state setter and the runs of a client *)

Section StateFacts.
Context `{Platform}.
Variable opts : Options.

Lemma no_repeat_snoc l a s :
  no_repeat (a :: l) -> last (a :: l) <> Some s -> no_repeat (a :: l ++ [s]).
Proof.
  revert a. induction l as [|b l IH]; intros a Hnr Hlast.
  - cbn in *. split; [|done]. congruence.
  - destruct Hnr as [Hab Hnr]. split; [done|]. apply IH; [done|].
    by rewrite last_cons_cons in Hlast.
Qed.

Lemma no_repeat_tail a l : no_repeat (a :: l) -> no_repeat l.
Proof. destruct l as [|b l]; [done|]. by intros [_ ?]. Qed.

Lemma stateChanges_app e1 e2 :
  stateChanges (e1 ++ e2) = stateChanges e1 ++ stateChanges e2.
Proof. apply omap_app. Qed.

Lemma tracks_perform e w :
  stateChanges [e] = [] -> tracks opts w -> tracks opts (perform e w).
Proof.
  intros He (Ho & Hl & Hn). unfold tracks. wsimpl.
  by rewrite stateChanges_app, He, app_nil_r.
Qed.

Lemma tracks_setState s w : tracks opts w -> tracks opts (setState s w).
Proof.
  intros (Ho & Hl & Hn). unfold setState.
  destruct (decide (state w = s)) as [|Hne]; [done|].
  unfold tracks. wsimpl. rewrite stateChanges_app.
  change (stateChanges [Emit (EvStateChange s)]) with [s].
  split; [done|]. split.
  - change (disconnected :: stateChanges (log w) ++ [s])
      with ((disconnected :: stateChanges (log w)) ++ [s]).
    by rewrite last_snoc.
  - apply no_repeat_snoc; [done|]. rewrite Hl. congruence.
Qed.

#[global] Instance tracks_stable : Stable (tracks opts).
Proof.
  split; try done.
  - apply tracks_perform.
  - apply tracks_setState.
Qed.

Lemma tracks_grow chunk w :
  tracks opts w -> tracks opts (with_buffer (buffer w ++ chunk) w).
Proof. done. Qed.

#[global] Instance buffer_within_stable n : Stable (buffer_within n).
Proof.
  split; try done.
  - intros x w Hx Hw. unfold buffer_within in *. cbn. lia.
  - intros s w Hw. unfold buffer_within, setState in *.
    by destruct (decide (state w = s)).
Qed.
End StateFacts.

Ltac stable_tac :=
  repeat first
    [ assumption
    | apply stable_clientId | apply stable_pendingRequests
    | apply stable_heartbeatTimer | apply stable_readyOnce
    | apply stable_socket | apply stable_timers | apply stable_next_id
    | apply stable_uuid_ctr | apply stable_net_ctr
    | apply stable_setState
    | apply stable_perform; [reflexivity|]
    | apply stable_buffer; [cbn; lia|] ].

Ltac stable_unfold :=
  unfold emit, randomUUID, setTimeout, clearTimeout, setInterval,
    clearInterval; unfold fresh; cbn [fst snd].

(** Every operation of the client keeps a stable property. *)

Section RunFacts.
Context `{Platform}.
Context (P : World -> Prop) `{!Stable P}.

Lemma stable_send op payload w :
  P w -> P (fst (send op payload w)).
Proof. intros. unfold send. repeat case_match; cbn [fst]; stable_tac. Qed.

Lemma stable_drop_socket w : P w -> P (drop_socket w).
Proof. intros. unfold drop_socket. case_match; stable_tac. Qed.

Lemma stable_transport_destroy w :
  P w -> P (transport_destroy w).
Proof.
  intros. unfold transport_destroy.
  apply stable_buffer; [cbn; lia|]. by apply stable_drop_socket.
Qed.

Lemma stable_tryPath index timeout remaining :
  forall w, P w -> P (fst (tryPath index timeout remaining w)).
Proof.
  induction remaining as [|path rest IH]; intros w Hw; [done|].
  cbn [tryPath]. destruct (String.eqb path ""); [done|].
  unfold net_connect. stable_unfold.
  assert (P (drop_socket w)) as Hw1 by by apply stable_drop_socket.
  case_match; cbn [fst]; [stable_tac| |stable_tac].
  case_match; [apply IH|cbn [fst]]; stable_tac.
Qed.

Lemma stable_connect_scan timeout todo :
  forall i w, P w -> P (fst (connect_scan timeout todo i w)).
Proof.
  induction todo as [|todo IH]; intros i w Hw; [done|].
  cbn [connect_scan]. unfold tryConnect.
  pose proof (stable_tryPath i timeout (getPipePaths (env w) i) w Hw) as Hw'.
  destruct (tryPath i timeout (getPipePaths (env w) i) w) as [w' [[]|e]];
    cbn [fst] in *; [done|]. by apply IH.
Qed.

Lemma stable_connect pipeIndex timeout w :
  P w -> P (fst (connect pipeIndex timeout w)).
Proof.
  destruct pipeIndex as [index|];
    [apply stable_tryPath|apply stable_connect_scan].
Qed.

Lemma stable_stopHeartbeat w : P w -> P (stopHeartbeat w).
Proof. intros. unfold stopHeartbeat. case_match; stable_unfold; stable_tac. Qed.

Lemma stable_startHeartbeat w : P w -> P (startHeartbeat w).
Proof.
  intros. unfold startHeartbeat. stable_unfold. stable_tac.
  by apply stable_stopHeartbeat.
Qed.

Lemma stable_rejectAll_loop entries reason :
  forall w, P w -> P (rejectAll_loop entries reason w).
Proof.
  induction entries as [|[nonce pending] rest IH]; intros w Hw; [done|].
  cbn [rejectAll_loop]. apply IH. stable_unfold. stable_tac.
Qed.

Lemma stable_request cmd args evt w :
  P w -> P (snd (request cmd args evt w)).
Proof.
  intros Hw. unfold request.
  destruct (decide (state w = ready)); stable_unfold; [|stable_tac].
  match goal with
  | |- context [send ?op ?p ?w4] =>
      pose proof (stable_send op p w4) as Hs;
      destruct (send op p w4) as [w5 [[]|err]]
  end; cbn [fst snd] in *; stable_tac; apply Hs; stable_tac.
Qed.

Lemma stable_ping w : P w -> P (fst (ping w)).
Proof.
  intros Hw. unfold ping. case_match; [|done]. stable_unfold.
  apply stable_send. stable_tac.
Qed.

Lemma stable_destroy_finish w : P w -> P (destroy_finish w).
Proof.
  intros Hw. unfold destroy_finish, rejectAllPending.
  apply stable_setState, stable_transport_destroy, stable_rejectAll_loop.
  by apply stable_stopHeartbeat.
Qed.

Lemma stable_destroy_call w : P w -> P (destroy_call w).
Proof.
  intros Hw. unfold destroy_call, destroy_begin, clearActivity.
  destruct (decide (state w = ready)).
  - pose proof (stable_request Command_SetActivity
                  (Some (JObj [("pid", JNum (pid (env w))); ("activity", JNull)]))
                  undefined w Hw) as Hr.
    by destruct (request _ _ _ w).
  - by apply stable_destroy_finish.
Qed.

Lemma stable_destroy_flush w : P w -> P (destroy_flush w).
Proof. intros. unfold destroy_flush. stable_unfold. stable_tac. Qed.

Lemma stable_onReady data listener w :
  P w -> P (onReady data listener w).
Proof.
  intros. unfold onReady. destruct listener as [p t].
  apply stable_perform; [done|]. apply stable_startHeartbeat.
  stable_unfold. stable_tac.
Qed.

Lemma stable_emit_ready data w : P w -> P (emit_ready data w).
Proof.
  intros Hw. unfold emit_ready.
  assert (P (with_readyOnce [] (emit (EvReady data) w))) as Hacc
    by (stable_unfold; stable_tac).
  revert Hacc. generalize (with_readyOnce [] (emit (EvReady data) w)).
  induction (readyOnce w) as [|l ls IH]; intros acc Hacc; [done|].
  cbn [foldl]. apply IH. by apply stable_onReady.
Qed.

Lemma stable_route_frame evt nonce data cmd w :
  P w -> P (fst (route_frame evt nonce data cmd w)).
Proof.
  intros Hw. unfold route_frame.
  destruct (strict_eq_str evt RPCEvent_Ready).
  { by apply stable_emit_ready. }
  destruct (strict_eq_str evt RPCEvent_Error && negb (truthy nonce)).
  { unfold bind, lift, lift_outcome.
    destruct (getprop data "message"); [|done].
    destruct (getprop data "code"); [|done].
    cbn [fst]. stable_unfold. stable_tac. }
  destruct (if truthy nonce then pending_get nonce w else None) as [pending|].
  - unfold bind, lift, lift_outcome. cbn [fst].
    assert (P (clearTimeout (timer pending) (pending_delete nonce w)))
      as Hw1.
    { stable_unfold. stable_tac. unfold pending_delete.
      repeat case_match; stable_tac. }
    destruct (strict_eq_str evt RPCEvent_Error).
    + destruct (getprop data "message"); [|done].
      destruct (getprop data "code"); [|done].
      cbn [fst]. stable_tac.
    + cbn [fst]. stable_tac.
  - case_match; cbn [fst]; stable_unfold; stable_tac.
Qed.

Lemma stable_onPacket op raw w :
  P w -> P (fst (onPacket op raw w)).
Proof.
  intros Hw. unfold onPacket.
  destruct (op =? OpCode_Close).
  { unfold bind, lift, lift_outcome.
    destruct (getprop (Some raw) "message"); [|done].
    cbn [fst]. apply stable_destroy_call. stable_unfold. stable_tac. }
  destruct (op =? OpCode_Ping); [by apply stable_send|].
  destruct (negb (op =? OpCode_Frame)); [done|].
  unfold bind at 1, lift_outcome at 1.
  destruct (getprop (Some raw) "evt") as [evt|]; [|done].
  unfold bind at 1, lift_outcome at 1.
  destruct (getprop (Some raw) "nonce") as [nonce|]; [|done].
  unfold bind at 1, lift_outcome at 1.
  destruct (getprop (Some raw) "data") as [data|]; [|done].
  unfold bind at 1, lift_outcome at 1.
  destruct (getprop (Some raw) "cmd") as [cmd|]; [|done].
  by apply stable_route_frame.
Qed.

Lemma stable_packet_handler op payload w :
  P w -> P (packet_handler op payload w).
Proof. intros. unfold packet_handler, swallow. by apply stable_onPacket. Qed.

Lemma stable_processBuffer_loop fuel :
  forall w,
    P w ->
    P (processBuffer_loop buffer with_buffer (Some packet_handler) fuel w).
Proof.
  induction fuel as [|fuel IH]; intros w Hw; [done|].
  cbn [processBuffer_loop]. cbv zeta.
  assert (forall n, P (with_buffer (drop n (buffer w)) w)) as Hdrop.
  { intros n. apply stable_buffer; [|done]. rewrite length_drop. lia. }
  repeat case_match; try done; apply IH; [|done].
  by apply stable_packet_handler.
Qed.

(** The ['data'] listener, given that the property survives the arrival
    of the chunk. *)
Lemma stable_on_data chunk w :
  P (with_buffer (buffer w ++ chunk) w) -> P (on_data chunk w).
Proof.
  intros Hw. unfold on_data, onData, processBuffer.
  by apply stable_processBuffer_loop.
Qed.

Lemma stable_onTransportClose w :
  P w -> P (onTransportClose w).
Proof.
  intros Hw. unfold onTransportClose, rejectAllPending. cbv zeta.
  assert (P (rejectAll_loop (pendingRequests (stopHeartbeat w))
                         "Transport connection closed." (stopHeartbeat w)))
    as Hw1 by by apply stable_rejectAll_loop, stable_stopHeartbeat.
  case_match; [done|]. stable_unfold. stable_tac.
Qed.

Lemma stable_on_close w : P w -> P (on_close w).
Proof.
  intros Hw. unfold on_close. apply stable_onTransportClose.
  apply stable_buffer; [cbn; lia|]. stable_tac.
Qed.

Lemma stable_login_begin id w :
  P w -> P (fst (login_begin id w)).
Proof. intros. unfold login_begin. case_match; cbn [fst]; stable_tac. Qed.

Lemma stable_login_resume id w :
  P w -> P (fst (login_resume id w)).
Proof.
  intros Hw. unfold login_resume.
  pose proof (stable_connect None (connectionTimeout (options w)) w Hw) as Hq.
  destruct (connect None (connectionTimeout (options w)) w) as [w1 [[]|e]];
    cbn [fst] in *; [|stable_tac].
  stable_unfold.
  match goal with
  | |- context [send ?op ?p ?w4] =>
      pose proof (stable_send op p w4) as Hs;
      destruct (send op p w4) as [w5 [[]|err]]
  end; cbn [fst snd] in *; stable_tac; apply Hs; stable_tac.
Qed.

Lemma stable_fire t w : P w -> P (fire t w).
Proof.
  intros Hw. unfold fire.
  destruct (timers w !! t) as [[nonce cmd p|p| |]|]; [| | | |done].
  - stable_tac.
  - apply stable_destroy_call. stable_tac.
  - by apply stable_ping.
  - apply stable_destroy_finish. stable_tac.
Qed.

Lemma stable_socket_breaks w : P w -> P (socket_breaks w).
Proof. intros. unfold socket_breaks. case_match; stable_tac. Qed.

End RunFacts.

Section Reachability.
Context `{Platform}.

Lemma tracks_step opts w w' : step w w' -> tracks opts w -> tracks opts w'.
Proof.
  destruct 1; intros Hw.
  - by apply (stable_login_begin (tracks opts)).
  - by apply (stable_login_resume (tracks opts)).
  - by apply (stable_request (tracks opts)).
  - by apply (stable_ping (tracks opts)).
  - by apply (stable_destroy_call (tracks opts)).
  - by apply (stable_destroy_flush (tracks opts)).
  - by apply (stable_destroy_finish (tracks opts)).
  - by apply (stable_on_data (tracks opts)), tracks_grow.
  - by apply (stable_on_close (tracks opts)).
  - by apply (stable_socket_breaks (tracks opts)).
  - by apply (stable_fire (tracks opts)).
Qed.

(** The handlers of the client never make the accumulation buffer longer,
    so the fuel [processBuffer] starts with is never used up: any larger
    amount gives the same result. *)
Lemma packet_handler_buffer op payload w :
  (length (buffer (packet_handler op payload w)) <= length (buffer w))%nat.
Proof.
  apply (stable_packet_handler (buffer_within (length (buffer w)))).
  unfold buffer_within. lia.
Qed.

Lemma client_loop_fuel f1 f2 w :
  (length (buffer w) <= f1)%nat -> (length (buffer w) <= f2)%nat ->
  processBuffer_loop buffer with_buffer (Some packet_handler) f1 w
  = processBuffer_loop buffer with_buffer (Some packet_handler) f2 w.
Proof.
  revert f2 w. induction f1 as [|f1 IH]; intros f2 w H1 H2.
  { destruct f2 as [|f2]; [done|]. cbn [processBuffer_loop].
    destruct (Nat.ltb_spec (length (buffer w)) HEADER_SIZE) as [|Hge];
      [done|]. unfold HEADER_SIZE in *. lia. }
  destruct f2 as [|f2].
  { cbn [processBuffer_loop].
    destruct (Nat.ltb_spec (length (buffer w)) HEADER_SIZE) as [|Hge];
      [done|]. unfold HEADER_SIZE in *. lia. }
  cbn [processBuffer_loop]. cbv zeta.
  destruct (Nat.ltb_spec (length (buffer w)) HEADER_SIZE) as [|Hge]; [done|].
  destruct (readUInt32LE (buffer w) 0) as [op|]; [|done].
  destruct (readUInt32LE (buffer w) 4) as [len|]; [|done].
  destruct (Nat.ltb_spec (length (buffer w)) (HEADER_SIZE + N.to_nat len));
    [done|].
  set (w1 := with_buffer (drop (HEADER_SIZE + N.to_nat len) (buffer w)) w).
  assert (length (buffer w1) <= length (buffer w) - HEADER_SIZE)%nat as Hw1.
  { subst w1. cbn [buffer with_buffer]. rewrite length_drop. lia. }
  unfold HEADER_SIZE in *.
  destruct (JSON_parse _) as [payload|].
  - pose proof (packet_handler_buffer op payload w1).
    apply IH; lia.
  - apply IH; lia.
Qed.

Lemma reachable_tracks o e w :
  reachable o e w -> tracks (options (new_Client o e)) w.
Proof.
  unfold reachable. intros Hrun.
  eapply (rtc_ind_r (fun w => tracks (options (new_Client o e)) w));
    [|intros w1 w2 _ Hstep IH|exact Hrun].
  - done.
  - by eapply tracks_step.
Qed.
End Reachability.

Section TimeoutFacts.
Context `{Platform}.

Lemma setState_log s w :
  log (setState s w)
  = log w ++ (if decide (state w = s) then [] else [Emit (EvStateChange s)]).
Proof.
  unfold setState. destruct (decide (state w = s)); wsimpl; [|done].
  by rewrite app_nil_r.
Qed.

Lemma setState_fields s w :
  options (setState s w) = options w /\ timers (setState s w) = timers w
  /\ next_id (setState s w) = next_id w.
Proof. unfold setState. by destruct (decide (state w = s)). Qed.

Lemma timeouts_set_app e1 e2 :
  timeouts_set (e1 ++ e2) = timeouts_set e1 ++ timeouts_set e2.
Proof. apply omap_app. Qed.

Lemma timeouts_set_stateChange (b : bool) s :
  timeouts_set (if b then [] else [Emit (EvStateChange s)]) = [].
Proof. by destruct b. Qed.

(** What the continuation of [login] sets as deadlines. *)
Lemma login_resume_deadlines id w :
  let ct := connectionTimeout (options w) in
  let r := login_resume id w in
  exists effs,
    log (fst r) = log w ++ effs
    /\ Forall (eq ct) (timeouts_set effs)
    /\ forall p, snd r = Ok p ->
         exists t, timers (fst r) !! t = Some (HandshakeTimeout p)
                   /\ SetTimeout t ct ∈ effs.
Proof.
  cbv zeta. unfold login_resume.
  destruct (connect_quiet None (connectionTimeout (options w)) w)
    as (e1 & Hlog1 & Ht1 & _ & _ & Hopt1 & _).
  destruct (connect None (connectionTimeout (options w)) w) as [w1 [[]|e]];
    cbn [fst snd] in *.
  - destruct (setState_fields connected w1) as (Ho2 & Htm2 & Hid2).
    unfold setTimeout, fresh. cbn [fst snd].
    match goal with
    | |- context [send ?op ?p ?w4] =>
        destruct (send_world op p w4) as (e3 & Hw5 & Ht3 & _);
        destruct (send op p w4) as [w5 [[]|err]]
    end; cbn [fst snd] in *; subst w5.
    + eexists. split; [|split].
      * wsimpl. rewrite setState_log, Hlog1, <- !app_assoc. reflexivity.
      * rewrite !timeouts_set_app, Ht3, app_nil_r.
        apply Forall_app. split; [done|].
        destruct (decide (state w1 = connected)); cbn; wsimpl;
          rewrite Ho2, Hopt1; by repeat constructor.
      * intros p [= <-]. exists (S (next_id (setState connected w1))).
        wsimpl. split; [apply lookup_insert_eq|].
        rewrite Ho2, Hopt1. set_solver.
    + eexists. split; [|split].
      * wsimpl. rewrite setState_log, Hlog1, <- !app_assoc. reflexivity.
      * rewrite !timeouts_set_app, Ht3.
        apply Forall_app. split; [done|].
        destruct (decide (state w1 = connected)); cbn; wsimpl;
          rewrite Ho2, Hopt1; by repeat constructor.
      * intros p [= <-]. exists (S (next_id (setState connected w1))).
        wsimpl. split; [apply lookup_insert_eq|].
        rewrite Ho2, Hopt1. set_solver.
  - eexists. split; [|split].
    + rewrite setState_log, Hlog1, <- app_assoc. reflexivity.
    + rewrite timeouts_set_app. apply Forall_app. split; [done|].
      by destruct (decide (state w1 = disconnected)).
    + discriminate.
Qed.

Lemma attempts_timed_app ms e1 e2 :
  attempts_timed ms e1 -> attempts_timed ms e2 -> attempts_timed ms (e1 ++ e2).
Proof.
  induction e1 as [|x e1 IH]; intros H1 H2; [done|].
  destruct x; cbn [attempts_timed app] in *; try (by apply IH).
  destruct H1 as [Hnext H1]. split; [|by apply IH].
  destruct e1 as [|[] [|next e1']]; done.
Qed.

Lemma timed_refl ms w : timed ms w w.
Proof. exists []. by rewrite app_nil_r. Qed.

Lemma timed_trans ms w1 w2 w3 : timed ms w1 w2 -> timed ms w2 w3 -> timed ms w1 w3.
Proof.
  intros (e1 & L1 & A1 & N1) (e2 & L2 & A2 & N2).
  exists (e1 ++ e2). rewrite L2, L1, <- app_assoc.
  split; [done|]. split; [by apply attempts_timed_app|].
  rewrite timeouts_set_app, paths_tried_app, !length_app. lia.
Qed.

Lemma timed_drop_socket ms w : timed ms w (drop_socket w).
Proof.
  unfold drop_socket. destruct (socket w) as [s|]; [|apply timed_refl].
  exists [SocketRemoveAllListeners (sock_id s); SocketDestroy (sock_id s)].
  wsimpl. by rewrite <- app_assoc.
Qed.

Lemma timed_tryPath index timeout remaining :
  forall w, timed timeout w (fst (tryPath index timeout remaining w)).
Proof.
  induction remaining as [|path rest IH]; intros w; [apply timed_refl|].
  destruct (decide (path = "")) as [->|Hpath]; [apply timed_refl|].
  destruct (tryPath_step index timeout path rest w Hpath)
    as (w4 & s & t & Hlog & _ & _ & _ & _ & _ & ->).
  apply (timed_trans _ _ (drop_socket w)); [apply timed_drop_socket|].
  destruct (net (env w) (net_ctr w)) as [|code message|]; cbn [fst].
  - exists [NetConnect s path; SetTimeout t timeout; ClearTimeout t].
    wsimpl. rewrite Hlog, <- app_assoc. cbn. by eauto 10.
  - cbv zeta.
    assert (timed timeout (drop_socket w)
              (perform (SocketDestroy s) (perform (ClearTimeout t) w4))) as Hq5.
    { exists [NetConnect s path; SetTimeout t timeout; ClearTimeout t;
              SocketDestroy s].
      wsimpl. rewrite Hlog, <- !app_assoc. cbn. by eauto 10. }
    destruct (String.eqb code "ENOENT" || String.eqb code "ECONNREFUSED");
      [|done].
    eapply timed_trans; [exact Hq5|apply IH].
  - exists [NetConnect s path; SetTimeout t timeout; SocketDestroy s].
    wsimpl. rewrite Hlog, <- app_assoc. cbn. by eauto 10.
Qed.

Lemma timed_connect_scan timeout todo :
  forall i w, timed timeout w (fst (connect_scan timeout todo i w)).
Proof.
  induction todo as [|todo IH]; intros i w; [apply timed_refl|].
  cbn [connect_scan].
  pose proof (timed_tryPath i timeout (getPipePaths (env w) i) w) as Hq.
  unfold tryConnect.
  destruct (tryPath i timeout (getPipePaths (env w) i) w) as [w' [[]|e]];
    cbn [fst] in *; [done|].
  eapply timed_trans; [exact Hq|apply IH].
Qed.

Lemma timed_connect pipeIndex timeout w :
  timed timeout w (fst (connect pipeIndex timeout w)).
Proof.
  destruct pipeIndex as [index|];
    [apply timed_tryPath|apply timed_connect_scan].
Qed.

Lemma send_connects_nothing ms op payload w :
  exists effs,
    fst (send op payload w) = with_log (log w ++ effs) w
    /\ timeouts_set effs = [] /\ paths_tried effs = []
    /\ attempts_timed ms effs.
Proof.
  unfold send.
  destruct (socket w) as [s|];
    [|exists []; by rewrite app_nil_r, with_log_same].
  destruct (destroyed s); [exists []; by rewrite app_nil_r, with_log_same|].
  destruct (encode op payload) as [packet|e]; cbn [fst].
  - by exists [SocketWrite (sock_id s) packet].
  - exists []. by rewrite app_nil_r, with_log_same.
Qed.

(** The continuation of [login]: the attempts of its search are timed with
    the option, and the one timeout set besides theirs is the handshake
    timer, set when the search has connected. *)
Lemma login_resume_attempts id w :
  let ct := connectionTimeout (options w) in
  let r := login_resume id w in
  exists effs,
    log (fst r) = log w ++ effs
    /\ attempts_timed ct effs
    /\ length (timeouts_set effs)
       = (length (paths_tried effs)
          + match snd r with Ok _ => 1 | Throw _ => 0 end)%nat.
Proof.
  cbv zeta. unfold login_resume.
  destruct (timed_connect None (connectionTimeout (options w)) w)
    as (e1 & Hlog1 & Ha1 & Hn1).
  destruct (connect None (connectionTimeout (options w)) w) as [w1 [[]|e]];
    cbn [fst snd] in *.
  - unfold setTimeout, fresh. cbn [fst snd].
    match goal with
    | |- context [send ?op ?p ?w4] =>
        destruct (send_connects_nothing (connectionTimeout (options w))
                    op p w4) as (e3 & Hw5 & Ht3 & Hp3 & Ha3);
        destruct (send op p w4) as [w5 [[]|err]]
    end; cbn [fst snd] in *; subst w5.
    + eexists. split; [|split].
      * wsimpl. rewrite setState_log, Hlog1, <- !app_assoc. reflexivity.
      * apply attempts_timed_app; [done|].
        apply attempts_timed_app; [by destruct (decide _)|].
        by apply (attempts_timed_app _ [_]).
      * rewrite !timeouts_set_app, !paths_tried_app, !length_app, Ht3, Hp3, Hn1.
        destruct (decide (state w1 = connected)); cbn; lia.
    + eexists. split; [|split].
      * wsimpl. rewrite setState_log, Hlog1, <- !app_assoc. reflexivity.
      * apply attempts_timed_app; [done|].
        apply attempts_timed_app; [by destruct (decide _)|].
        apply (attempts_timed_app _ [_]); [done|].
        by apply attempts_timed_app.
      * rewrite !timeouts_set_app, !paths_tried_app, !length_app, Ht3, Hp3, Hn1.
        destruct (decide (state w1 = connected)); cbn; lia.
  - eexists. split; [|split].
    + rewrite setState_log, Hlog1, <- app_assoc. reflexivity.
    + apply attempts_timed_app; [done|].
      by destruct (decide (state w1 = disconnected)).
    + rewrite timeouts_set_app, paths_tried_app, !length_app, Hn1.
      destruct (decide (state w1 = disconnected)); cbn; lia.
Qed.

(** C9. In every world a client reaches, the option [connectionTimeout]
    is the one fixed by the constructor: the option supplied, or 10 000
    when none was. A request made in the [ready] state sets exactly one
    timeout, with that delay, for the callback that rejects it. Every
    attempt to connect a socket runs against a timer with the same delay:
    the timer is set right after [net.connect] and is either cleared by the
    socket's answer or destroys the socket; there are as many timers as
    attempts; and an attempt that gets no answer ends, when the timer
    fires, with the socket destroyed and the error that names the delay.
    The continuation of [login] hands that option to the search and sets
    one more timeout with it, the one of the handshake, when the search has
    connected. *)
Theorem connectionTimeout_is_every_deadline o e w :
  reachable o e w ->
  let ct := default 10000%Z (connectionTimeout_opt o) in
  connectionTimeout (options w) = ct
  /\ (forall cmd args evt,
        state w = ready ->
        let w' := snd (request cmd args evt w) in
        timeouts_set (effects_since w w') = [ct]
        /\ exists tok p t,
             timers w' !! t = Some (RequestTimeout tok cmd p)
             /\ SetTimeout t ct ∈ effects_since w w')
  /\ (forall pipeIndex,
        let effs := effects_since w (fst (connect pipeIndex ct w)) in
        Forall (eq ct) (timeouts_set effs)
        /\ attempts_timed ct effs
        /\ length (timeouts_set effs) = length (paths_tried effs))
  /\ (forall index path rest,
        getPipePaths (env w) index = path :: rest ->
        path <> "" ->
        net (env w) (net_ctr w) = TimedOut ->
        let r := connect (Some index) ct w in
        snd r = Throw (ConnectionError ("Connection timed out after "
                                        +:+ pretty ct +:+ "ms."))
        /\ socket (fst r) = None
        /\ exists s t,
             effects_since w (fst r)
             = effects_since w (drop_socket w)
               ++ [NetConnect s path; SetTimeout t ct; SocketDestroy s])
  /\ (forall id,
        let r := login_resume id w in
        let effs := effects_since w (fst r) in
        Forall (eq ct) (timeouts_set effs)
        /\ attempts_timed ct effs
        /\ length (timeouts_set effs)
           = (length (paths_tried effs)
              + match snd r with Ok _ => 1 | Throw _ => 0 end)%nat
        /\ forall p, snd r = Ok p ->
             exists t, timers (fst r) !! t = Some (HandshakeTimeout p)
                       /\ SetTimeout t ct ∈ effs).
Proof.
  intros Hrun ct. destruct (reachable_tracks o e w Hrun) as (Hopt & _).
  assert (connectionTimeout (options w) = ct) as Hct by by rewrite Hopt.
  split; [done|]. split; [|split; [|split]].
  - intros cmd args evt Hready.
    destruct (request_ready cmd args evt w Hready) as (effs & -> & Ht & _).
    cbv zeta. unfold effects_since. wsimpl. rewrite drop_app_length, Hct.
    split.
    + change (SetTimeout ?t ct :: effs) with ([SetTimeout t ct] ++ effs).
      by rewrite timeouts_set_app, Ht.
    + eexists _, _, _. split; [apply lookup_insert_eq|]. set_solver.
  - intros pipeIndex. cbv zeta.
    destruct (connect_quiet pipeIndex ct w) as (effs & Hlog & Ht & _).
    destruct (timed_connect pipeIndex ct w) as (effs' & Hlog' & Ha & Hn).
    rewrite Hlog in Hlog'. apply app_inv_head in Hlog'. subst effs'.
    unfold effects_since. by rewrite Hlog, drop_app_length.
  - intros index path rest Hpaths Hpath Hnet. cbv zeta.
    unfold connect, tryConnect. rewrite Hpaths.
    destruct (tryPath_step index ct path rest w Hpath)
      as (w4 & s & t & Hlog & _ & _ & Hs & _ & _ & ->).
    rewrite Hnet. cbn [fst snd]. split; [done|]. split; [by wsimpl|].
    exists s, t. unfold effects_since. wsimpl.
    destruct (paths_tried_drop_socket w) as (e0 & Hl0 & _).
    rewrite Hlog, Hl0, <- !app_assoc, !drop_app_length. reflexivity.
  - intros id. cbv zeta.
    destruct (login_resume_deadlines id w) as (effs & Hlog & Ht & Hp).
    destruct (login_resume_attempts id w) as (effs' & Hlog' & Ha & Hn).
    cbv zeta in *.
    rewrite Hlog in Hlog'. apply app_inv_head in Hlog'. subst effs'.
    unfold effects_since. rewrite Hlog, drop_app_length.
    rewrite Hct in *. done.
Qed.

Lemma stateChanges_rejections reason (entries : list (string * PendingRequest)) :
  stateChanges
    (flat_map (fun entry =>
                 [ClearTimeout (timer entry.2);
                  Reject (promise entry.2) (ConnectionError reason)]) entries)
  = [].
Proof. induction entries as [|e rest IH]; [done|]. cbn. exact IH. Qed.

(** C10. The state setter announces a state exactly when it differs from
    the current one, and then makes it the current one. [destroy()] called
    on a [disconnected] client completes within the call and announces
    nothing. In every world a client reaches, no state announced repeats
    the one announced just before it. *)
Theorem stateChange_announced_only_on_change :
  (forall s w,
     effects_since w (setState s w)
     = (if decide (state w = s) then [] else [Emit (EvStateChange s)])
     /\ state (setState s w) = s)
  /\ (forall susp w,
        state w = disconnected ->
        destroy_call w = destroy susp w
        /\ stateChanges (effects_since w (destroy susp w)) = [])
  /\ (forall o e w, reachable o e w -> no_repeat (stateChanges (log w))).
Proof.
  split; [|split].
  - intros s w. split; [|apply state_setState].
    unfold effects_since. by rewrite setState_log, drop_app_length.
  - intros susp w Hstate.
    unfold destroy, destroy_resumed, destroy_call, destroy_begin.
    destruct (decide (state w = ready)) as [Hready|_];
      [rewrite Hstate in Hready; discriminate|].
    split; [done|].
    destruct (destroy_finish_spec w) as (_ & _ & _ & _ & _ & Hlog & _).
    unfold effects_since. rewrite Hlog, drop_app_length.
    unfold teardown_effects. rewrite !stateChanges_app, stateChanges_rejections.
    destruct (decide (state w = disconnected)); [|done].
    by destruct (heartbeatTimer w), (socket w).
  - intros o e w Hrun.
    destruct (reachable_tracks o e w Hrun) as (_ & _ & Hn).
    by apply no_repeat_tail in Hn.
Qed.
End TimeoutFacts.

(** ** The statements on the session of [Scenario] *)

Section Instances.
Import Reference Scenario.
Local Open Scope string_scope.

Lemma framing_roundtrip_chunked_witness :
  encode OpCode_Frame ready_frame = Ok ready_bytes
  /\ JSON_parse (utf8_decode (utf8_encode (JSON_stringify ready_frame)))
     = Some ready_frame
  /\ concat ready_chunks = ready_bytes
  /\ rec_feed ready_chunks ([], []) = ([], [(OpCode_Frame, ready_frame)])
  /\ rec_feed [ready_bytes] ([], []) = rec_feed ready_chunks ([], []).
Proof.
  assert (encode OpCode_Frame ready_frame = Ok ready_bytes) as Henc
    by (vm_compute; reflexivity).
  assert (JSON_parse (utf8_decode (utf8_encode (JSON_stringify ready_frame)))
          = Some ready_frame) as Hrt by (vm_compute; reflexivity).
  assert (concat ready_chunks = ready_bytes) as Hcat
    by (vm_compute; reflexivity).
  split; [exact Henc|]. split; [exact Hrt|]. split; [exact Hcat|].
  exact (framing_roundtrip_chunked OpCode_Frame ready_frame ready_bytes
           ready_chunks Henc Hrt Hcat).
Defined.

Lemma malformed_message_skipped_witness :
  length cut_header = HEADER_SIZE
  /\ readUInt32LE cut_header 4 = Some (N.of_nat (length cut_payload))
  /\ JSON_parse (utf8_decode cut_payload) = None
  /\ rec_process ((cut_header ++ cut_payload)%list, []) = ([], [])
  /\ rec_process ((cut_header ++ cut_payload ++ ready_bytes)%list, [])
     = ([], [(OpCode_Frame, ready_frame)]).
Proof.
  assert (length cut_header = HEADER_SIZE) as Hh by (vm_compute; reflexivity).
  assert (readUInt32LE cut_header 4 = Some (N.of_nat (length cut_payload)))
    as H4 by (vm_compute; reflexivity).
  assert (JSON_parse (utf8_decode cut_payload) = None) as Hbad
    by (vm_compute; reflexivity).
  assert (encode OpCode_Frame ready_frame = Ok ready_bytes) as Henc
    by (vm_compute; reflexivity).
  assert (JSON_parse (utf8_decode (utf8_encode (JSON_stringify ready_frame)))
          = Some ready_frame) as Hrt by (vm_compute; reflexivity).
  split; [exact Hh|]. split; [exact H4|]. split; [exact Hbad|].
  exact (malformed_message_skipped cut_header cut_payload OpCode_Frame
           ready_frame ready_bytes [] Hh H4 Hbad Henc Hrt).
Defined.

Lemma matched_response_settles_request_witness :
  Map_get "nonce-0" (pendingRequests busy_client) = Some first_pending
  /\ "nonce-0" <> ""
  /\ is_RPCFrame error_response = true
  /\ frame_member "nonce" error_response = Some (JStr "nonce-0")
  /\ strict_eq_str (frame_member "evt" error_response) RPCEvent_Ready = false
  /\ snd (onPacket OpCode_Frame error_response busy_client) = Ok tt
  /\ response_matched busy_client "nonce-0" first_pending error_response
       (fst (onPacket OpCode_Frame error_response busy_client)).
Proof.
  assert (Map_get "nonce-0" (pendingRequests busy_client) = Some first_pending)
    as Hget by (vm_compute; reflexivity).
  assert ("nonce-0" <> "") as Htok by discriminate.
  assert (is_RPCFrame error_response = true) as Hframe
    by (vm_compute; reflexivity).
  assert (frame_member "nonce" error_response = Some (JStr "nonce-0"))
    as Hnonce by (vm_compute; reflexivity).
  assert (strict_eq_str (frame_member "evt" error_response) RPCEvent_Ready
          = false) as Hevt by (vm_compute; reflexivity).
  split; [exact Hget|]. split; [exact Htok|]. split; [exact Hframe|].
  split; [exact Hnonce|]. split; [exact Hevt|].
  exact (matched_response_settles_request busy_client "nonce-0" first_pending
           error_response Hget Htok Hframe Hnonce Hevt).
Defined.

(** The error response above rejects the first request with the server's
    message and code, and nothing else happens. *)
Example error_response_effects :
  effects_since busy_client
    (fst (onPacket OpCode_Frame error_response busy_client))
  = [ClearTimeout 10;
     Reject 9 (CommandError (Some (JStr "Invalid event")) (Some (JNum 4004)))].
Proof. vm_compute. reflexivity. Qed.

(** C3 as stated fails on a frame whose event is READY: it carries the
    token of a pending request, yet [onPacket] emits [ready] and returns
    before it looks at the registry; the entry stays, its timeout stays set,
    and the request is not settled. *)
Lemma ready_frame_with_token_not_correlated :
  Map_get "nonce-0" (pendingRequests busy_client) = Some first_pending
  /\ is_RPCFrame ready_with_nonce = true
  /\ frame_member "nonce" ready_with_nonce = Some (JStr "nonce-0")
  /\ Map_get "nonce-0"
       (pendingRequests (fst (onPacket OpCode_Frame ready_with_nonce busy_client)))
     = Some first_pending
  /\ effects_since busy_client
       (fst (onPacket OpCode_Frame ready_with_nonce busy_client))
     = [Emit (EvReady (Some (JObj [])))]
  /\ ~ response_matched busy_client "nonce-0" first_pending ready_with_nonce
         (fst (onPacket OpCode_Frame ready_with_nonce busy_client)).
Proof.
  assert (Map_get "nonce-0"
            (pendingRequests
               (fst (onPacket OpCode_Frame ready_with_nonce busy_client)))
          = Some first_pending) as Hstill by (vm_compute; reflexivity).
  repeat split; try (vm_compute; reflexivity).
  intros (Hgone & _). rewrite Hstill in Hgone. discriminate.
Qed.

Lemma timeout_rejects_then_late_frame_witness :
  state ready_client = ready
  /\ uuid (env ready_client) (uuid_ctr ready_client) <> ""
  /\ is_RPCFrame silent_late_response = true
  /\ frame_member "nonce" silent_late_response
     = Some (JStr (uuid (env ready_client) (uuid_ctr ready_client)))
  /\ strict_eq_str (frame_member "evt" silent_late_response) RPCEvent_Ready
     = false
  /\ timeout_then_late_frame "GET_GUILDS" undefined undefined ready_client
       silent_late_response.
Proof.
  assert (state ready_client = ready) as Hstate by (vm_compute; reflexivity).
  assert (uuid (env ready_client) (uuid_ctr ready_client) <> "") as Htok
    by (vm_compute; discriminate).
  assert (is_RPCFrame silent_late_response = true) as Hframe
    by (vm_compute; reflexivity).
  assert (frame_member "nonce" silent_late_response
          = Some (JStr (uuid (env ready_client) (uuid_ctr ready_client))))
    as Hnonce by (vm_compute; reflexivity).
  assert (strict_eq_str (frame_member "evt" silent_late_response)
            RPCEvent_Ready = false) as Hevt by (vm_compute; reflexivity).
  split; [exact Hstate|]. split; [exact Htok|]. split; [exact Hframe|].
  split; [exact Hnonce|]. split; [exact Hevt|].
  exact (timeout_rejects_then_late_frame "GET_GUILDS" undefined undefined
           ready_client silent_late_response Hstate Htok Hframe Hnonce Hevt).
Defined.

(** C4 as stated fails on a late frame that is itself a dispatch: the
    request [DISPATCH] has timed out and left the registry, its error
    response arrives with the token, and [onPacket] hands it to the
    observers as an [rpcEvent]. *)
Lemma late_dispatch_response_is_emitted :
  timers dispatch_client !! 10%nat
  = Some (RequestTimeout "nonce-0" Command_Dispatch 9)
  /\ effects_since dispatch_client timed_out_client
     = [Reject 9 (TimeoutError "Request DISPATCH timed out.")]
  /\ Map_get "nonce-0" (pendingRequests timed_out_client) = None
  /\ is_RPCFrame late_response = true
  /\ frame_member "nonce" late_response = Some (JStr "nonce-0")
  /\ effects_since timed_out_client
       (fst (onPacket OpCode_Frame late_response timed_out_client))
     = [Emit (EvRpcEvent (Some (JStr "ERROR")) (Some late_data))].
Proof. repeat split; vm_compute; reflexivity. Qed.

Lemma request_not_ready_rejects_witness :
  state fresh_client <> ready
  /\ let (p, w') := request Command_SetActivity undefined undefined fresh_client in
     effects_since fresh_client w'
     = [Reject p (StateError "Client is not ready. Call login() first.")]
     /\ pendingRequests w' = pendingRequests fresh_client
     /\ timers w' = timers fresh_client
     /\ socket w' = socket fresh_client
     /\ state w' = state fresh_client.
Proof.
  assert (state fresh_client <> ready) as Hstate by (vm_compute; discriminate).
  split; [exact Hstate|].
  exact (request_not_ready_rejects Command_SetActivity undefined undefined
           fresh_client Hstate).
Defined.



Lemma ready_client_reachable :
  reachable {| heartbeatInterval_opt := None; connectionTimeout_opt := None |}
    env0 ready_client.
Proof.
  unfold reachable.
  apply (rtc_l _ _ connecting_client); [apply step_login_begin|].
  apply (rtc_l _ _ connected_client); [apply step_login_resume|].
  apply (rtc_l _ _ ready_client); [|apply rtc_refl].
  apply step_data. vm_compute. eauto.
Defined.

Lemma connectionTimeout_is_every_deadline_witness :
  reachable {| heartbeatInterval_opt := None; connectionTimeout_opt := None |}
    env0 ready_client
  /\ connectionTimeout (options ready_client) = 10000%Z
  /\ timeouts_set
       (effects_since ready_client
          (snd (request "GET_GUILDS" undefined undefined ready_client)))
     = [10000%Z]
  /\ reachable {| heartbeatInterval_opt := None; connectionTimeout_opt := None |}
       env0 connecting_client
  /\ attempts_timed 10000
       (effects_since connecting_client
          (fst (login_resume "app-1" connecting_client)))
  /\ length (paths_tried
               (effects_since connecting_client
                  (fst (login_resume "app-1" connecting_client)))) = 3%nat
  /\ timeouts_set
       (effects_since connecting_client
          (fst (login_resume "app-1" connecting_client)))
     = [10000%Z; 10000%Z; 10000%Z; 10000%Z].
Proof.
  split; [exact ready_client_reachable|].
  destruct (connectionTimeout_is_every_deadline _ _ _ ready_client_reachable)
    as (Hct & Hreq & _).
  split; [exact Hct|].
  split; [apply Hreq; vm_compute; reflexivity|].
  assert (reachable
            {| heartbeatInterval_opt := None; connectionTimeout_opt := None |}
            env0 connecting_client) as Hrun
    by (apply rtc_once, step_login_begin).
  split; [exact Hrun|].
  destruct (connectionTimeout_is_every_deadline _ _ _ Hrun)
    as (_ & _ & _ & _ & Hlogin).
  destruct (Hlogin "app-1") as (_ & Ha & _ & _).
  split; [exact Ha|]. split; vm_compute; reflexivity.
Defined.

(** The discovery of the specification's test: the slots 0, 1 and 2 fail on
    each of their four paths, slot 3 connects on its first, and no path of a
    later slot is tried. The connection attempts carry the client's own
    [connectionTimeout]. *)
Example discovery_falls_back_to_slot_3 :
  snd (login_resume "app-1" slot3_client) = Ok 26%nat
  /\ state (fst (login_resume "app-1" slot3_client)) = connected
  /\ length (paths_tried (effects_since slot3_client
                            (fst (login_resume "app-1" slot3_client))))
     = 13%nat
  /\ last (paths_tried (effects_since slot3_client
                          (fst (login_resume "app-1" slot3_client))))
     = Some "/run/user/1000/discord-ipc-3"
  /\ Forall (eq 2500%Z)
       (timeouts_set (effects_since slot3_client
                        (fst (login_resume "app-1" slot3_client)))).
Proof.
  repeat split; try (vm_compute; reflexivity).
  vm_compute. repeat constructor.
Qed.


End Instances.

(** ** The decoder on whole streams *)

Section StreamFacts.
Context `{Platform}.

Abbreviation loop := (processBuffer_loop fst rec_setBuffer (Some rec_handler)).

Lemma read_Some (b : Buffer) off :
  (off + 4 <= length b)%nat -> is_Some (readUInt32LE b off).
Proof.
  intros Hlen. unfold readUInt32LE.
  pose proof (length_drop b off) as Hd.
  destruct (drop off b) as [|b0 [|b1 [|b2 [|b3 tl]]]]; cbn in Hd; try lia.
  eauto.
Qed.

(** Bytes that arrive later do not change what was decoded before: going
    on after [more] has arrived gives what the whole input gives. *)
Lemma rec_loop_app (more : Buffer) f :
  forall (a : Buffer) evs f1 f2,
    (length a <= f)%nat ->
    (length (fst (loop f (a, evs)) ++ more) <= f1)%nat ->
    (length (a ++ more) <= f2)%nat ->
    loop f1 (fst (loop f (a, evs)) ++ more, snd (loop f (a, evs)))
    = loop f2 (a ++ more, evs).
Proof.
  induction f as [|f IH]; intros a evs f1 f2 Ha H1 H2.
  { cbn [processBuffer_loop fst snd] in *. by apply rec_loop_fuel. }
  cbn [processBuffer_loop fst snd rec_setBuffer] in *.
  destruct (Nat.ltb_spec (length a) HEADER_SIZE) as [Hs|Hge].
  { cbn [fst snd] in *. by apply rec_loop_fuel. }
  destruct (readUInt32LE a 0) as [op|] eqn:E0;
    [|cbn [fst snd] in *; by apply rec_loop_fuel].
  destruct (readUInt32LE a 4) as [len|] eqn:E4;
    [|cbn [fst snd] in *; by apply rec_loop_fuel].
  destruct (Nat.ltb_spec (length a) (HEADER_SIZE + N.to_nat len)) as [Hi|Hc].
  { cbn [fst snd] in *. by apply rec_loop_fuel. }
  destruct f2 as [|f2].
  { rewrite length_app in H2. unfold HEADER_SIZE in *. lia. }
  cbn [processBuffer_loop fst snd rec_setBuffer].
  destruct (Nat.ltb_spec (length (a ++ more)) HEADER_SIZE) as [Hs|_].
  { rewrite length_app in Hs. lia. }
  rewrite (read_app _ _ _ _ E0), (read_app _ _ _ _ E4).
  destruct (Nat.ltb_spec (length (a ++ more)) (HEADER_SIZE + N.to_nat len))
    as [Hi|_].
  { rewrite length_app in Hi. lia. }
  rewrite (drop_app_le a more HEADER_SIZE) by lia.
  rewrite (take_app_le (drop HEADER_SIZE a) more) by (rewrite length_drop; lia).
  rewrite (drop_app_le a more (HEADER_SIZE + N.to_nat len)) by lia.
  unfold HEADER_SIZE in *.
  destruct (JSON_parse _); unfold rec_handler, rec_setBuffer in *;
    cbn [fst snd] in *;
    (apply IH;
     [rewrite length_drop; lia | done
     | rewrite !length_app, length_drop in *; lia]).
Qed.

Lemma rec_feed_loop (chunks : list Buffer) :
  forall (a : Buffer) evs f,
    (length a <= f)%nat ->
    rec_feed chunks (loop f (a, evs)) = rec_process (a ++ concat chunks, evs).
Proof.
  induction chunks as [|c cs IH]; intros a evs f Ha.
  { cbn [concat]. rewrite app_nil_r. unfold rec_feed, feed. cbn [foldl].
    unfold rec_process, processBuffer. cbn [fst]. by apply rec_loop_fuel. }
  rewrite rec_feed_cons. unfold rec_process at 1, processBuffer. cbn [fst].
  rewrite (rec_loop_app c f a evs _ (length (a ++ c))) by done.
  rewrite IH by done. cbn [concat]. by rewrite <- app_assoc.
Qed.

(** X1. However a byte stream is cut into chunks, delivering the chunks one
    at a time gives what the stream gives when it arrives in one piece: the
    same handler calls in the same order and the same bytes left in the
    buffer. This holds for every stream, well-formed or not. *)
Theorem decoder_chunking_invariant (chunks : list Buffer) (r : Recorder) :
  rec_feed chunks (rec_process r)
  = rec_process (fst r ++ concat chunks, snd r).
Proof.
  destruct r as [a evs]. unfold rec_process at 1, processBuffer.
  cbn [fst snd]. by apply rec_feed_loop.
Qed.

(** One encoded message at the head of the buffer is handed over, and the
    decoder goes on with what follows it. *)
Lemma rec_process_cons op payload bs (rest : Buffer) evs :
  encode op payload = Ok bs -> round_trips payload ->
  rec_process (bs ++ rest, evs) = rec_process (rest, evs ++ [(op, payload)]).
Proof.
  intros Henc Hrt. apply encode_Ok in Henc as (-> & Hh & H0 & H4).
  unfold rec_process, processBuffer. cbn [fst].
  set (hdr := le32 op ++ _) in *.
  set (data := utf8_encode _) in *.
  rewrite <- app_assoc, !length_app, Hh.
  change (HEADER_SIZE + (length data + length rest))%nat
    with (S (7 + (length data + length rest))).
  rewrite (rec_loop_complete _ hdr data rest op (N.of_nat (length data)));
    try done; [|lia].
  unfold round_trips in Hrt. fold data in Hrt. rewrite Hrt.
  apply rec_loop_fuel; cbn [fst]; lia.
Qed.

(** X2. A buffer that holds several encoded messages one after the other,
    followed by the first [k] bytes of a further message that is not
    complete yet, is decoded into exactly those messages, in their order;
    the incomplete bytes stay in the buffer. *)
Theorem decoder_batch_in_order msgs (packets : list Buffer) op payload bs k evs :
  Forall2 encodes msgs packets ->
  encode op payload = Ok bs ->
  (k < length bs)%nat ->
  rec_process (concat packets ++ take k bs, evs) = (take k bs, evs ++ msgs).
Proof.
  intros Hall Henc Hk. revert evs.
  induction Hall as [|[op1 p1] bs1 msgs packets [Henc1 Hrt1] _ IH]; intros evs.
  - cbn [concat app]. rewrite app_nil_r.
    apply (rec_process_prefix op payload bs); [done| |].
    + rewrite length_take, Nat.min_l by lia. done.
    + rewrite length_take. lia.
  - cbn [concat fst snd] in *. rewrite <- app_assoc.
    rewrite (rec_process_cons op1 p1 bs1) by done.
    rewrite IH. by rewrite <- app_assoc.
Qed.
End StreamFacts.

(** ** Timers, the registry and the heartbeat *)

Section TimerFacts.
Context `{Platform}.
Implicit Types (w : World) (ls : list (nat * nat)).

Ltac agree_split := split; [|split; [|split]].

Lemma timing_refl w : same_timing w w.
Proof. by repeat split. Qed.

Lemma timing_trans w1 w2 w3 :
  same_timing w1 w2 -> same_timing w2 w3 -> same_timing w1 w3.
Proof.
  intros (T1 & P1 & H1 & R1 & N1) (T2 & P2 & H2 & R2 & N2).
  repeat split; try congruence. lia.
Qed.

Lemma timing_send op payload w : same_timing w (fst (send op payload w)).
Proof.
  destruct (send_world op payload w) as (effs & -> & _). by repeat split.
Qed.

Lemma timing_drop_socket w : same_timing w (drop_socket w).
Proof. unfold drop_socket. destruct (socket w); by repeat split. Qed.

Lemma timing_setState s w : same_timing w (setState s w).
Proof. unfold setState. destruct (decide _); by repeat split. Qed.

Lemma timing_tryPath index timeout remaining :
  forall w, same_timing w (fst (tryPath index timeout remaining w)).
Proof.
  induction remaining as [|path rest IH]; intros w; [apply timing_refl|].
  cbn [tryPath]. destruct (String.eqb path ""); [apply timing_refl|].
  unfold net_connect.
  pose proof (timing_drop_socket w) as Hd.
  set (w1 := drop_socket w) in *. wsimpl.
  destruct (net (env w1) (net_ctr w1)) as [|code message|]; cbn [fst].
  - apply (timing_trans _ w1); [done|]. unfold same_timing. wsimpl.
    repeat split; try done. lia.
  - cbv zeta.
    match goal with
    | |- same_timing _ (fst (if _ then tryPath _ _ _ ?w5 else _)) =>
        assert (same_timing w w5) as H5
    end.
    { apply (timing_trans _ w1); [done|]. unfold same_timing. wsimpl.
      repeat split; try done. lia. }
    destruct (String.eqb code "ENOENT" || String.eqb code "ECONNREFUSED");
      cbn [fst]; [|done].
    eapply timing_trans; [exact H5|apply IH].
  - apply (timing_trans _ w1); [done|]. unfold same_timing. wsimpl.
    repeat split; try done. lia.
Qed.

Lemma timing_connect_scan timeout todo :
  forall i w, same_timing w (fst (connect_scan timeout todo i w)).
Proof.
  induction todo as [|todo IH]; intros i w; [apply timing_refl|].
  cbn [connect_scan]. unfold tryConnect.
  pose proof (timing_tryPath i timeout (getPipePaths (env w) i) w) as Ht.
  destruct (tryPath i timeout (getPipePaths (env w) i) w) as [w' [[]|e]];
    cbn [fst] in *; [done|].
  eapply timing_trans; [exact Ht|apply IH].
Qed.

Lemma timing_connect pipeIndex timeout w :
  same_timing w (fst (connect pipeIndex timeout w)).
Proof.
  destruct pipeIndex as [index|];
    [apply timing_tryPath|apply timing_connect_scan].
Qed.

(** *** The primitive changes *)

Lemma agree_same ls w w' :
  same_timing w w' -> agree_with ls w -> agree_with ls w'.
Proof.
  intros (Ht & Hp & Hh & Hr & Hn) (Ia & Ib & Ic & Id).
  unfold agree_with. rewrite Ht, Hp, Hh, Hr. split; [|split; [|split]].
  - intros t task Hin. apply Ia in Hin. lia.
  - done.
  - done.
  - intros p t Hin. destruct (Id p t Hin). split; [lia|done].
Qed.

Lemma agree_fields ls w w' :
  timers w' = timers w -> pendingRequests w' = pendingRequests w ->
  heartbeatTimer w' = heartbeatTimer w -> readyOnce w' = readyOnce w ->
  next_id w' = next_id w ->
  agree_with ls w -> agree_with ls w'.
Proof. intros ? ? ? ? Hn. apply agree_same. repeat split; try done. lia. Qed.

Lemma agree_weaken ls ls' w :
  agree_with (ls ++ ls') w -> agree_with ls w.
Proof.
  intros (Ia & Ib & Ic & Id). agree_split; [done..|].
  intros p t Hin. apply (Id p t). rewrite <- app_assoc, !elem_of_app.
  apply elem_of_app in Hin as [?|?]; auto.
Qed.

Lemma agree_insert ls task w :
  agree_with ls w ->
  agree_with ls (with_timers (<[next_id w := task]> (timers w))
                   (with_next_id (S (next_id w)) w)).
Proof.
  intros (Ia & Ib & Ic & Id). unfold agree_with. wsimpl.
  assert (forall t x, timers w !! t = Some x ->
            <[next_id w := task]> (timers w) !! t = Some x) as Hkeep.
  { intros t x Ht. rewrite lookup_insert_ne; [done|].
    apply Ia in Ht. lia. }
  split; [|split; [|split]].
  - intros t x. destruct (decide (t = next_id w)) as [->|Hne]; [lia|].
    rewrite lookup_insert_ne by done. intros ?%Ia. lia.
  - intros tok pending Hin. destruct (Ib _ _ Hin) as [cmd Hc].
    exists cmd. by apply Hkeep.
  - intros t Ht. by apply Hkeep, Ic.
  - intros p t Hin. destruct (Id _ _ Hin) as [Hlt [Hn|Hs]].
    + split; [lia|]. left. rewrite lookup_insert_ne; [done|lia].
    + split; [lia|]. right. by apply Hkeep.
Qed.

Lemma agree_delete ls t w :
  agree_with ls w ->
  match timers w !! t with
  | Some (RequestTimeout tok _ _) =>
      forall pending, (tok, pending) ∉ pendingRequests w
  | Some HeartbeatTick => heartbeatTimer w <> Some t
  | _ => True
  end ->
  agree_with ls (with_timers (delete t (timers w)) w).
Proof.
  intros (Ia & Ib & Ic & Id) Hfree. unfold agree_with. wsimpl.
  split; [|split; [|split]].
  - intros t' x. rewrite lookup_delete. case_decide; [done|]. apply Ia.
  - intros tok pending Hin. destruct (Ib _ _ Hin) as [cmd Hc].
    exists cmd. rewrite lookup_delete. case_decide as Heq; [|done].
    subst t. rewrite Hc in Hfree. by destruct (Hfree pending).
  - intros t' Ht. rewrite lookup_delete. case_decide as Heq; [|by apply Ic].
    subst t'. rewrite (Ic _ Ht) in Hfree. done.
  - intros p t' Hin. destruct (Id _ _ Hin) as [Hlt Hs]. split; [done|].
    rewrite lookup_delete. case_decide; [by left|done].
Qed.

Lemma agree_pending_subset ls (m : list (string * PendingRequest)) w :
  agree_with ls w ->
  (forall entry, entry ∈ m -> entry ∈ pendingRequests w) ->
  agree_with ls (with_pendingRequests m w).
Proof.
  intros (Ia & Ib & Ic & Id) Hsub. agree_split; [exact Ia| |exact Ic|exact Id].
  intros tok pending Hin. by apply Ib, Hsub.
Qed.

Lemma agree_pending_delete ls tok w :
  agree_with ls w ->
  agree_with ls (with_pendingRequests (Map_delete tok (pendingRequests w)) w).
Proof.
  intros Hw. apply agree_pending_subset; [done|].
  intros [k v] Hin. by apply elem_of_Map_delete in Hin as [_ ?].
Qed.

Lemma elem_of_Map_set {V} k (v : V) entry m :
  entry ∈ Map_set k v m -> entry = (k, v) \/ entry ∈ m.
Proof.
  induction m as [|[k0 v0] m IH]; cbn [Map_set].
  - intros ->%list_elem_of_singleton. by left.
  - destruct (String.eqb k k0) eqn:E.
    + apply String.eqb_eq in E as <-.
      intros [->|Hin]%elem_of_cons; [by left|].
      right. by apply list_elem_of_further.
    + intros [->|Hin]%elem_of_cons; [right; apply list_elem_of_here|].
      destruct (IH Hin); [by left|]. right. by apply list_elem_of_further.
Qed.

Lemma Map_get_elem {V} k (v : V) m : Map_get k m = Some v -> (k, v) ∈ m.
Proof.
  induction m as [|[k0 v0] m IH]; [done|]. cbn [Map_get].
  destruct (String.eqb k k0) eqn:E.
  - apply String.eqb_eq in E as <-. intros [= ->]. apply list_elem_of_here.
  - intros Hget. by apply list_elem_of_further, IH.
Qed.

Lemma agree_heartbeat_None ls w :
  agree_with ls w -> agree_with ls (with_heartbeatTimer None w).
Proof. intros (Ia & Ib & Ic & Id). by agree_split. Qed.

(** *** The operations of the client *)

Lemma agree_stopHeartbeat ls w :
  agree_with ls w -> agree_with ls (stopHeartbeat w).
Proof.
  intros Hw. unfold stopHeartbeat.
  destruct (heartbeatTimer w) as [t|] eqn:Ehb; [|done].
  apply (agree_fields _
           (with_timers (delete t (timers (with_heartbeatTimer None w)))
              (with_heartbeatTimer None w))); try done.
  apply agree_delete; [by apply agree_heartbeat_None|].
  wsimpl. destruct Hw as (_ & _ & Ic & _). by rewrite (Ic t Ehb).
Qed.

Lemma agree_startHeartbeat ls w :
  agree_with ls w -> agree_with ls (startHeartbeat w).
Proof.
  intros Hw%agree_stopHeartbeat. unfold startHeartbeat.
  set (w1 := stopHeartbeat w) in *.
  pose proof (agree_insert ls HeartbeatTick w1 Hw) as (Ia & Ib & Ic & Id).
  agree_split; [exact Ia|exact Ib| |exact Id].
  intros t [= <-]. apply lookup_insert_eq.
Qed.

Lemma agree_settle ls tok t w :
  agree_with ls w ->
  (timers w !! t = None
   \/ exists cmd p, timers w !! t = Some (RequestTimeout tok cmd p)) ->
  agree_with ls
    (with_timers (delete t (timers w))
       (with_pendingRequests (Map_delete tok (pendingRequests w)) w)).
Proof.
  intros Hw Ht.
  apply (agree_delete ls t
           (with_pendingRequests (Map_delete tok (pendingRequests w)) w)).
  { by apply agree_pending_delete. }
  wsimpl. destruct Ht as [->|(cmd & p & ->)]; [done|].
  intros pending Hin. by apply elem_of_Map_delete in Hin as [? _].
Qed.

Lemma agree_rejectAll_loop ls reason entries :
  forall w,
    agree_with ls w ->
    (forall tok pending,
       (tok, pending) ∈ entries ->
       timers w !! timer pending = None
       \/ exists cmd p,
            timers w !! timer pending = Some (RequestTimeout tok cmd p)) ->
    agree_with ls (rejectAll_loop entries reason w).
Proof.
  induction entries as [|[nonce pending] rest IH]; intros w Hw Hent; [done|].
  cbn [rejectAll_loop]. apply IH.
  - apply (agree_fields _
             (with_timers (delete (timer pending) (timers w))
                (with_pendingRequests
                   (Map_delete nonce (pendingRequests w)) w))); try done.
    apply agree_settle; [done|]. apply Hent, list_elem_of_here.
  - intros tok pending' Hin. wsimpl. rewrite lookup_delete.
    case_decide; [by left|]. by apply Hent, list_elem_of_further.
Qed.

Lemma agree_rejectAllPending ls reason w :
  agree_with ls w -> agree_with ls (rejectAllPending reason w).
Proof.
  intros Hw. apply agree_rejectAll_loop; [done|].
  intros tok pending Hin. destruct Hw as (_ & Ib & _).
  destruct (Ib _ _ Hin) as [cmd Hc]. right. eauto.
Qed.

Lemma agree_destroy_finish ls w :
  agree_with ls w -> agree_with ls (destroy_finish w).
Proof.
  intros Hw. unfold destroy_finish.
  eapply agree_same; [apply timing_setState|].
  unfold transport_destroy.
  eapply agree_same;
    [eapply timing_trans; [apply timing_drop_socket|by repeat split]|].
  by apply agree_rejectAllPending, agree_stopHeartbeat.
Qed.

Lemma agree_request ls cmd args evt w :
  agree_with ls w -> agree_with ls (snd (request cmd args evt w)).
Proof.
  intros Hw. destruct (decide (state w = ready)) as [Hready|Hnot].
  - destruct (request_ready cmd args evt w Hready) as (effs & -> & _).
    cbn [snd].
    set (tok := uuid (env w) (uuid_ctr w)).
    set (wa := with_next_id (S (next_id w)) w).
    assert (agree_with ls wa) as Ha.
    { eapply agree_same; [|exact Hw]. repeat split; try done. cbn. lia. }
    pose proof (agree_insert ls (RequestTimeout tok cmd (next_id w)) wa Ha)
      as (Ia & Ib & Ic & Id).
    agree_split; [exact Ia| |exact Ic|exact Id].
    intros tok' pending [[= -> ->]|Hin]%elem_of_Map_set.
    + exists cmd. cbn. apply lookup_insert_eq.
    + by apply Ib.
  - unfold request. destruct (decide (state w = ready)); [done|].
    cbn [fresh snd]. eapply agree_same; [|exact Hw].
    repeat split; try done. cbn. lia.
Qed.

Lemma agree_destroy_call ls w :
  agree_with ls w -> agree_with ls (destroy_call w).
Proof.
  intros Hw. unfold destroy_call, destroy_begin, clearActivity.
  destruct (decide (state w = ready)); [|by apply agree_destroy_finish].
  pose proof (agree_request ls Command_SetActivity
                (Some (JObj [("pid", JNum (pid (env w))); ("activity", JNull)]))
                undefined w Hw) as Hr.
  by destruct (request _ _ _ w).
Qed.

Lemma agree_ping ls w : agree_with ls w -> agree_with ls (fst (ping w)).
Proof.
  intros Hw. unfold ping. destruct (transport_connected w); [|done].
  cbn [randomUUID]. eapply agree_same; [apply timing_send|].
  eapply agree_same; [|exact Hw]. by repeat split.
Qed.

Lemma agree_onReady ls data p t w :
  agree_with ls w -> (p, t) ∈ ls ++ readyOnce w ->
  agree_with ls (onReady data (p, t) w).
Proof.
  intros Hw Hin. unfold onReady.
  apply (agree_same ls (startHeartbeat (setState ready (clearTimeout t w))));
    [by repeat split|].
  apply agree_startHeartbeat.
  apply (agree_same ls (clearTimeout t w)); [apply timing_setState|].
  apply (agree_fields _ (with_timers (delete t (timers w)) w)); try done.
  apply agree_delete; [done|].
  destruct Hw as (_ & _ & _ & Id). by destruct (Id p t Hin) as [_ [->| ->]].
Qed.

Lemma agree_fold_onReady ls data todo :
  forall acc,
    agree_with ls acc -> (forall x, x ∈ todo -> x ∈ ls) ->
    agree_with ls (foldl (fun acc listener => onReady data listener acc)
                     acc todo).
Proof.
  induction todo as [|[p t] todo IH]; intros acc Hacc Hsub; [done|].
  cbn [foldl]. apply IH.
  - apply agree_onReady; [done|]. apply elem_of_app. left.
    apply Hsub, list_elem_of_here.
  - intros x Hx. by apply Hsub, list_elem_of_further.
Qed.

Lemma agree_emit_ready data w :
  timers_agree w -> timers_agree (emit_ready data w).
Proof.
  intros Hw. unfold emit_ready.
  apply (agree_weaken [] (readyOnce w)). cbn [app].
  apply agree_fold_onReady; [|done].
  destruct Hw as (Ia & Ib & Ic & Id). agree_split; [done..|].
  intros p t Hin. apply (Id p t). cbn [app]. by rewrite app_nil_r in Hin.
Qed.

Lemma agree_route_frame evt nonce data cmd w :
  timers_agree w -> timers_agree (fst (route_frame evt nonce data cmd w)).
Proof.
  intros Hw. unfold route_frame.
  destruct (strict_eq_str evt RPCEvent_Ready).
  { by apply agree_emit_ready. }
  destruct (strict_eq_str evt RPCEvent_Error && negb (truthy nonce)).
  { unfold bind, lift, lift_outcome.
    destruct (getprop data "message"); [|done].
    destruct (getprop data "code"); [|done]. done. }
  destruct (if truthy nonce then pending_get nonce w else None)
    as [pending|] eqn:Eget.
  - assert (exists k, nonce = Some (JStr k)
                      /\ Map_get k (pendingRequests w) = Some pending)
      as (k & -> & Hget).
    { destruct (truthy nonce); [|done].
      destruct nonce as [[]|]; try done. eauto. }
    assert (timers_agree
              (clearTimeout (timer pending) (pending_delete (Some (JStr k)) w)))
      as Hw1.
    { apply (agree_fields _
               (with_timers (delete (timer pending) (timers w))
                  (with_pendingRequests
                     (Map_delete k (pendingRequests w)) w))); try done.
      apply agree_settle; [done|]. right.
      destruct Hw as (_ & Ib & _).
      destruct (Ib _ _ (Map_get_elem _ _ _ Hget)) as [c Hc]. eauto. }
    unfold bind, lift, lift_outcome. cbn [fst].
    destruct (strict_eq_str evt RPCEvent_Error).
    + destruct (getprop data "message"); [|done].
      destruct (getprop data "code"); [|done]. done.
    + done.
  - destruct (strict_eq_str cmd Command_Dispatch && truthy evt); cbn [fst];
      [|done].
    eapply agree_same; [|exact Hw]. by repeat split.
Qed.

Lemma agree_onPacket op raw w :
  timers_agree w -> timers_agree (fst (onPacket op raw w)).
Proof.
  intros Hw. unfold onPacket.
  destruct (op =? OpCode_Close).
  { unfold bind, lift, lift_outcome.
    destruct (getprop (Some raw) "message"); [|done].
    cbn [fst]. apply agree_destroy_call. done. }
  destruct (op =? OpCode_Ping).
  { eapply agree_same; [apply timing_send|done]. }
  destruct (negb (op =? OpCode_Frame)); [done|].
  unfold bind at 1, lift_outcome at 1.
  destruct (getprop (Some raw) "evt") as [evt|]; [|done].
  unfold bind at 1, lift_outcome at 1.
  destruct (getprop (Some raw) "nonce") as [nonce|]; [|done].
  unfold bind at 1, lift_outcome at 1.
  destruct (getprop (Some raw) "data") as [data|]; [|done].
  unfold bind at 1, lift_outcome at 1.
  destruct (getprop (Some raw) "cmd") as [cmd|]; [|done].
  by apply agree_route_frame.
Qed.

Lemma agree_processBuffer_loop fuel :
  forall w,
    timers_agree w ->
    timers_agree
      (processBuffer_loop buffer with_buffer (Some packet_handler) fuel w).
Proof.
  induction fuel as [|fuel IH]; intros w Hw; [done|].
  cbn [processBuffer_loop]. cbv zeta.
  repeat case_match; try done; apply IH; try done.
  by apply agree_onPacket.
Qed.

Lemma agree_on_data chunk w : timers_agree w -> timers_agree (on_data chunk w).
Proof.
  intros Hw. unfold on_data, onData, processBuffer.
  by apply agree_processBuffer_loop.
Qed.

Lemma agree_onTransportClose ls w :
  agree_with ls w -> agree_with ls (onTransportClose w).
Proof.
  intros Hw. unfold onTransportClose. cbv zeta.
  assert (agree_with ls (rejectAllPending "Transport connection closed."
                           (stopHeartbeat w))) as Hw1
    by by apply agree_rejectAllPending, agree_stopHeartbeat.
  case_match; [done|].
  eapply agree_same; [|exact Hw1].
  eapply timing_trans; [apply timing_setState|by repeat split].
Qed.

Lemma agree_login_resume id w :
  timers_agree w -> timers_agree (fst (login_resume id w)).
Proof.
  intros Hw. unfold login_resume.
  pose proof (timing_connect None (connectionTimeout (options w)) w) as Hc.
  destruct (connect None (connectionTimeout (options w)) w) as [w1 [[]|e]];
    cbn [fst] in *.
  - assert (timers_agree (setState connected w1)) as Hw2.
    { eapply agree_same; [apply timing_setState|].
      by eapply agree_same. }
    set (w2 := setState connected w1) in *.
    set (w3 := with_next_id (S (next_id w2)) w2).
    assert (timers_agree w3) as Hw3.
    { eapply agree_same; [|exact Hw2]. repeat split; try done. cbn. lia. }
    pose proof (agree_insert [] (HandshakeTimeout (next_id w2)) w3 Hw3)
      as (Ia & Ib & Ic & Id).
    cbn [fresh setTimeout].
    match goal with
    | |- context [send ?op ?p ?w5] =>
        destruct (send_world op p w5) as (effs & Hs & _);
        destruct (send op p w5) as [w6 [[]|err]]
    end; cbn [fst] in *; subst w6;
      (agree_split; [exact Ia|exact Ib|exact Ic|]);
      intros p t Hin; cbn [app] in Hin; wsimpl in Hin;
      apply elem_of_app in Hin as [Hin|[= -> ->]%list_elem_of_singleton];
      try (by apply (Id p t));
      (split; [cbn; lia|right; apply lookup_insert_eq]).
  - eapply agree_same; [apply timing_setState|]. by eapply agree_same.
Qed.

Lemma agree_fire t w : timers_agree w -> timers_agree (fire t w).
Proof.
  intros Hw. unfold fire.
  destruct (timers w !! t) as [[nonce cmd p|p| |]|] eqn:Et; [| | | |done].
  - apply (agree_fields _
             (with_timers (delete t (timers w))
                (with_pendingRequests
                   (Map_delete nonce (pendingRequests w)) w))); try done.
    apply agree_settle; [done|]. right. eauto.
  - apply agree_destroy_call.
    apply (agree_fields _ (with_timers (delete t (timers w)) w)); try done.
    apply agree_delete; [done|]. by rewrite Et.
  - by apply agree_ping.
  - apply agree_destroy_finish. apply agree_delete; [done|]. by rewrite Et.
Qed.

Lemma agree_step w w' : step w w' -> timers_agree w -> timers_agree w'.
Proof.
  destruct 1; intros Hw.
  - unfold login_begin. case_match; cbn [fst]; [|done].
    eapply agree_same; [apply timing_setState|].
    eapply agree_same; [|exact Hw]. by repeat split.
  - by apply agree_login_resume.
  - by apply agree_request.
  - by apply agree_ping.
  - by apply agree_destroy_call.
  - unfold destroy_flush. cbn [setTimeout fresh snd].
    eapply agree_same; [|apply (agree_insert [] FlushDelay w Hw)].
    by repeat split.
  - by apply agree_destroy_finish.
  - by apply agree_on_data.
  - unfold on_close. apply agree_onTransportClose.
    eapply agree_same; [|exact Hw]. by repeat split.
  - unfold socket_breaks. case_match; [|done].
    eapply agree_same; [|exact Hw]. by repeat split.
  - by apply agree_fire.
Qed.

Lemma reachable_timers_agree o e w : reachable o e w -> timers_agree w.
Proof.
  unfold reachable. intros Hrun.
  eapply (rtc_ind_r (fun w => timers_agree w));
    [|intros w1 w2 _ Hstep IH|exact Hrun].
  - agree_split; try done; by intros ? ? ?%elem_of_nil.
  - by eapply agree_step.
Qed.
End TimerFacts.

(** ** The heartbeat of a ready client *)

Section HeartbeatFacts.
Context `{Platform}.
Implicit Types w : World.

Lemma beating_calm w w' :
  state w' = state w -> heartbeatTimer w' = heartbeatTimer w ->
  beating w -> beating w'.
Proof. unfold beating. by intros -> ->. Qed.

Lemma beating_not_ready w : state w <> ready -> beating w.
Proof. by intros Hne Hst. Qed.

Lemma beating_send op payload w : beating w -> beating (fst (send op payload w)).
Proof. destruct (send_world op payload w) as (effs & -> & _). done. Qed.

Lemma beating_request cmd args evt w :
  beating w -> beating (snd (request cmd args evt w)).
Proof.
  intros Hw. destruct (decide (state w = ready)) as [Hready|Hnot].
  - by destruct (request_ready cmd args evt w Hready) as (effs & -> & _).
  - unfold request. by destruct (decide (state w = ready)).
Qed.

Lemma beating_destroy_finish w : beating (destroy_finish w).
Proof.
  apply beating_not_ready.
  destruct (destroy_finish_spec w) as (_ & _ & _ & _ & -> & _). done.
Qed.

Lemma beating_destroy_call w : beating w -> beating (destroy_call w).
Proof.
  intros Hw. unfold destroy_call, destroy_begin, clearActivity.
  destruct (decide (state w = ready)); [|apply beating_destroy_finish].
  pose proof (beating_request Command_SetActivity
                (Some (JObj [("pid", JNum (pid (env w))); ("activity", JNull)]))
                undefined w Hw) as Hr.
  by destruct (request _ _ _ w).
Qed.

Lemma beating_ping w : beating w -> beating (fst (ping w)).
Proof.
  intros Hw. unfold ping. destruct (transport_connected w); [|done].
  cbn [randomUUID]. by apply beating_send.
Qed.

Lemma heartbeat_startHeartbeat w :
  heartbeatTimer (startHeartbeat w) = Some (next_id (stopHeartbeat w))
  /\ state (startHeartbeat w) = state w.
Proof.
  unfold startHeartbeat, stopHeartbeat.
  destruct (heartbeatTimer w); wsimpl; done.
Qed.

Lemma beating_onReady data listener w : beating (onReady data listener w).
Proof.
  destruct listener as [p t]. unfold onReady. intros _. wsimpl.
  destruct (heartbeat_startHeartbeat (setState ready (clearTimeout t w)))
    as [-> _]. eauto.
Qed.

Lemma beating_emit_ready data w : beating w -> beating (emit_ready data w).
Proof.
  intros Hw. unfold emit_ready.
  assert (beating (with_readyOnce [] (emit (EvReady data) w))) as Hacc by done.
  revert Hacc. generalize (with_readyOnce [] (emit (EvReady data) w)).
  induction (readyOnce w) as [|l ls IH]; intros acc Hacc; [done|].
  cbn [foldl]. apply IH, beating_onReady.
Qed.

Lemma beating_route_frame evt nonce data cmd w :
  beating w -> beating (fst (route_frame evt nonce data cmd w)).
Proof.
  intros Hw. unfold route_frame.
  destruct (strict_eq_str evt RPCEvent_Ready).
  { by apply beating_emit_ready. }
  destruct (strict_eq_str evt RPCEvent_Error && negb (truthy nonce)).
  { unfold bind, lift, lift_outcome.
    destruct (getprop data "message"); [|done].
    destruct (getprop data "code"); [|done]. done. }
  destruct (if truthy nonce then pending_get nonce w else None) as [pending|].
  - assert (beating (clearTimeout (timer pending) (pending_delete nonce w)))
      as Hw1.
    { unfold pending_delete. by repeat case_match. }
    unfold bind, lift, lift_outcome. cbn [fst].
    destruct (strict_eq_str evt RPCEvent_Error).
    + destruct (getprop data "message"); [|done].
      destruct (getprop data "code"); [|done]. done.
    + done.
  - by destruct (strict_eq_str cmd Command_Dispatch && truthy evt).
Qed.

Lemma beating_onPacket op raw w :
  beating w -> beating (fst (onPacket op raw w)).
Proof.
  intros Hw. unfold onPacket.
  destruct (op =? OpCode_Close).
  { unfold bind, lift, lift_outcome.
    destruct (getprop (Some raw) "message"); [|done].
    cbn [fst]. by apply beating_destroy_call. }
  destruct (op =? OpCode_Ping); [by apply beating_send|].
  destruct (negb (op =? OpCode_Frame)); [done|].
  unfold bind at 1, lift_outcome at 1.
  destruct (getprop (Some raw) "evt") as [evt|]; [|done].
  unfold bind at 1, lift_outcome at 1.
  destruct (getprop (Some raw) "nonce") as [nonce|]; [|done].
  unfold bind at 1, lift_outcome at 1.
  destruct (getprop (Some raw) "data") as [data|]; [|done].
  unfold bind at 1, lift_outcome at 1.
  destruct (getprop (Some raw) "cmd") as [cmd|]; [|done].
  by apply beating_route_frame.
Qed.

Lemma beating_processBuffer_loop fuel :
  forall w,
    beating w ->
    beating (processBuffer_loop buffer with_buffer (Some packet_handler) fuel w).
Proof.
  induction fuel as [|fuel IH]; intros w Hw; [done|].
  cbn [processBuffer_loop]. cbv zeta.
  repeat case_match; try done; apply IH; try done.
  by apply beating_onPacket.
Qed.

Lemma state_onTransportClose w : state (onTransportClose w) = disconnected.
Proof.
  unfold onTransportClose. cbv zeta. case_match; [done|].
  cbn. apply state_setState.
Qed.

Lemma state_login_resume id w :
  state (fst (login_resume id w)) <> ready.
Proof.
  unfold login_resume.
  destruct (connect None (connectionTimeout (options w)) w) as [w1 [[]|e]];
    cbn [fst].
  - cbn [fresh setTimeout].
    match goal with
    | |- context [send ?op ?p ?w5] =>
        destruct (send_world op p w5) as (effs & Hs & _);
        destruct (send op p w5) as [w6 [[]|err]]
    end; cbn [fst] in *; subst w6; wsimpl; by rewrite state_setState.
  - by rewrite state_setState.
Qed.

Lemma beating_fire t w : beating w -> beating (fire t w).
Proof.
  intros Hw. unfold fire.
  destruct (timers w !! t) as [[nonce cmd p|p| |]|]; [done| | | |done].
  - by apply beating_destroy_call.
  - by apply beating_ping.
  - apply beating_destroy_finish.
Qed.

Lemma beating_step w w' : step w w' -> beating w -> beating w'.
Proof.
  destruct 1; intros Hw.
  - unfold login_begin. case_match; cbn [fst]; [|done].
    apply beating_not_ready. by rewrite state_setState.
  - apply beating_not_ready, state_login_resume.
  - by apply beating_request.
  - by apply beating_ping.
  - by apply beating_destroy_call.
  - done.
  - apply beating_destroy_finish.
  - unfold on_data, onData, processBuffer.
    by apply beating_processBuffer_loop.
  - apply beating_not_ready. unfold on_close.
    by rewrite state_onTransportClose.
  - unfold socket_breaks. by case_match.
  - by apply beating_fire.
Qed.

Lemma reachable_beating o e w : reachable o e w -> beating w.
Proof.
  unfold reachable. intros Hrun.
  eapply (rtc_ind_r (fun w => beating w));
    [|intros w1 w2 _ Hstep IH|exact Hrun].
  - done.
  - by eapply beating_step.
Qed.
End HeartbeatFacts.

(** ** Logging in *)

Section LoginFacts.
Context `{Platform}.
Implicit Types w : World.

Lemma tryPath_Ok_socket index timeout remaining :
  forall w,
    snd (tryPath index timeout remaining w) = Ok tt ->
    exists s, socket (fst (tryPath index timeout remaining w))
              = Some {| sock_id := s; destroyed := false |}.
Proof.
  induction remaining as [|path rest IH]; intros w; [done|].
  cbn [tryPath]. destruct (String.eqb path ""); [done|].
  unfold net_connect. wsimpl.
  destruct (net _ _) as [|code message|]; cbn [fst snd]; [eauto| |done].
  destruct (String.eqb code "ENOENT" || String.eqb code "ECONNREFUSED");
    [apply IH|done].
Qed.

Lemma connect_scan_outcome timeout todo :
  forall i w,
    let r := connect_scan timeout todo i w in
    match snd r with
    | Ok _ => exists s, socket (fst r) = Some {| sock_id := s; destroyed := false |}
    | Throw e =>
        e = ConnectionError
              ("Could not connect to Discord. No running instance found (scanned "
               +:+ pretty (MAX_PIPE_INDEX + 1)%nat +:+ " pipes).")
    end.
Proof.
  induction todo as [|todo IH]; intros i w; [done|].
  cbn [connect_scan]. unfold tryConnect. cbv zeta.
  pose proof (tryPath_Ok_socket i timeout (getPipePaths (env w) i) w) as Hs.
  destruct (tryPath i timeout (getPipePaths (env w) i) w) as [w' [[]|e]];
    cbn [fst snd] in *; [by apply Hs|apply IH].
Qed.

(** Whatever the attempts on the single pipes ran into, the search fails
    with one and the same error, and it succeeds with a live socket. *)
Lemma connect_outcome timeout w :
  let r := connect None timeout w in
  match snd r with
  | Ok _ => exists s, socket (fst r) = Some {| sock_id := s; destroyed := false |}
  | Throw e =>
      e = ConnectionError
            "Could not connect to Discord. No running instance found (scanned 10 pipes)."
  end.
Proof.
  cbv zeta. unfold connect.
  pose proof (connect_scan_outcome timeout (MAX_PIPE_INDEX + 1) 0 w) as Ho.
  cbv zeta in Ho. destruct (snd (connect_scan _ _ _ _)); [done|].
  rewrite Ho. change (MAX_PIPE_INDEX + 1)%nat with 10%nat.
  by rewrite scanned_message.
Qed.

(** The [ready] event with one listener, no heartbeat and a state other
    than [ready]. *)
Lemma emit_ready_single data p t w :
  readyOnce w = [(p, t)] -> heartbeatTimer w = None -> state w <> ready ->
  let w' := emit_ready data w in
  log w' = log w ++ [Emit (EvReady data); ClearTimeout t;
                     Emit (EvStateChange ready);
                     SetInterval (next_id w) (heartbeatInterval (options w));
                     Resolve p data]
  /\ state w' = ready
  /\ heartbeatTimer w' = Some (next_id w)
  /\ timers w' = <[next_id w := HeartbeatTick]> (delete t (timers w))
  /\ readyOnce w' = []
  /\ pendingRequests w' = pendingRequests w
  /\ socket w' = socket w.
Proof.
  intros Hr Hhb Hst. cbv zeta. unfold emit_ready. rewrite Hr. cbn [foldl].
  unfold onReady, startHeartbeat, stopHeartbeat, setState. wsimpl.
  destruct (decide (state w = ready)) as [|_]; [done|]. wsimpl.
  rewrite Hhb. wsimpl. rewrite <- !app_assoc. done.
Qed.

(** X3. The first [login] of a new client, when the search finds a pipe:
    the call returns a promise, the state is [connected], the socket is
    live, the handshake timer is the only timer and the handshake has been
    written. When the READY frame arrives, the handshake timer is cleared,
    the state becomes [ready], the heartbeat interval is set with the
    client's [heartbeatInterval], and the promise is resolved with the
    frame's data, in this order; the states announced since the client was
    made are [connecting], [connected], [ready]. *)
Theorem first_login_reaches_ready o e id raw :
  let w1 := fst (login_begin id (new_Client o e)) in
  snd (connect None (connectionTimeout (options w1)) w1) = Ok tt ->
  frame_member "evt" raw = Some (JStr RPCEvent_Ready) ->
  exists p t hb w2 s,
    login_resume id w1 = (w2, Ok p)
    /\ state w2 = connected
    /\ socket w2 = Some {| sock_id := s; destroyed := false |}
    /\ timers w2 = {[t := HandshakeTimeout p]}
    /\ match encode OpCode_Handshake (handshake_payload id) with
       | Ok bs => last (log w2) = Some (SocketWrite s bs)
       | Throw err => last (log w2) = Some (Reject p err)
       end
    /\ let r := onPacket OpCode_Frame raw w2 in
       snd r = Ok tt
       /\ effects_since w2 (fst r)
          = [Emit (EvReady (frame_member "data" raw)); ClearTimeout t;
             Emit (EvStateChange ready);
             SetInterval hb (default HEARTBEAT_INTERVAL (heartbeatInterval_opt o));
             Resolve p (frame_member "data" raw)]
       /\ state (fst r) = ready
       /\ heartbeatTimer (fst r) = Some hb
       /\ timers (fst r) = {[hb := HeartbeatTick]}
       /\ readyOnce (fst r) = []
       /\ stateChanges (log (fst r)) = [connecting; connected; ready].
Proof.
  intros w1 Hc Hevt.
  assert (w1 = emit (EvStateChange connecting)
                 (with_state connecting
                    (with_clientId (Some id) (new_Client o e)))) as Hw1.
  { subst w1. unfold login_begin, setState. cbn [state new_Client with_clientId].
    destruct (decide (disconnected = disconnected)) as [_|]; [|done].
    cbn [fst]. by destruct (decide (disconnected = connecting)). }
  unfold login_resume.
  pose proof (timing_connect None (connectionTimeout (options w1)) w1)
    as (Ct & Cp & Ch & Cr & Cn).
  destruct (connect_quiet None (connectionTimeout (options w1)) w1)
    as (effs & Clog & _ & Cst & Cstate & Copt & _).
  pose proof (connect_outcome (connectionTimeout (options w1)) w1) as Co.
  cbv zeta in Co.
  destruct (connect None (connectionTimeout (options w1)) w1) as [wc [[]|err]];
    cbn [fst snd] in *; [|done].
  destruct Co as [s Hsock].
  assert (setState connected wc
          = emit (EvStateChange connected) (with_state connected wc)) as ->.
  { unfold setState. rewrite Cstate, Hw1. cbn [state emit perform with_log with_state].
    by destruct (decide (connecting = connected)). }
  cbn [fresh setTimeout]. wsimpl.
  change (object_literal _) with (handshake_payload id).
  unfold send. wsimpl. rewrite Hsock. cbn [destroyed sock_id].
  assert (options wc = options (new_Client o e)) as Hopt
    by by rewrite Copt, Hw1.
  assert (timers wc = ∅) as Htm by by rewrite Ct, Hw1.
  assert (readyOnce wc = []) as Hro by by rewrite Cr, Hw1.
  assert (heartbeatTimer wc = None) as Hhb by by rewrite Ch, Hw1.
  assert (stateChanges (log wc) = [connecting]) as Hsc.
  { rewrite Clog, stateChanges_app, Cst, Hw1. done. }
  destruct raw as [| | | | |members]; try discriminate.
  cbn [frame_member] in *.
  destruct (encode OpCode_Handshake (handshake_payload id)) as [bs|err];
    (eexists _, _, _, _, s; split; [reflexivity|]);
    (split; [done|]); (split; [done|]);
    (split; [wsimpl; rewrite Htm; apply insert_empty|]);
    (split; [wsimpl; by rewrite last_snoc|]);
    rewrite onPacket_frame; unfold route_frame; rewrite Hevt;
    change (strict_eq_str (Some (JStr RPCEvent_Ready)) RPCEvent_Ready) with true;
    cbv iota; unfold lift; cbn [fst snd];
    match goal with
    | |- context [emit_ready ?d ?w] =>
        destruct (emit_ready_single d (next_id wc) (S (next_id wc)) w)
          as (El & Es & Ehb & Et & Er & _);
        [wsimpl; by rewrite Hro|wsimpl; exact Hhb|wsimpl; discriminate|]
    end;
    (split; [done|]);
    (split; [unfold effects_since; rewrite El; wsimpl;
             by rewrite drop_app_length, Hopt|]);
    (split; [done|]); (split; [exact Ehb|]);
    (split; [rewrite Et; wsimpl;
             rewrite Htm, delete_insert_id by apply lookup_empty;
             apply insert_empty|]);
    (split; [done|]);
    rewrite El; wsimpl; rewrite <- !app_assoc, !stateChanges_app, Hsc;
    reflexivity.
Qed.
End LoginFacts.

(** ** Failures and the end of a session *)

Section EndFacts.
Context `{Platform}.
Implicit Types w : World.

(** X4. When the search for a pipe fails, [login] fails with the error of
    the search, which is always the one that says ten pipes were scanned,
    whatever the single attempts ran into. The client is [disconnected]
    again, the announcements of the whole call are [connecting] and
    [disconnected], no timer, request or listener is left behind, and
    [login] can be called again. *)
Theorem failed_login_resets_client id w err :
  state w = disconnected ->
  let w1 := fst (login_begin id w) in
  snd (connect None (connectionTimeout (options w1)) w1) = Throw err ->
  exists w',
    login_resume id w1 = (w', Throw err)
    /\ err = ConnectionError
               "Could not connect to Discord. No running instance found (scanned 10 pipes)."
    /\ state w' = disconnected
    /\ stateChanges (effects_since w w') = [connecting; disconnected]
    /\ same_timing w w'
    /\ snd (login_begin id w') = Ok tt.
Proof.
  intros Hst w1 Hc.
  assert (w1 = emit (EvStateChange connecting)
                 (with_state connecting (with_clientId (Some id) w))) as Hw1.
  { subst w1. unfold login_begin, setState.
    destruct (decide (state w = disconnected)) as [_|]; [|done].
    cbn [fst state with_clientId]. rewrite Hst.
    by destruct (decide (disconnected = connecting)). }
  unfold login_resume.
  pose proof (timing_connect None (connectionTimeout (options w1)) w1) as Ct.
  destruct (connect_quiet None (connectionTimeout (options w1)) w1)
    as (effs & Clog & _ & Cst & Cstate & _).
  pose proof (connect_outcome (connectionTimeout (options w1)) w1) as Co.
  cbv zeta in Co.
  destruct (connect None (connectionTimeout (options w1)) w1) as [wc [[]|err']];
    cbn [fst snd] in *; [done|].
  injection Hc as ->. exists (setState disconnected wc).
  split; [done|]. split; [done|].
  split; [apply state_setState|].
  split.
  { unfold effects_since. rewrite setState_log, Clog, Cstate, Hw1. wsimpl.
    rewrite <- !app_assoc, drop_app_length, !stateChanges_app, Cst.
    by destruct (decide (connecting = disconnected)). }
  split.
  { eapply timing_trans; [|apply timing_setState].
    eapply timing_trans; [|exact Ct]. rewrite Hw1. by repeat split. }
  unfold login_begin. rewrite state_setState.
  by destruct (decide (disconnected = disconnected)).
Qed.

(** Heartbeat and registry after [stopHeartbeat()] and
    [rejectAllPending(reason)]. *)
Lemma stop_reject_spec reason w :
  let w' := rejectAllPending reason (stopHeartbeat w) in
  heartbeatTimer w' = None /\ pendingRequests w' = []
  /\ socket w' = socket w /\ buffer w' = buffer w /\ state w' = state w
  /\ log w' = log w
              ++ match heartbeatTimer w with
                 | Some t => [ClearInterval t]
                 | None => []
                 end
              ++ flat_map (fun entry =>
                             [ClearTimeout (timer entry.2);
                              Reject (promise entry.2) (ConnectionError reason)])
                   (pendingRequests w)
  /\ (forall t, timers w !! t = None -> timers w' !! t = None)
  /\ (forall tok pending,
        (tok, pending) ∈ pendingRequests w -> timers w' !! timer pending = None).
Proof.
  cbv zeta. unfold rejectAllPending.
  set (w1 := stopHeartbeat w).
  assert (pendingRequests w1 = pendingRequests w /\ socket w1 = socket w
          /\ buffer w1 = buffer w
          /\ state w1 = state w /\ heartbeatTimer w1 = None
          /\ log w1 = log w ++ match heartbeatTimer w with
                               | Some t => [ClearInterval t]
                               | None => []
                               end
          /\ (forall t, timers w !! t = None -> timers w1 !! t = None))
    as (Hp1 & Hs1 & Hb1 & Hst1 & Hhb1 & Hlog1 & Htm1).
  { subst w1. unfold stopHeartbeat.
    destruct (heartbeatTimer w) as [t|] eqn:Ehb; wsimpl.
    - repeat split; try done.
      intros t' Hn. rewrite lookup_delete. by case_decide.
    - rewrite app_nil_r. repeat split; try done. }
  destruct (rejectAll_loop_spec (pendingRequests w1) reason w1)
    as (Hlog2 & Htm2 & Hpend2 & Hst2 & Hhb2 & Hsock2 & Hbuf2).
  cbv zeta in *. rewrite Hlog2, Hpend2, Hst2, Hhb2, Hsock2, Hbuf2, Htm2.
  split; [done|]. split.
  { apply Map_delete_covered. intros k v Hin.
    apply list_elem_of_fmap. by exists (k, v). }
  split; [done|]. split; [done|]. split; [done|]. split.
  { by rewrite Hlog1, Hp1, <- app_assoc. }
  split.
  - intros t Ht. by apply foldl_delete_None, Htm1.
  - intros tok pending Hin. rewrite Hp1. by apply (foldl_delete_elem _ _ tok).
Qed.

Lemma destroy_finish_timers w t :
  timers w !! t = None -> timers (destroy_finish w) !! t = None.
Proof.
  intros Ht. unfold destroy_finish.
  destruct (stop_reject_spec "Client destroyed." w) as (_ & _ & _ & _ & _ & _ & Htm & _).
  cbv zeta in Htm. specialize (Htm t Ht).
  unfold setState, transport_destroy, drop_socket.
  repeat case_match; wsimpl; done.
Qed.

(** X5. When the handshake timer fires before the client is [ready], the
    promise of [login] is rejected with a [TimeoutError] and the client is
    torn down within that callback: heartbeat cleared, every pending
    request rejected, socket destroyed, state [disconnected]. *)
Theorem handshake_timeout_tears_down t p w :
  timers w !! t = Some (HandshakeTimeout p) ->
  state w <> ready ->
  let w' := fire t w in
  effects_since w w'
  = Reject p (TimeoutError "Handshake timed out.") :: teardown_effects w
  /\ state w' = disconnected
  /\ socket w' = None
  /\ pendingRequests w' = []
  /\ heartbeatTimer w' = None
  /\ timers w' !! t = None.
Proof.
  intros Ht Hst. cbv zeta. unfold fire. rewrite Ht.
  unfold destroy_call, destroy_begin. wsimpl.
  destruct (decide (state w = ready)) as [|_]; [done|].
  match goal with
  | |- context [destroy_finish ?w1] =>
      destruct (destroy_finish_spec w1)
        as (Hhb & Hp & Hs & _ & Hstate & Hlog & _);
      pose proof (destroy_finish_timers w1 t) as Htm
  end.
  cbv zeta in *. split.
  { unfold effects_since. rewrite Hlog. wsimpl.
    by rewrite <- app_assoc, drop_app_length. }
  repeat split; try done. apply Htm. wsimpl. apply lookup_delete_eq.
Qed.

(** X6. When the socket closes, the transport forgets it and empties its
    buffer, and the client clears the heartbeat interval, cancels the
    timeout of every pending request and rejects it with
    [ConnectionError("Transport connection closed.")], in insertion order;
    unless the state already was [disconnected] it announces the state
    [disconnected] and then emits [disconnected] with the reason
    "Connection closed unexpectedly.". Nothing is written to or done with
    the socket. *)
Theorem transport_close_tears_down w :
  let w' := on_close w in
  socket w' = None /\ buffer w' = []
  /\ heartbeatTimer w' = None /\ pendingRequests w' = []
  /\ state w' = disconnected
  /\ log w' = log w ++ close_effects w
  /\ (forall tok pending,
        (tok, pending) ∈ pendingRequests w -> timers w' !! timer pending = None).
Proof.
  cbv zeta. unfold on_close, onTransportClose. cbv zeta.
  destruct (stop_reject_spec "Transport connection closed."
              (with_buffer [] (with_socket None w)))
    as (Hhb & Hp & Hs & Hb & Hst & Hlog & _ & Htm).
  cbv zeta in *. wsimpl in Hs. wsimpl in Hb. wsimpl in Hst. wsimpl in Hlog.
  wsimpl in Htm.
  set (w2 := rejectAllPending _ _) in *. unfold close_effects.
  rewrite Hst. destruct (decide (state w = disconnected)) as [Hd|Hd].
  - rewrite app_nil_r. repeat split; try done. congruence.
  - unfold setState. rewrite Hst.
    destruct (decide (state w = disconnected)) as [|_]; [done|]. wsimpl.
    rewrite Hlog, <- !app_assoc. by repeat split.
Qed.
End EndFacts.

(** ** Requests and their timers in the runs of a client *)

Section RequestFacts.
Context `{Platform}.
Implicit Types w : World.

(** X7. In every world a client reaches, each pending request has its
    timeout set, with the callback that rejects this very request, and no
    other pending request shares the timer. When the timer fires, the
    entry leaves the registry and the request is rejected with a
    [TimeoutError] that names its command. *)
Theorem pending_request_has_live_timeout o e w tok pending :
  reachable o e w ->
  Map_get tok (pendingRequests w) = Some pending ->
  exists cmd,
    timers w !! timer pending
    = Some (RequestTimeout tok cmd (promise pending))
    /\ (forall tok' pending',
          Map_get tok' (pendingRequests w) = Some pending' ->
          tok' <> tok -> timer pending' <> timer pending)
    /\ let w' := fire (timer pending) w in
       Map_get tok (pendingRequests w') = None
       /\ effects_since w w'
          = [Reject (promise pending)
               (TimeoutError ("Request " +:+ cmd +:+ " timed out."))].
Proof.
  intros Hrun Hget.
  destruct (reachable_timers_agree o e w Hrun) as (_ & Ib & _).
  destruct (Ib _ _ (Map_get_elem _ _ _ Hget)) as [cmd Hc].
  exists cmd. split; [done|]. split.
  - intros tok' pending' Hget' Hne Heq.
    destruct (Ib _ _ (Map_get_elem _ _ _ Hget')) as [cmd' Hc'].
    rewrite Heq, Hc in Hc'. congruence.
  - cbv zeta. unfold fire. rewrite Hc. wsimpl.
    split; [apply Map_get_delete_eq|].
    unfold effects_since. wsimpl. by rewrite drop_app_length.
Qed.

(** X8. In every world a client reaches, a client in the [ready] state
    has a heartbeat interval set. When it fires, the interval stays set;
    with a live socket one Ping with a fresh nonce is written, and without
    one nothing happens at all. *)
Theorem ready_client_has_heartbeat o e w :
  reachable o e w ->
  state w = ready ->
  exists t,
    heartbeatTimer w = Some t
    /\ timers w !! t = Some HeartbeatTick
    /\ timers (fire t w) = timers w
    /\ (transport_connected w = false -> fire t w = w)
    /\ (forall s bs,
          socket w = Some s -> destroyed s = false ->
          encode OpCode_Ping (JObj [("nonce", JStr (uuid (env w) (uuid_ctr w)))])
          = Ok bs ->
          effects_since w (fire t w) = [SocketWrite (sock_id s) bs]).
Proof.
  intros Hrun Hst.
  destruct (reachable_beating o e w Hrun Hst) as [t Ht].
  destruct (reachable_timers_agree o e w Hrun) as (_ & _ & Ic & _).
  exists t. split; [done|]. split; [by apply Ic|].
  unfold fire. rewrite (Ic t Ht). unfold swallow, ping, transport_connected.
  split; [|split].
  - destruct (socket w) as [s|] eqn:Es; [|done].
    destruct (destroyed s) eqn:Ed; [done|]. cbn [negb randomUUID].
    by destruct (timing_send OpCode_Ping
                   (object_literal
                      [("nonce", Some (JStr (uuid (env w) (uuid_ctr w))))])
                   (with_uuid_ctr (S (uuid_ctr w)) w)) as (-> & _).
  - by intros ->.
  - intros s bs Es Ed Henc. rewrite Es, Ed. cbn [negb randomUUID].
    unfold send. wsimpl. rewrite Es, Ed.
    change (object_literal _)
      with (JObj [("nonce", JStr (uuid (env w) (uuid_ctr w)))]).
    rewrite Henc. cbn [fst]. unfold effects_since. wsimpl.
    by rewrite drop_app_length.
Qed.

Lemma request_frame_members cmd args evt tok :
  let raw := request_frame cmd args evt tok in
  frame_member "cmd" raw = Some (JStr cmd)
  /\ frame_member "args" raw = args
  /\ frame_member "evt" raw = evt
  /\ frame_member "nonce" raw = Some (JStr tok).
Proof. by destruct args, evt. Qed.

(** X9. A request made in the [ready] state over a live socket sets its
    timeout and writes exactly one packet. Read back by a receiving end,
    the bytes give one Frame whose members are the command, the arguments
    and the event of the call and, as nonce, the token under which the
    request is now pending. *)
Theorem request_writes_one_frame cmd args evt w s bs :
  state w = ready ->
  socket w = Some s -> destroyed s = false ->
  let tok := uuid (env w) (uuid_ctr w) in
  let raw := request_frame cmd args evt tok in
  encodes (OpCode_Frame, raw) bs ->
  let (p, w') := request cmd args evt w in
  exists t,
    effects_since w w'
    = [SetTimeout t (connectionTimeout (options w));
       SocketWrite (sock_id s) bs]
    /\ Map_get tok (pendingRequests w') = Some {| promise := p; timer := t |}
    /\ rec_process (bs, []) = ([], [(OpCode_Frame, raw)])
    /\ frame_member "cmd" raw = Some (JStr cmd)
    /\ frame_member "args" raw = args
    /\ frame_member "evt" raw = evt
    /\ frame_member "nonce" raw = Some (JStr tok).
Proof.
  intros Hst Es Ed tok raw [Henc Hrt]. cbn [fst snd] in Henc, Hrt.
  unfold request. destruct (decide (state w = ready)) as [_|]; [|done].
  cbn [randomUUID fresh setTimeout]. unfold send. wsimpl.
  rewrite Es, Ed. fold tok. fold (request_frame cmd args evt tok). fold raw.
  rewrite Henc. exists (S (next_id w)).
  split. { unfold effects_since. wsimpl.
           by rewrite <- app_assoc, drop_app_length. }
  split. { wsimpl. apply Map_get_set_eq. }
  split. { by apply (rec_process_whole OpCode_Frame raw bs []). }
  apply request_frame_members.
Qed.

(** X10. A request made in the [ready] state while the socket is gone or
    destroyed is rejected at once with the [ConnectionError] of [send];
    its registry entry and its timeout stay behind until the timeout
    fires, which removes the entry. *)
Theorem request_without_transport cmd args evt w :
  state w = ready ->
  transport_connected w = false ->
  let tok := uuid (env w) (uuid_ctr w) in
  let (p, w') := request cmd args evt w in
  exists t,
    effects_since w w'
    = [SetTimeout t (connectionTimeout (options w));
       Reject p (ConnectionError
                   "Cannot send data: transport is not connected.")]
    /\ Map_get tok (pendingRequests w') = Some {| promise := p; timer := t |}
    /\ timers w' !! t = Some (RequestTimeout tok cmd p)
    /\ Map_get tok (pendingRequests (fire t w')) = None
    /\ effects_since w' (fire t w')
       = [Reject p (TimeoutError ("Request " +:+ cmd +:+ " timed out."))].
Proof.
  intros Hst Hconn tok. unfold request.
  destruct (decide (state w = ready)) as [_|]; [|done].
  cbn [randomUUID fresh setTimeout]. unfold send. wsimpl.
  unfold transport_connected in Hconn. fold tok.
  destruct (socket w) as [s0|]; [destruct (destroyed s0); [|done]|].
  all: exists (S (next_id w)).
  all: split; [unfold effects_since; wsimpl;
               by rewrite <- app_assoc, drop_app_length|].
  all: split; [wsimpl; apply Map_get_set_eq|].
  all: split; [wsimpl; apply lookup_insert_eq|].
  all: unfold fire; wsimpl; rewrite lookup_insert_eq; wsimpl.
  all: split; [apply Map_get_delete_eq|].
  all: unfold effects_since; wsimpl; by rewrite drop_app_length.
Qed.
Lemma Map_delete_absent {V} k (m : list (string * V)) :
  Map_get k m = None -> Map_delete k m = m.
Proof.
  induction m as [|[k0 v0] m IH]; [done|]. cbn [Map_get Map_delete].
  destruct (String.eqb k k0); [done|]. intros Hm. by rewrite IH.
Qed.

Lemma Map_delete_set {V} k (v : V) (m : list (string * V)) :
  Map_get k m = None -> Map_delete k (Map_set k v m) = m.
Proof.
  induction m as [|[k0 v0] m IH]; cbn [Map_get Map_set Map_delete].
  - by rewrite String.eqb_refl.
  - destruct (String.eqb k k0) eqn:E; [done|]. intros Hm.
    cbn [Map_delete]. by rewrite E, IH.
Qed.

(** X11. A request and its response leave nothing behind. In a world a
    client has reached, with the state [ready], a request is made under a
    token that is not in use, and then a Frame of the declared shape with
    that token arrives (its event not READY): the request is settled as the
    frame says, and the registry and the timer table are again what they
    were before the request. *)
Theorem request_response_leaves_nothing o e w cmd args evt raw :
  reachable o e w ->
  state w = ready ->
  let tok := uuid (env w) (uuid_ctr w) in
  tok <> "" ->
  Map_get tok (pendingRequests w) = None ->
  is_RPCFrame raw = true ->
  frame_member "nonce" raw = Some (JStr tok) ->
  strict_eq_str (frame_member "evt" raw) RPCEvent_Ready = false ->
  let (p, w1) := request cmd args evt w in
  let r := onPacket OpCode_Frame raw w1 in
  snd r = Ok tt
  /\ pendingRequests (fst r) = pendingRequests w
  /\ timers (fst r) = timers w
  /\ state (fst r) = ready
  /\ exists t,
       effects_since w1 (fst r)
       = [ClearTimeout t;
          response_settlement raw {| promise := p; timer := t |}].
Proof.
  intros Hrun Hst tok Htok Hfree Hframe Hnonce Hevt.
  destruct (reachable_timers_agree o e w Hrun) as (Ia & _).
  destruct (request_ready cmd args evt w Hst) as (effs & -> & _).
  fold tok. cbv zeta.
  destruct (is_RPCFrame_inv raw Hframe) as (members & d & -> & Hdata).
  cbn [frame_member] in *.
  rewrite onPacket_frame, Hnonce.
  erewrite (route_frame_matched _ tok _ _ _ _ Hevt Htok);
    [|wsimpl; apply Map_get_set_eq|rewrite Hdata; eauto].
  cbn [fst snd]. wsimpl.
  split; [done|]. split; [by apply Map_delete_set|]. split.
  { apply delete_insert_id.
    destruct (timers w !! S (next_id w)) as [task|] eqn:Et; [|done].
    apply Ia in Et. lia. }
  split; [done|]. exists (S (next_id w)).
  unfold effects_since. wsimpl.
  by rewrite <- app_assoc, drop_app_length.
Qed.
End RequestFacts.

(** ** What the client does with the bytes it receives *)

Section ReceiveFacts.
Context `{Platform}.
Implicit Types w : World.

Abbreviation client_loop :=
  (processBuffer_loop buffer with_buffer (Some packet_handler)).

Lemma client_loop_short f w :
  (length (buffer w) < HEADER_SIZE)%nat -> client_loop f w = w.
Proof.
  intros Hb. destruct f as [|f]; [done|]. cbn [processBuffer_loop].
  destruct (Nat.ltb_spec (length (buffer w)) HEADER_SIZE); [done | lia].
Qed.

Lemma client_loop_incomplete f w (hdr part : Buffer) op len :
  buffer w = hdr ++ part ->
  length hdr = HEADER_SIZE ->
  readUInt32LE hdr 0 = Some op ->
  readUInt32LE hdr 4 = Some len ->
  (length part < N.to_nat len)%nat ->
  client_loop f w = w.
Proof.
  intros Hb Hh H0 H4 Hp. destruct f as [|f]; [done|].
  cbn [processBuffer_loop]. rewrite Hb.
  destruct (Nat.ltb_spec (length (hdr ++ part)) HEADER_SIZE); [done|].
  rewrite (read_app _ _ _ _ H0), (read_app _ _ _ _ H4). cbv zeta.
  destruct (Nat.ltb_spec (length (hdr ++ part)) (HEADER_SIZE + N.to_nat len));
    [done|].
  rewrite length_app in *. lia.
Qed.

Lemma client_loop_complete f w (hdr raw rest : Buffer) op len :
  buffer w = hdr ++ raw ++ rest ->
  length hdr = HEADER_SIZE ->
  readUInt32LE hdr 0 = Some op ->
  readUInt32LE hdr 4 = Some len ->
  length raw = N.to_nat len ->
  client_loop (S f) w
  = client_loop f
      match JSON_parse (utf8_decode raw) with
      | Some payload => packet_handler op payload (with_buffer rest w)
      | None => with_buffer rest w
      end.
Proof.
  intros Hb Hh H0 H4 Hr. cbn [processBuffer_loop]. rewrite Hb.
  destruct (Nat.ltb_spec (length (hdr ++ raw ++ rest)) HEADER_SIZE) as [Hlt|_].
  { rewrite length_app in Hlt. lia. }
  rewrite (read_app _ _ _ _ H0), (read_app _ _ _ _ H4). cbv zeta.
  destruct (Nat.ltb_spec (length (hdr ++ raw ++ rest))
              (HEADER_SIZE + N.to_nat len)) as [Hlt|_].
  { rewrite !length_app in Hlt. lia. }
  rewrite <- Hh at 1. rewrite drop_app_length.
  rewrite <- Hr at 1. rewrite take_app_length.
  replace (HEADER_SIZE + N.to_nat len)%nat with (length (hdr ++ raw))
    by (rewrite length_app; lia).
  rewrite app_assoc, drop_app_length. done.
Qed.

Lemma with_buffer_twice b1 b2 w : with_buffer b1 (with_buffer b2 w) = with_buffer b1 w.
Proof. by apply world_ext. Qed.

Lemma with_buffer_same w : with_buffer (buffer w) w = w.
Proof. by apply world_ext. Qed.

Lemma with_buffer_nil w : buffer w = [] -> with_buffer [] w = w.
Proof. intros Hb. rewrite <- Hb at 1. apply with_buffer_same. Qed.

(** The first bytes of a message that is not complete stay where they
    are. *)
Lemma on_data_prefix op payload bs (acc chunk : Buffer) w :
  encode op payload = Ok bs ->
  buffer w = acc ->
  take (length (acc ++ chunk)) bs = acc ++ chunk ->
  (length (acc ++ chunk) < length bs)%nat ->
  on_data chunk w = with_buffer (acc ++ chunk) w.
Proof.
  intros Henc Hb Hpre Hlt. apply encode_Ok in Henc as (-> & Hh & H0 & H4).
  unfold on_data, onData, processBuffer. rewrite Hb. wsimpl.
  destruct (Nat.lt_ge_cases (length (acc ++ chunk)) HEADER_SIZE) as [Hs|Hs].
  { by apply client_loop_short. }
  set (hdr := le32 op ++ _) in *.
  set (data := utf8_encode _) in *.
  assert (acc ++ chunk
          = hdr ++ take (length (acc ++ chunk) - HEADER_SIZE) data) as Hacc.
  { rewrite <- Hpre at 1. rewrite take_app, Hh.
    f_equal. apply take_ge. lia. }
  apply (client_loop_incomplete _ _ hdr
           (take (length (acc ++ chunk) - HEADER_SIZE) data)
           op (N.of_nat (length data))); try done.
  rewrite length_take. rewrite (length_app hdr) in Hlt. lia.
Qed.

Lemma on_data_whole op payload bs (acc chunk : Buffer) w :
  encodes (op, payload) bs ->
  buffer w = acc ->
  acc ++ chunk = bs ->
  on_data chunk w = packet_handler op payload (with_buffer [] w).
Proof.
  intros [Henc Hrt] Hb Hbs. cbn [fst snd] in *.
  apply encode_Ok in Henc as (Hform & Hh & H0 & H4).
  unfold on_data, onData, processBuffer. rewrite Hb, Hbs. wsimpl.
  set (hdr := le32 op ++ _) in *.
  set (data := utf8_encode _) in *.
  rewrite Hform at 1. rewrite length_app, Hh.
  change (HEADER_SIZE + length data)%nat with (S (7 + length data)).
  rewrite (client_loop_complete _ _ hdr data [] op (N.of_nat (length data)))
    by first [done | lia | by cbn [buffer with_buffer]; rewrite app_nil_r].
  unfold round_trips in Hrt. fold data in Hrt. rewrite Hrt.
  rewrite with_buffer_twice.
  apply client_loop_short.
  pose proof (packet_handler_buffer op payload (with_buffer [] w)) as Hle.
  cbn [buffer with_buffer length] in Hle. unfold HEADER_SIZE. lia.
Qed.

Lemma on_data_nils (chunks : list Buffer) w :
  concat chunks = [] -> buffer w = [] ->
  foldl (fun acc chunk => on_data chunk acc) w chunks = w.
Proof.
  intros Hc Hb. induction chunks as [|c cs IH]; [done|].
  cbn [concat] in Hc. apply app_eq_nil in Hc as [-> Hcs]. cbn [foldl].
  replace (on_data [] w) with w; [by apply IH|].
  unfold on_data, onData, processBuffer. rewrite Hb. cbn [app].
  cbn [buffer with_buffer length processBuffer_loop].
  by rewrite <- Hb, with_buffer_same.
Qed.

Lemma buffer_packet_handler_nil op payload w :
  buffer w = [] -> buffer (packet_handler op payload w) = [].
Proof.
  intros Hb. pose proof (packet_handler_buffer op payload w) as Hle.
  rewrite Hb in Hle.
  destruct (buffer (packet_handler op payload w)); [done|]. cbn in Hle. lia.
Qed.

Lemma on_data_from op payload bs (chunks : list Buffer) :
  encodes (op, payload) bs ->
  forall (acc : Buffer) w,
    buffer w = acc ->
    acc ++ concat chunks = bs -> (length acc < length bs)%nat ->
    foldl (fun acc chunk => on_data chunk acc) w chunks
    = packet_handler op payload (with_buffer [] w).
Proof.
  intros Henc.
  induction chunks as [|c cs IH]; intros acc w Hb Hcat Hlt.
  { simpl in Hcat. rewrite app_nil_r in Hcat. subst. lia. }
  simpl in Hcat. cbn [foldl].
  destruct (Nat.lt_ge_cases (length (acc ++ c)) (length bs)) as [Hs|Hs].
  - rewrite (on_data_prefix op payload bs acc c); try done.
    + rewrite (IH (acc ++ c)); try done. by rewrite <- app_assoc.
    + by destruct Henc.
    + rewrite <- Hcat, app_assoc. apply take_app_length.
  - assert (acc ++ c = bs /\ concat cs = []) as [Hfull Hnil].
    { rewrite app_assoc in Hcat.
      assert (length (concat cs) = 0)%nat as Hz.
      { apply (f_equal length) in Hcat. rewrite length_app in Hcat. lia. }
      destruct (concat cs); [|done]. by rewrite app_nil_r in Hcat. }
    rewrite (on_data_whole op payload bs acc c); try done.
    apply on_data_nils; [done|]. by apply buffer_packet_handler_nil.
Qed.

(** X12. A packet that reaches the client cut into chunks (empty ones
    included) is handed to [onPacket] once, when its last byte has arrived:
    with an empty buffer to start from, the ['data'] events of the chunks
    together do what [onPacket] does with the packet, an exception of
    [onPacket] being swallowed. *)
Theorem packet_in_chunks_handled_once op payload bs (chunks : list Buffer) w :
  buffer w = [] ->
  encodes (op, payload) bs ->
  concat chunks = bs ->
  foldl (fun acc chunk => on_data chunk acc) w chunks
  = fst (onPacket op payload w).
Proof.
  intros Hb Henc Hcat.
  rewrite (on_data_from op payload bs chunks Henc [] w); try done.
  - by rewrite (with_buffer_nil w Hb).
  - destruct Henc as [Henc _]. cbn in Henc.
    apply encode_Ok in Henc as (-> & Hh & _). rewrite length_app, Hh.
    unfold HEADER_SIZE. simpl. lia.
Qed.

(** X13. After a ['data'] event no complete packet is left waiting in
    the buffer: what stays is less than a header, or a header with less
    than the payload it announces. Every packet is handed over in the event
    in which its last byte arrives. *)
Theorem on_data_leaves_no_complete_packet chunk w :
  awaits_bytes (buffer (on_data chunk w)).
Proof.
  unfold on_data, onData, processBuffer.
  generalize (with_buffer (buffer w ++ chunk) w). clear w. intros w.
  assert (forall f w, (length (buffer w) <= f)%nat ->
            awaits_bytes (buffer (client_loop f w))) as Hall;
    [|by apply Hall].
  clear. intros f. induction f as [|f IH]; intros w Hf.
  { left. cbn [processBuffer_loop]. unfold HEADER_SIZE. lia. }
  cbn [processBuffer_loop]. cbv zeta.
  destruct (Nat.ltb_spec (length (buffer w)) HEADER_SIZE) as [Hs|Hge].
  { by left. }
  destruct (read_Some (buffer w) 0) as [op E0].
  { unfold HEADER_SIZE in *. lia. }
  destruct (read_Some (buffer w) 4) as [len E4].
  { unfold HEADER_SIZE in *. lia. }
  rewrite E0, E4.
  destruct (Nat.ltb_spec (length (buffer w)) (HEADER_SIZE + N.to_nat len))
    as [Hi|Hc].
  { right. eauto. }
  set (w1 := with_buffer (drop (HEADER_SIZE + N.to_nat len) (buffer w)) w) in *.
  assert (length (buffer w1) <= f)%nat as Hw1.
  { subst w1. cbn [buffer with_buffer]. rewrite length_drop.
    unfold HEADER_SIZE in *. lia. }
  destruct (JSON_parse _) as [payload|]; [|by apply IH].
  pose proof (packet_handler_buffer op payload w1). apply IH. lia.
Qed.

Lemma getprop_not_null raw k :
  raw <> JNull -> getprop (Some raw) k = Ok (frame_member k raw).
Proof. by destruct raw. Qed.

Lemma stopHeartbeat_with_buffer b w :
  stopHeartbeat (with_buffer b w) = with_buffer b (stopHeartbeat w).
Proof.
  unfold stopHeartbeat. cbn [heartbeatTimer with_buffer].
  destruct (heartbeatTimer w); by apply world_ext.
Qed.

Lemma rejectAll_loop_with_buffer b reason entries :
  forall w,
    rejectAll_loop entries reason (with_buffer b w)
    = with_buffer b (rejectAll_loop entries reason w).
Proof.
  induction entries as [|[nonce pending] rest IH]; intros w; [done|].
  cbn [rejectAll_loop]. by rewrite <- IH.
Qed.

Lemma transport_destroy_with_buffer b w :
  transport_destroy (with_buffer b w) = transport_destroy w.
Proof.
  unfold transport_destroy, drop_socket. cbn [socket with_buffer].
  destruct (socket w); by apply world_ext.
Qed.

(** The buffer in which [destroy()] starts its last four statements does
    not matter: they empty it. *)
Lemma destroy_finish_with_buffer b w :
  destroy_finish (with_buffer b w) = destroy_finish w.
Proof.
  unfold destroy_finish, rejectAllPending.
  rewrite stopHeartbeat_with_buffer. cbn [pendingRequests with_buffer].
  by rewrite rejectAll_loop_with_buffer, transport_destroy_with_buffer.
Qed.

Lemma packet_handler_close raw w :
  raw <> JNull -> state w <> ready ->
  packet_handler OpCode_Close raw w
  = destroy_finish (emit (EvDisconnected (frame_member "message" raw)) w).
Proof.
  intros Hraw Hst. unfold packet_handler, swallow, onPacket.
  change (OpCode_Close =? OpCode_Close) with true. cbv iota.
  unfold bind, lift, lift_outcome.
  rewrite (getprop_not_null raw "message" Hraw). cbn [fst].
  unfold destroy_call, destroy_begin. wsimpl.
  by destruct (decide (state w = ready)).
Qed.

Lemma packet_handler_close_null w : packet_handler OpCode_Close JNull w = w.
Proof. reflexivity. Qed.

Lemma packet_handler_ping payload s pong w :
  socket w = Some s -> destroyed s = false ->
  encode OpCode_Pong payload = Ok pong ->
  packet_handler OpCode_Ping payload w = perform (SocketWrite (sock_id s) pong) w.
Proof.
  intros Es Ed Hpong. unfold packet_handler, swallow, onPacket.
  change (OpCode_Ping =? OpCode_Close) with false.
  change (OpCode_Ping =? OpCode_Ping) with true. cbv iota.
  unfold send. by rewrite Es, Ed, Hpong.
Qed.

Lemma packet_handler_other op payload w :
  op <> OpCode_Frame -> op <> OpCode_Close -> op <> OpCode_Ping ->
  packet_handler op payload w = w.
Proof.
  intros Hf Hc Hp. unfold packet_handler, swallow, onPacket.
  rewrite (proj2 (N.eqb_neq op OpCode_Close) Hc).
  rewrite (proj2 (N.eqb_neq op OpCode_Ping) Hp).
  by rewrite (proj2 (N.eqb_neq op OpCode_Frame) Hf).
Qed.

(** X14. A Close packet that arrives while the client is not [ready]
    ends the session within the ['data'] event: [disconnected] is emitted
    with the packet's message and the client is torn down. Whatever follows
    the packet in the same chunk is thrown away with the buffer. A Close
    packet whose payload is [null] does neither: reading its message
    throws, the exception is swallowed, and the client goes on with the
    bytes that follow. *)
Theorem close_packet_ends_session raw bs (rest : Buffer) w :
  buffer w = [] ->
  encodes (OpCode_Close, raw) bs ->
  (raw = JNull -> on_data (bs ++ rest) w = on_data rest w)
  /\ (raw <> JNull -> state w <> ready ->
       on_data (bs ++ rest) w
       = destroy_finish (emit (EvDisconnected (frame_member "message" raw)) w)).
Proof.
  intros Hb [Henc Hrt]. cbn [fst snd] in *.
  apply encode_Ok in Henc as (Hform & Hh & H0 & H4).
  set (hdr := le32 OpCode_Close ++ _) in *.
  set (data := utf8_encode _) in *.
  assert (on_data (bs ++ rest) w
          = client_loop (7 + (length data + length rest))
              (packet_handler OpCode_Close raw (with_buffer rest w))) as ->.
  { unfold on_data, onData, processBuffer. rewrite Hb. cbn [app]. wsimpl.
    rewrite Hform at 1. rewrite <- app_assoc, !length_app, Hh.
    change (HEADER_SIZE + (length data + length rest))%nat
      with (S (7 + (length data + length rest))).
    rewrite (client_loop_complete _ _ hdr data rest OpCode_Close
               (N.of_nat (length data)))
      by first [done | lia
               | by cbn [buffer with_buffer]; rewrite Hform, <- app_assoc].
    unfold round_trips in Hrt. fold data in Hrt. by rewrite Hrt. }
  split.
  - intros ->. rewrite packet_handler_close_null.
    unfold on_data, onData, processBuffer. rewrite Hb. cbn [app]. wsimpl.
    apply client_loop_fuel; cbn [buffer with_buffer]; lia.
  - intros Hraw Hst. rewrite packet_handler_close by done.
    rewrite client_loop_short.
    + change (emit ?e (with_buffer rest w)) with (with_buffer rest (emit e w)).
      apply destroy_finish_with_buffer.
    + destruct (destroy_finish_spec
                  (emit (EvDisconnected (frame_member "message" raw))
                     (with_buffer rest w))) as (_ & _ & _ & -> & _).
      unfold HEADER_SIZE. cbn. lia.
Qed.

(** X15. A Ping packet is answered with a Pong that carries the same
    payload, and that is all that happens; a packet whose opcode is none
    of Frame, Close and Ping (a Pong, say) is consumed without any
    effect. *)
Theorem keepalive_packets op payload bs w :
  buffer w = [] ->
  encodes (op, payload) bs ->
  (op = OpCode_Ping ->
   forall s pong,
     socket w = Some s -> destroyed s = false ->
     encode OpCode_Pong payload = Ok pong ->
     on_data bs w = perform (SocketWrite (sock_id s) pong) w
     /\ rec_process (pong, []) = ([], [(OpCode_Pong, payload)]))
  /\ (op <> OpCode_Frame -> op <> OpCode_Close -> op <> OpCode_Ping ->
       on_data bs w = w).
Proof.
  intros Hb Henc.
  rewrite (on_data_whole op payload bs [] bs w Henc Hb eq_refl).
  rewrite (with_buffer_nil w Hb). split.
  - intros -> s pong Es Ed Hpong.
    split; [by apply packet_handler_ping|].
    apply (rec_process_whole OpCode_Pong payload pong []); [done|].
    by destruct Henc.
  - apply packet_handler_other.
Qed.
End ReceiveFacts.

(** ** The candidate paths and the sockets of a search *)

Section DiscoveryFacts.
Context `{Platform}.
Implicit Types w : World.

Lemma getPipePaths_length e index :
  (1 <= length (getPipePaths e index) <= 6)%nat.
Proof.
  unfold getPipePaths. destruct (win32 e); [cbn; lia|].
  destruct (env_set (XDG_RUNTIME_DIR e)), (env_set (TMPDIR e)),
    (env_set (TMP e)), (env_set (TEMP e)); cbn; lia.
Qed.

(** X16. [getPipePaths] gives between one and six candidate paths. On
    Windows it is the one named pipe. Elsewhere each path is a directory
    joined with the pipe's name: [XDG_RUNTIME_DIR], when set, comes first,
    followed by its Flatpak and Snap subdirectories; and [/tmp] is the only
    directory when none of the four variables is set. *)
Theorem pipe_paths_shape e index :
  let name := "discord-ipc-" +:+ pretty index in
  let paths := getPipePaths e index in
  (1 <= length paths <= 6)%nat
  /\ (win32 e = true -> paths = ["\\?\pipe\" +:+ name])
  /\ (win32 e = false ->
      exists dirs,
        paths = map (fun dir => path_join [dir; name]) dirs
        /\ (forall xdg,
              env_set (XDG_RUNTIME_DIR e) = Some xdg ->
              take 3 dirs
              = [xdg; path_join [xdg; "app"; "com.discordapp.Discord"];
                 path_join [xdg; "snap.discord"]])
        /\ (env_set (XDG_RUNTIME_DIR e) = None -> env_set (TMPDIR e) = None ->
            env_set (TMP e) = None -> env_set (TEMP e) = None ->
            dirs = ["/tmp"])).
Proof.
  cbv zeta. split; [apply getPipePaths_length|].
  unfold getPipePaths. destruct (win32 e).
  { split; [done|]. discriminate. }
  split; [discriminate|]. intros _. eexists. split; [reflexivity|]. split.
  - intros xdg ->.
    by destruct (env_set (TMPDIR e)), (env_set (TMP e)), (env_set (TEMP e)).
  - by intros -> -> -> ->.
Qed.


Lemma sockets_opened_app e1 e2 :
  sockets_opened (e1 ++ e2) = sockets_opened e1 ++ sockets_opened e2.
Proof. apply omap_app. Qed.

Lemma sockets_destroyed_app e1 e2 :
  sockets_destroyed (e1 ++ e2) = sockets_destroyed e1 ++ sockets_destroyed e2.
Proof. apply omap_app. Qed.

Lemma drop_socket_log w :
  exists e0,
    log (drop_socket w) = log w ++ e0
    /\ paths_tried e0 = [] /\ sockets_opened e0 = []
    /\ (forall sk, socket w = Some sk -> sockets_destroyed e0 = [sock_id sk]).
Proof.
  unfold drop_socket. destruct (socket w) as [sk|].
  - eexists. wsimpl. rewrite <- app_assoc. split; [reflexivity|].
    repeat split; try done. by intros ? [= <-].
  - exists []. by rewrite app_nil_r.
Qed.

Lemma app_cons_not_nil (e0 : list Effect) x rest : e0 ++ x :: rest <> [].
Proof. by destruct e0. Qed.

Lemma tryPath_tidy index timeout remaining :
  forall w,
    search_tidy (length remaining) w (tryPath index timeout remaining w).
Proof.
  induction remaining as [|path rest IH]; intros w.
  { exists []. rewrite app_nil_r. repeat split; try done. by left. }
  destruct (decide (path = "")) as [->|Hpath].
  { exists []. rewrite app_nil_r. repeat split; try done; [cbn; lia|by left]. }
  destruct (tryPath_step index timeout path rest w Hpath)
    as (w4 & s & t & Hlog & He & Hn & Hs & Hst & Ho & ->).
  destruct (drop_socket_log w) as (e0 & Hlog0 & Hp0 & Ho0 & Hd0).
  rewrite Hlog0 in Hlog.
  assert (forall tail sk, socket w = Some sk ->
            sock_id sk ∈ sockets_destroyed (e0 ++ tail)) as Hold.
  { intros tail sk Hsk. rewrite sockets_destroyed_app, (Hd0 sk Hsk).
    apply elem_of_app. left. apply list_elem_of_here. }
  assert (forall tail s',
            s' ∈ sockets_opened (e0 ++ NetConnect s path :: tail) ->
            s' = s \/ s' ∈ sockets_opened tail) as Hopen.
  { intros tail s'. rewrite sockets_opened_app, Ho0. cbn [app].
    change (sockets_opened (NetConnect s path :: tail))
      with (s :: sockets_opened tail).
    by intros [->|?]%elem_of_cons; [left|right]. }
  assert (forall l, SocketDestroy s ∈ l -> s ∈ sockets_destroyed l) as Hgone.
  { intros l Hin. apply list_elem_of_omap. by exists (SocketDestroy s). }
  destruct (net (env w) (net_ctr w)) as [|code message|].
  - exists (e0 ++ [NetConnect s path; SetTimeout t timeout; ClearTimeout t]).
    cbn [fst snd]. wsimpl. rewrite Hlog, <- !app_assoc.
    split; [done|]. split.
    { rewrite paths_tried_app, Hp0. cbn. lia. }
    split; [intros sk Hsk _; by apply Hold|].
    exists s. split; [done|]. intros s' [->|Hin]%Hopen; [by left|].
    by apply elem_of_nil in Hin.
  - cbv zeta.
    set (w5 := perform (SocketDestroy s) (perform (ClearTimeout t) w4)).
    assert (log w5 = log w ++ e0 ++ [NetConnect s path; SetTimeout t timeout;
                                     ClearTimeout t; SocketDestroy s]) as Hlog5.
    { subst w5. wsimpl. by rewrite Hlog, <- !app_assoc. }
    assert (socket w5 = None) as Hs5 by done.
    destruct (String.eqb code "ENOENT" || String.eqb code "ECONNREFUSED").
    + destruct (IH w5) as (effs & Hl & Hb & _ & Hres).
      exists (e0 ++ [NetConnect s path; SetTimeout t timeout; ClearTimeout t;
                     SocketDestroy s] ++ effs).
      split. { by rewrite Hl, Hlog5, <- !app_assoc. }
      split. { rewrite !paths_tried_app, Hp0. cbn in *. lia. }
      split; [intros sk Hsk _; by apply Hold|].
      assert (forall s', s' ∈ sockets_destroyed effs ->
                s' ∈ sockets_destroyed
                       (e0 ++ [NetConnect s path; SetTimeout t timeout;
                               ClearTimeout t; SocketDestroy s] ++ effs))
        as Hlater.
      { intros s' Hin. rewrite !sockets_destroyed_app.
        apply elem_of_app. right. apply elem_of_app. by right. }
      assert (s ∈ sockets_destroyed
                    (e0 ++ [NetConnect s path; SetTimeout t timeout;
                            ClearTimeout t; SocketDestroy s] ++ effs))
        as Hs_gone.
      { apply Hgone. rewrite !elem_of_app, !elem_of_cons. auto 10. }
      destruct (snd (tryPath index timeout rest w5)).
      * destruct Hres as (s2 & Hs2 & Hall). exists s2. split; [done|].
        intros s' [->|Hin]%Hopen; [by right|].
        destruct (Hall s' Hin); [by left|]. right. by apply Hlater.
      * right. split; [apply app_cons_not_nil|].
        destruct Hres as [[-> Hsame]|(_ & Hnone & Hall)].
        -- split; [congruence|].
           intros s' [->|Hin]%Hopen; [done|by apply elem_of_nil in Hin].
        -- split; [done|].
           intros s' [->|Hin]%Hopen; [done|]. by apply Hlater, Hall.
    + exists (e0 ++ [NetConnect s path; SetTimeout t timeout; ClearTimeout t;
                     SocketDestroy s]).
      cbn [fst snd]. split; [done|]. split.
      { rewrite paths_tried_app, Hp0. cbn. lia. }
      split; [intros sk Hsk _; by apply Hold|].
      right. split; [apply app_cons_not_nil|]. split; [done|].
      intros s' [->|Hin]%Hopen; [|by apply elem_of_nil in Hin].
      apply Hgone. rewrite !elem_of_app, !elem_of_cons. auto 10.
  - exists (e0 ++ [NetConnect s path; SetTimeout t timeout; SocketDestroy s]).
    cbn [fst snd]. wsimpl. rewrite Hlog, <- !app_assoc.
    split; [done|]. split.
    { rewrite paths_tried_app, Hp0. cbn. lia. }
    split; [intros sk Hsk _; by apply Hold|].
    right. split; [apply app_cons_not_nil|]. split; [done|].
    intros s' [->|Hin]%Hopen; [|by apply elem_of_nil in Hin].
    apply Hgone. rewrite !elem_of_app, !elem_of_cons. auto 10.
Qed.

Lemma search_tidy_mono b1 b2 w r :
  (b1 <= b2)%nat -> search_tidy b1 w r -> search_tidy b2 w r.
Proof.
  intros Hb (effs & Hl & Hlen & Hrest). exists effs.
  split; [done|]. split; [lia|done].
Qed.

Lemma tryConnect_tidy index timeout w :
  search_tidy 6 w (tryConnect index timeout w).
Proof.
  unfold tryConnect. eapply search_tidy_mono; [|apply tryPath_tidy].
  apply getPipePaths_length.
Qed.

Lemma connect_scan_tidy timeout todo :
  forall i w, search_tidy (6 * todo) w (connect_scan timeout todo i w).
Proof.
  induction todo as [|todo IH]; intros i w.
  { exists []. rewrite app_nil_r. repeat split; try done. by left. }
  cbn [connect_scan].
  pose proof (tryConnect_tidy i timeout w) as (e1 & Hl1 & Hb1 & Hd1 & Hres1).
  destruct (tryConnect i timeout w) as [w' [[]|err]]; cbn [fst snd] in *.
  { exists e1. split; [done|]. split; [lia|]. split; done. }
  destruct (IH (S i) w') as (e2 & Hl2 & Hb2 & Hd2 & Hres2).
  exists (e1 ++ e2). split. { by rewrite Hl2, Hl1, <- app_assoc. }
  split. { rewrite paths_tried_app, length_app. lia. }
  split.
  { intros sk Hsk Hne. rewrite sockets_destroyed_app. apply elem_of_app.
    destruct Hres1 as [[-> Hsame]|(Hne1 & _)].
    - right. apply Hd2; [congruence|done].
    - left. by apply Hd1. }
  destruct (snd (connect_scan timeout todo (S i) w')).
  - destruct Hres2 as (s & Hs & Hall2). exists s. split; [done|].
    intros s'. rewrite sockets_opened_app, sockets_destroyed_app.
    intros [Hin|Hin]%elem_of_app.
    + destruct Hres1 as [[-> _]|(_ & _ & Hall1)];
        [by apply elem_of_nil in Hin|].
      right. apply elem_of_app. left. by apply Hall1.
    + destruct (Hall2 s' Hin); [by left|]. right. apply elem_of_app. by right.
  - destruct Hres1 as [[-> Hsame]|(Hne1 & Hnone & Hall1)].
    + cbn [app]. destruct Hres2 as [[-> Hsame2]|Hr]; [|by right].
      left. split; [done|congruence].
    + right. split; [by destruct e1|].
      destruct Hres2 as [[-> Hsame2]|(_ & Hnone2 & Hall2)].
      * rewrite app_nil_r. split; [congruence|done].
      * split; [done|]. intros s'.
        rewrite sockets_opened_app, sockets_destroyed_app.
        intros [Hin|Hin]%elem_of_app; apply elem_of_app; auto.
Qed.

Lemma connect_tidy (pipeIndex : option nat) timeout w :
  search_tidy (match pipeIndex with Some _ => 6 | None => 60 end) w
    (connect pipeIndex timeout w).
Proof.
  destruct pipeIndex as [index|]; [apply tryConnect_tidy|].
  apply (connect_scan_tidy timeout (MAX_PIPE_INDEX + 1) 0 w).
Qed.

(** X17. A search for a pipe leaks no socket. Every socket that
    [connect] opens is destroyed, except the one it ends up connected
    with; a search that fails after trying anything leaves the transport
    without a socket; and the socket the transport held before is destroyed
    as soon as a path is tried. *)
Theorem connect_leaks_no_socket pipeIndex timeout w :
  let r := connect pipeIndex timeout w in
  let effs := effects_since w (fst r) in
  (forall s, s ∈ sockets_opened effs ->
     s ∈ sockets_destroyed effs
     \/ socket (fst r) = Some {| sock_id := s; destroyed := false |})
  /\ (forall err, snd r = Throw err -> effs <> [] -> socket (fst r) = None)
  /\ (forall sk, socket w = Some sk -> effs <> [] ->
        sock_id sk ∈ sockets_destroyed effs).
Proof.
  cbv zeta.
  destruct (connect_tidy pipeIndex timeout w) as (effs & Hl & _ & Hd & Hres).
  unfold effects_since. rewrite Hl, drop_app_length.
  split; [|split; [|done]].
  - intros s Hin. destruct (snd (connect pipeIndex timeout w)).
    + destruct Hres as (s0 & Hs0 & Hall).
      destruct (Hall s Hin) as [->|]; auto.
    + destruct Hres as [[-> _]|(_ & _ & Hall)]; [by apply elem_of_nil in Hin|].
      left. by apply Hall.
  - intros err Herr Hne. rewrite Herr in Hres.
    by destruct Hres as [[-> _]|(_ & ? & _)].
Qed.

(** X18. A search is bounded: one slot is tried on at most six paths, so
    [connect] with a slot index makes at most six connection attempts and
    [connect] without one at most sixty. *)
Theorem connect_attempts_bounded (pipeIndex : option nat) timeout w :
  (length (paths_tried (effects_since w (fst (connect pipeIndex timeout w))))
   <= match pipeIndex with Some _ => 6 | None => 60 end)%nat.
Proof.
  destruct (connect_tidy pipeIndex timeout w) as (effs & Hl & Hb & _).
  unfold effects_since. by rewrite Hl, drop_app_length.
Qed.
End DiscoveryFacts.

(** ** The presence builder *)

Section BuilderFacts.
Import PrimFloat PresenceBuilder.
Context `{NumberFormat}.
Local Open Scope string_scope.
Implicit Types (b : Builder) (m : Method) (s : string).

Lemma length_substring_0 n s :
  String.length (String.substring 0 n s) = (n `min` String.length s)%nat.
Proof.
  revert s. induction n as [|n IH]; intros [|c s]; cbn; try done.
  by rewrite IH.
Qed.

Lemma substring_0_prefix n s :
  exists rest, s = String.substring 0 n s +:+ rest.
Proof.
  revert s. induction n as [|n IH]; intros [|c s]; cbn.
  - by exists "".
  - by exists (String c s).
  - by exists "".
  - destruct (IH s) as [rest Hr]. exists rest. rewrite Hr at 1. reflexivity.
Qed.

Lemma length_truncate s n :
  String.length (truncate s n) = (String.length s `min` n)%nat.
Proof.
  unfold truncate. destruct (Nat.ltb_spec n (String.length s)).
  - rewrite length_substring_0. lia.
  - lia.
Qed.

(** X19. [truncate] keeps the first [maxLength] characters of a longer
    string and leaves a string within the limit as it is; [setDetails] and
    [setState] store their argument cut in this way to 128 characters
    instead of refusing it. *)
Theorem text_is_cut_to_the_limit s n b :
  (exists rest, s = truncate s n +:+ rest)
  /\ String.length (truncate s n) = (String.length s `min` n)%nat
  /\ ((String.length s <= n)%nat -> truncate s n = s)
  /\ details (payload (fst (setDetails s b)))
     = Some (truncate s MAX_STRING_LENGTH)
  /\ state (payload (fst (setState s b))) = Some (truncate s MAX_STRING_LENGTH).
Proof.
  split; [|split; [apply length_truncate|split; [|done]]].
  - unfold truncate. destruct (n <? String.length s)%nat.
    + apply substring_0_prefix.
    + exists "". clear. induction s as [|c s IH]; [done|].
      rewrite IH at 1. reflexivity.
  - intros Hle. unfold truncate.
    destruct (Nat.ltb_spec n (String.length s)); [lia|done].
Qed.

Lemma limits_assign (f : Activity -> Activity) b :
  type (f (payload b)) = type (payload b) ->
  details (f (payload b)) = details (payload b) ->
  state (f (payload b)) = state (payload b) ->
  buttons (f (payload b)) = buttons (payload b) ->
  within_limits b -> within_limits (fst (assign f b)).
Proof.
  intros Ht Hd Hs Hb (Lt & Ld & Ls & Lr & La). unfold within_limits.
  cbn [assign fst payload arrays]. by rewrite Ht, Hd, Hs, Hb.
Qed.

Lemma limits_call m b :
  method_call m -> within_limits b -> within_limits (fst (m b)).
Proof.
  intros Hm Hb. pose proof Hb as (Lt & Ld & Ls & Lr & La).
  destruct Hm; try (by apply limits_assign).
  - unfold setType. case_bool_decide as Hin; [|done].
    split; [|done]. cbn. by intros t [= <-].
  - split; [done|]. split; [|done]. cbn. intros s [= <-].
    rewrite length_truncate. lia.
  - split; [done|]. split; [done|]. split; [|done]. cbn. intros s [= <-].
    rewrite length_truncate. lia.
  - unfold setParty. case_match; [done|]. by apply limits_assign.
  - unfold setButtons. destruct (Nat.ltb_spec MAX_BUTTONS (length buttons0));
      [done|].
    split; [done|]. split; [done|]. split; [done|]. cbn [fst payload arrays].
    split.
    + cbn. intros r [= <-]. rewrite length_app. cbn. lia.
    + apply Forall_app. split; [done|]. apply Forall_singleton.
      split; [by rewrite length_map|].
      apply Forall_map, Forall_true. intros x. cbn.
      rewrite length_truncate. lia.
  - unfold addButton.
    set (b1 := match buttons (payload b) with Some _ => b | None => _ end).
    assert (within_limits b1) as (Lt1 & Ld1 & Ls1 & Lr1 & La1).
    { subst b1. destruct (buttons (payload b)); [done|].
      split; [done|]. split; [done|]. split; [done|]. cbn. split.
      - intros r [= <-]. rewrite length_app. cbn. lia.
      - apply Forall_app. split; [done|]. apply Forall_singleton.
        split; [cbn; unfold MAX_BUTTONS; lia|done]. }
    cbv zeta.
    set (r := default 0%nat (buttons (payload b1))).
    set (current := default [] (arrays b1 !! r)).
    destruct (Nat.leb_spec MAX_BUTTONS (length current)); [done|].
    split; [done|]. split; [done|]. split; [done|]. cbn [fst payload arrays].
    split; [intros r' Hr'; rewrite length_insert; by apply Lr1|].
    apply Forall_insert; [done|].
    split; [rewrite length_app; cbn; unfold MAX_BUTTONS in *; lia|].
    apply Forall_app. split.
    + subst current. destruct (arrays b1 !! r) as [bs|] eqn:E; [|done].
      cbn. by destruct (Forall_lookup_1 _ _ _ _ La1 E).
    + apply Forall_singleton. cbn. rewrite length_truncate. lia.
Qed.

Lemma limits_chain calls :
  forall b,
    Forall method_call calls -> within_limits b ->
    within_limits (fst (chain calls b)).
Proof.
  induction calls as [|m rest IH]; intros b Hcalls Hb; [done|].
  apply Forall_cons in Hcalls as [Hm Hrest]. cbn [chain].
  pose proof (limits_call m b Hm Hb) as Hb'.
  destruct (m b) as [b' [|message]]; cbn [fst] in *; [by apply IH|done].
Qed.

Lemma new_builder_within_limits : within_limits new_PresenceBuilder.
Proof.
  split; [done|]. split; [done|]. split; [done|]. split; [done|].
  apply Forall_nil_2.
Qed.

(** X20. Whatever calls are chained on a new builder, and whether or
    not the chain ends in an exception, the payload stays within the limits
    the builder enforces: the type, if set, is one of 0, 2, 3 and 5, the
    details and the state have at most 128 characters, and there are at
    most two buttons, with labels of at most 32 characters; this is so for
    every array of buttons made on the way, and thus for every activity
    built on the way. *)
Theorem chain_keeps_limits calls :
  Forall method_call calls ->
  within_limits (fst (chain calls new_PresenceBuilder)).
Proof.
  intros Hcalls. apply limits_chain; [done|].
  apply new_builder_within_limits.
Qed.

Lemma lookup_fresh_array (arrays : list (list ActivityButton)) bs :
  (arrays ++ [bs])%list !! length arrays = Some bs.
Proof. by rewrite lookup_app_r, Nat.sub_diag. Qed.

Lemma number_lt_nan (x : number) :
  number_lt PrimFloat.nan x = false /\ number_lt x PrimFloat.nan = false.
Proof.
  unfold number_lt. rewrite !FloatAxioms.ltb_spec.
  change (FloatOps.Prim2SF PrimFloat.nan) with SpecFloat.S754_nan.
  split; [done|]. unfold SpecFloat.SFltb, SpecFloat.SFcompare.
  by destruct (FloatOps.Prim2SF x).
Qed.

(** X21. The four validations, and what a refused call leaves behind.
    [setType] accepts exactly the types 0, 2, 3 and 5. [setParty] refuses
    exactly when [currentSize < 0], [maxSize < 1] or
    [currentSize > maxSize] holds of the two doubles: a comparison with
    [NaN] is false, so [NaN] passes as a size wherever the other size
    passes its own test, and the sizes need not be integers. [setButtons]
    accepts at most two buttons; [addButton] accepts a button while fewer
    than two are set. No other call throws, and a call that throws leaves
    the builder as it was. *)
Theorem refused_call_changes_nothing b :
  (forall m message,
     method_call m -> snd (m b) = Throws_RangeError message ->
     fst (m b) = b
     /\ ((exists t, m = setType t)
         \/ (exists id currentSize maxSize, m = setParty id currentSize maxSize)
         \/ (exists given, m = setButtons given)
         \/ (exists label url, m = addButton label url)))
  /\ (forall t, snd (setType t b) = Returns <-> t ∈ VALID_ACTIVITY_TYPES)
  /\ (forall id currentSize maxSize,
        (snd (setParty id currentSize maxSize b) = Returns
         <-> PrimFloat.ltb currentSize 0%float = false
             /\ PrimFloat.ltb maxSize 1%float = false
             /\ PrimFloat.ltb maxSize currentSize = false)
        /\ (snd (setParty id currentSize maxSize b) = Returns ->
            party (payload (fst (setParty id currentSize maxSize b)))
            = Some {| PresenceBuilder.id := Some id;
                      size := Some (currentSize, maxSize) |}))
  /\ (forall id other,
        (snd (setParty id PrimFloat.nan other b) = Returns
         <-> PrimFloat.ltb other 1%float = false)
        /\ (snd (setParty id other PrimFloat.nan b) = Returns
            <-> PrimFloat.ltb other 0%float = false)
        /\ snd (setParty id PrimFloat.nan PrimFloat.nan b) = Returns
        /\ snd (setParty id 1.5%float 2.5%float b) = Returns
        /\ snd (setParty id 0%float PrimFloat.infinity b) = Returns)
  /\ (forall given,
        snd (setButtons given b) = Returns <-> (length given <= 2)%nat)
  /\ (forall label url,
        snd (addButton label url b) = Returns
        <-> (length (default [] (buttons_of (arrays b) (payload b))) < 2)%nat).
Proof.
  split; [|split; [|split; [|split; [|split]]]].
  - intros m message Hm. destruct Hm; try done.
    + intros Hthrow. split; [|left; eauto].
      revert Hthrow. unfold setType. by case_bool_decide.
    + intros Hthrow. split; [|right; left; eauto].
      revert Hthrow. unfold setParty. by case_match.
    + intros Hthrow. split; [|right; right; left; eauto].
      revert Hthrow. unfold setButtons. by case_match.
    + intros Hthrow. split; [|right; right; right; eauto].
      revert Hthrow. unfold addButton.
      destruct (buttons (payload b)) as [r|] eqn:Eb.
      * cbv zeta. rewrite Eb. by case_match.
      * cbv zeta. cbn [payload arrays with_buttons buttons default].
        change (Datatypes.id (length (arrays b))) with (length (arrays b)).
        by rewrite lookup_fresh_array.
  - intros t. unfold setType. by case_bool_decide.
  - intros id currentSize maxSize. unfold setParty, number_lt, number_gt.
    destruct (PrimFloat.ltb currentSize 0%float), (PrimFloat.ltb maxSize 1%float),
      (PrimFloat.ltb maxSize currentSize); cbn; split; try done;
      split; try done; by intros (? & ? & ?).
  - intros id other. unfold setParty, number_gt.
    destruct (number_lt_nan 0%float) as [-> _].
    destruct (number_lt_nan 1%float) as [-> _].
    destruct (number_lt_nan other) as [Hl Hr]. unfold number_lt in *.
    rewrite Hl, Hr.
    split; [|split; [|done]].
    + destruct (PrimFloat.ltb other 1%float); cbn; by split.
    + destruct (PrimFloat.ltb other 0%float); cbn; by split.
  - intros given. unfold setButtons, MAX_BUTTONS.
    destruct (Nat.ltb_spec 2 (length given)); cbn; split; try done; intros;
      first [lia | exfalso; lia].
  - intros label url. unfold addButton, buttons_of, MAX_BUTTONS.
    destruct (buttons (payload b)) as [r|] eqn:Eb; cbv zeta.
    + rewrite Eb. cbn [default mbind option_bind].
      change (Datatypes.id r) with r.
      destruct (Nat.leb_spec 2 (length (default [] (arrays b !! r))));
        cbn [snd]; split; try done; intros; first [lia | exfalso; lia].
    + cbn [payload arrays with_buttons buttons default mbind option_bind].
      change (Datatypes.id (length (arrays b))) with (length (arrays b)).
      rewrite lookup_fresh_array. cbn. split; [lia|done].
Qed.

(** X22. An activity returned by [build()] holds the array of buttons
    of the builder, not a copy. No later call except [addButton] changes
    the buttons of the activity, [setButtons] included, which makes a new
    array; but [addButton] on the builder appends to the buttons of the
    activity built before. *)
Theorem built_activity_shares_buttons b label url :
  within_limits b ->
  let a := build b in
  (forall m,
     method_call m ->
     buttons_of (arrays (fst (m b))) a = buttons_of (arrays b) a
     \/ exists label' url', m = addButton label' url')
  /\ (forall current,
        buttons_of (arrays b) a = Some current ->
        (length current < 2)%nat ->
        snd (addButton label url b) = Returns
        /\ buttons_of (arrays (fst (addButton label url b))) a
           = Some (current ++ [{| PresenceBuilder.label
                                    := truncate label MAX_BUTTON_LABEL_LENGTH;
                                  PresenceBuilder.url := url |}])%list).
Proof.
  intros (_ & _ & _ & Lr & _) a. split.
  - intros m Hm. destruct Hm; try (by left); [| | |right; eauto].
    + left. unfold setType. by case_bool_decide.
    + left. unfold setParty. by case_match.
    + left. unfold setButtons. case_match; [done|].
      cbn [fst arrays]. unfold buttons_of, a, build.
      destruct (buttons (payload b)) as [r|] eqn:Eb; [|done].
      cbn. rewrite lookup_app_l; [done|]. by apply Lr.
  - intros current Hcur Hlen. unfold buttons_of, a, build in *.
    unfold addButton. destruct (buttons (payload b)) as [r|] eqn:Eb; [|done].
    cbn in Hcur. cbv zeta. rewrite Eb. cbn [default].
    change (Datatypes.id r) with r. rewrite Hcur.
    cbn [default]. change (Datatypes.id current) with current.
    unfold MAX_BUTTONS.
    destruct (Nat.leb_spec 2 (length current)); [lia|].
    split; [done|]. cbn [fst arrays mbind option_bind].
    apply list_lookup_insert_eq. by apply Lr.
Qed.

(** X23. The setters that fill one half of a structure merge with what
    is there. [setStartTimestamp] and [setEndTimestamp] keep the other
    bound and can be called in either order; [setLargeImage] and
    [setSmallImage] keep the other image and can be called in either
    order; but [setLargeImage] replaces the large text and URL by the ones
    it is given, also when they are left out. *)
Theorem partial_setters_merge b from to key text link key' text' link' :
  chain [setStartTimestamp from; setEndTimestamp to] b
  = chain [setEndTimestamp to; setStartTimestamp from] b
  /\ timestamps (payload (fst (chain [setStartTimestamp from;
                                      setEndTimestamp to] b)))
     = Some {| start := Some (epoch from); end_ := Some (epoch to) |}
  /\ chain [setLargeImage key text link; setSmallImage key' text' link'] b
     = chain [setSmallImage key' text' link'; setLargeImage key text link] b
  /\ assets (payload (fst (chain [setLargeImage key text link;
                                  setLargeImage key' None None] b)))
     = Some {| large_image := Some key'; large_text := None;
               large_url := None;
               small_image := assets (payload b) ≫= small_image;
               small_text := assets (payload b) ≫= small_text;
               small_url := assets (payload b) ≫= small_url |}.
Proof. repeat split. Qed.
End BuilderFacts.

(** ** Avatar URLs *)

Section AvatarFacts.
Import Avatar.
Local Open Scope string_scope.
Variable BigInt : string -> option Z.

(** X24. Without an avatar hash ([undefined], [null] or the empty
    string), [getAvatarUrl] gives one of the six default avatars: for a
    user id that denotes the integer [n >= 0] it is number
    [(n / 2^22) mod 6], whatever the options say. With a hash the user id
    is not parsed, so nothing is thrown; the extension is [gif] for a hash
    that starts with [a_] unless [forceStatic] is set, and the one asked
    for ([png] when none is) otherwise. *)
Theorem avatar_url_cases userId options :
  (forall n,
     BigInt userId = Some n -> (0 <= n)%Z ->
     let index := ((n / 2 ^ 22) mod 6)%Z in
     (0 <= index < 6)%Z
     /\ forall avatarHash,
          avatarHash = None \/ avatarHash = Some "" ->
          getAvatarUrl BigInt userId avatarHash options
          = Some ("https://cdn.discordapp.com/embed/avatars/" +:+ pretty index
                  +:+ ".png"))
  /\ (forall hash,
        hash <> "" ->
        let size := default 512%Z (options ≫= size) in
        let animated :=
          String.prefix "a_" hash
          && negb (default false (options ≫= forceStatic)) in
        let ext :=
          if animated then "gif" else default "png" (options ≫= extension) in
        getAvatarUrl BigInt userId (Some hash) options
        = Some ("https://cdn.discordapp.com/avatars/" +:+ userId +:+ "/"
                +:+ hash +:+ "." +:+ ext +:+ "?size=" +:+ pretty size)).
Proof.
  split.
  - intros n Hn Hpos index.
    assert (Z.rem (Z.shiftr n 22) 6 = index) as Hidx.
    { rewrite Z.shiftr_div_pow2 by lia.
      apply Z.rem_mod_nonneg; [|lia]. apply Z.div_pos; lia. }
    split; [subst index; apply Z.mod_pos_bound; lia|].
    intros avatarHash [-> | ->]; unfold getAvatarUrl; by rewrite Hn, Hidx.
  - intros hash Hhash. cbv zeta. unfold getAvatarUrl. by destruct hash.
Qed.
End AvatarFacts.

(** ** More on the decoder, the search and [destroy()] *)

Section MoreFacts.
Context `{Platform}.
Implicit Types w : World.

Abbreviation loop := (processBuffer_loop fst rec_setBuffer (Some rec_handler)).

Lemma rec_loop_consumes f :
  forall (b : Buffer) evs,
    exists (consumed : Buffer) (calls : list (N * json)),
      b = consumed ++ fst (loop f (b, evs))
      /\ snd (loop f (b, evs)) = evs ++ calls
      /\ (HEADER_SIZE * length calls <= length consumed)%nat.
Proof.
  induction f as [|f IH]; intros b evs.
  { exists [], []. cbn. by rewrite app_nil_r. }
  cbn [processBuffer_loop fst snd rec_setBuffer].
  assert (exists (consumed : Buffer) (calls : list (N * json)),
            b = consumed ++ b /\ evs = evs ++ calls
            /\ (HEADER_SIZE * length calls <= length consumed)%nat) as Hstay.
  { exists [], []. cbn. by rewrite app_nil_r. }
  destruct (length b <? HEADER_SIZE)%nat; [done|].
  destruct (readUInt32LE b 0) as [op|]; [|done].
  destruct (readUInt32LE b 4) as [len|]; [|done].
  destruct (Nat.ltb_spec (length b) (HEADER_SIZE + N.to_nat len)) as [|Hc];
    [done|].
  set (total := (HEADER_SIZE + N.to_nat len)%nat) in *.
  destruct (JSON_parse _) as [payload|].
  - destruct (IH (drop total b) (evs ++ [(op, payload)]))
      as (consumed & calls & Hb & Hevs & Hlen).
    match goal with
    | |- context [processBuffer_loop ?a ?g ?h f ?x] =>
        change (processBuffer_loop a g h f x)
          with (loop f (drop total b, evs ++ [(op, payload)]))
    end.
    exists (take total b ++ consumed), ((op, payload) :: calls).
    split; [rewrite <- app_assoc, <- (take_drop total b) at 1; f_equal; exact Hb|].
    split; [etrans; [exact Hevs|]; by rewrite <- app_assoc|].
    rewrite length_app, length_take. cbn [length]. subst total. lia.
  - destruct (IH (drop total b) evs) as (consumed & calls & Hb & Hevs & Hlen).
    match goal with
    | |- context [processBuffer_loop ?a ?g ?h f ?x] =>
        change (processBuffer_loop a g h f x) with (loop f (drop total b, evs))
    end.
    exists (take total b ++ consumed), calls.
    split; [rewrite <- app_assoc, <- (take_drop total b) at 1; f_equal; exact Hb|].
    split; [exact Hevs|]. rewrite length_app, length_take. subst total. lia.
Qed.

(** X25. The decoder takes packets off the front and nothing else: what
    it leaves in the buffer is the end of what was there, the handler calls
    recorded before are still there, in front of the new ones, and each new
    call has used up at least the eight bytes of a header. *)
Theorem decoder_consumes_a_prefix (r : Recorder) :
  exists (consumed : Buffer) (calls : list (N * json)),
    fst r = consumed ++ fst (rec_process r)
    /\ snd (rec_process r) = snd r ++ calls
    /\ (HEADER_SIZE * length calls <= length consumed)%nat.
Proof. destruct r as [b evs]. apply rec_loop_consumes. Qed.

(** Every path ends with ENOENT or ECONNREFUSED: where the environment
    stands afterwards. *)
Lemma tryPath_exhausted_world index timeout remaining :
  forall w,
    Forall (fun p => p <> "") remaining ->
    (forall m, (m < length remaining)%nat ->
       retryable (net (env w) (net_ctr w + m)) = true) ->
    let r := tryPath index timeout remaining w in
    env (fst r) = env w /\ net_ctr (fst r) = (net_ctr w + length remaining)%nat.
Proof.
  induction remaining as [|path rest IH]; intros w Hne Hretry.
  { cbn. split; [done|lia]. }
  apply Forall_cons in Hne as [Hpath Hne].
  destruct (tryPath_step index timeout path rest w Hpath)
    as (w4 & s & t & Hlog & He & Hn & Hs & Hst & Ho & Heq).
  cbv zeta. rewrite Heq. clear Heq.
  pose proof (Hretry 0%nat ltac:(cbn; lia)) as H0. rewrite Nat.add_0_r in H0.
  destruct (net (env w) (net_ctr w)) as [|code message|]; try discriminate.
  cbn in H0. rewrite H0. cbv zeta.
  set (w5 := perform (SocketDestroy s) (perform (ClearTimeout t) w4)).
  assert (env w5 = env w /\ net_ctr w5 = S (net_ctr w)) as [He5 Hn5]
    by (subst w5; wsimpl; done).
  destruct (IH w5 Hne) as (Henv & Hctr).
  { intros m Hm. rewrite He5, Hn5.
    replace (S (net_ctr w) + m)%nat with (net_ctr w + S m)%nat by lia.
    apply Hretry. cbn. lia. }
  rewrite Henv, Hctr, He5, Hn5. split; [done|]. cbn [length]. lia.
Qed.

Lemma connect_scan_exhausted timeout todo :
  forall i w,
    let all := concat (map (getPipePaths (env w)) (seq i todo)) in
    Forall (fun p => p <> "") all ->
    (forall m, (m < length all)%nat ->
       retryable (net (env w) (net_ctr w + m)) = true) ->
    let r := connect_scan timeout todo i w in
    exists effs,
      log (fst r) = log w ++ effs
      /\ paths_tried effs = all
      /\ exists e, snd r = Throw e.
Proof.
  induction todo as [|todo IH]; intros i w all Hne Hretry.
  { exists []. rewrite app_nil_r. cbn. eauto. }
  subst all. cbn [seq map concat] in *.
  apply Forall_app in Hne as [Hne1 Hne2].
  rewrite length_app in Hretry.
  cbn [connect_scan]. unfold tryConnect.
  destruct (tryPath_exhausted i timeout (getPipePaths (env w) i) w Hne1)
    as (e1 & Hl1 & Hp1 & Hthrow).
  { intros m Hm. apply Hretry. lia. }
  destruct (tryPath_exhausted_world i timeout (getPipePaths (env w) i) w Hne1)
    as (Henv & Hctr).
  { intros m Hm. apply Hretry. lia. }
  cbv zeta in *.
  destruct (tryPath i timeout (getPipePaths (env w) i) w) as [w' [[]|err]];
    cbn [fst snd] in *; [done|].
  destruct (IH (S i) w') as (e2 & Hl2 & Hp2 & Hthrow2).
  { by rewrite Henv. }
  { intros m Hm. rewrite Henv, Hctr. rewrite Henv in Hm.
    rewrite <- Nat.add_assoc. apply Hretry. lia. }
  cbv zeta in *. exists (e1 ++ e2).
  split; [by rewrite Hl2, Hl1, <- app_assoc|].
  split; [|done]. by rewrite paths_tried_app, Hp1, Hp2, Henv.
Qed.

(** X26. The whole order of a search: when no candidate path is the
    empty string and every attempt ends with ENOENT or ECONNREFUSED,
    [connect] without a slot index connects to every candidate path of
    slot 0, then of slot 1, and so on up to slot 9, each once and in the
    order of [getPipePaths], and then fails with the error that says ten
    pipes were scanned. *)
Theorem exhaustive_scan_order timeout w :
  let all := concat (map (getPipePaths (env w)) (seq 0 10)) in
  Forall (fun p => p <> "") all ->
  (forall m, (m < length all)%nat ->
     retryable (net (env w) (net_ctr w + m)) = true) ->
  let r := connect None timeout w in
  snd r = Throw (ConnectionError
                   "Could not connect to Discord. No running instance found (scanned 10 pipes).")
  /\ paths_tried (effects_since w (fst r)) = all.
Proof.
  intros all Hne Hretry r.
  destruct (connect_scan_exhausted timeout 10 0 w Hne Hretry)
    as (effs & Hl & Hp & err & Hthrow).
  pose proof (connect_outcome timeout w) as Ho. cbv zeta in Ho.
  subst r. unfold connect in *.
  change (MAX_PIPE_INDEX + 1)%nat with 10%nat in *.
  rewrite Hthrow in Ho. subst err. split; [done|].
  unfold effects_since. by rewrite Hl, drop_app_length.
Qed.

Lemma foldl_delete_other (entries : list (string * PendingRequest))
    (tm : gmap nat TimerTask) t :
  (forall entry, entry ∈ entries -> timer entry.2 <> t) ->
  foldl (fun tm entry => delete (timer entry.2) tm) tm entries !! t = tm !! t.
Proof.
  revert tm. induction entries as [|e rest IH]; intros tm Hne; [done|].
  cbn [foldl]. rewrite IH.
  - apply lookup_delete_ne, Hne, list_elem_of_here.
  - intros entry Hin. by apply Hne, list_elem_of_further.
Qed.

(** The timers that are neither the heartbeat nor the timeout of a pending
    request stay as they are through the last four statements of
    [destroy()]. *)
Lemma destroy_finish_keeps_timer w t :
  heartbeatTimer w <> Some t ->
  (forall entry, entry ∈ pendingRequests w -> timer entry.2 <> t) ->
  timers (destroy_finish w) !! t = timers w !! t.
Proof.
  intros Hhb Hpend. unfold destroy_finish, rejectAllPending.
  set (w1 := stopHeartbeat w).
  assert (pendingRequests w1 = pendingRequests w
          /\ timers w1 !! t = timers w !! t) as [Hp1 Ht1].
  { subst w1. unfold stopHeartbeat.
    destruct (heartbeatTimer w) as [hb|] eqn:Ehb; [|done]. wsimpl.
    split; [done|]. apply lookup_delete_ne. congruence. }
  destruct (rejectAll_loop_spec (pendingRequests w1) "Client destroyed." w1)
    as (_ & Htm2 & _).
  cbv zeta in Htm2.
  assert (timers (transport_destroy
                    (rejectAll_loop (pendingRequests w1) "Client destroyed." w1))
          !! t = timers w !! t) as Ht3.
  { unfold transport_destroy, drop_socket.
    destruct (socket _); wsimpl; rewrite Htm2, foldl_delete_other, ?Ht1;
      try done; by rewrite Hp1. }
  unfold setState. by destruct (decide _).
Qed.

(** The handshake timer fires outside the [ready] state. *)
Lemma fire_handshake t p w :
  timers w !! t = Some (HandshakeTimeout p) ->
  state w <> ready ->
  effects_since w (fire t w)
  = Reject p (TimeoutError "Handshake timed out.") :: teardown_effects w
  /\ state (fire t w) = disconnected
  /\ socket (fire t w) = None.
Proof.
  intros Ht Hst. unfold fire. rewrite Ht.
  unfold destroy_call, destroy_begin. wsimpl.
  destruct (decide (state w = ready)) as [|_]; [done|].
  match goal with
  | |- context [destroy_finish ?w1] =>
      destruct (destroy_finish_spec w1) as (_ & _ & Hs & _ & Hstate & Hlog & _)
  end.
  cbv zeta in *. split; [|done].
  unfold effects_since. rewrite Hlog. wsimpl.
  by rewrite <- app_assoc, drop_app_length.
Qed.

(** A timer that is set stays set through the continuation of [login],
    which connects and sets a timer of its own. *)
Lemma login_resume_keeps_timer id w t task w2 p2 :
  timers_agree w ->
  timers w !! t = Some task ->
  login_resume id w = (w2, Ok p2) ->
  timers w2 !! t = Some task
  /\ state w2 = connected
  /\ (exists s, socket w2 = Some {| sock_id := s; destroyed := false |})
  /\ heartbeatTimer w2 = heartbeatTimer w
  /\ pendingRequests w2 = pendingRequests w.
Proof.
  intros (Ia & _) Ht. unfold login_resume.
  destruct (timing_connect None (connectionTimeout (options w)) w)
    as (Htm & Hp & Hh & _ & Hn).
  pose proof (connect_outcome (connectionTimeout (options w)) w) as Ho.
  cbv zeta in Ho.
  destruct (connect None (connectionTimeout (options w)) w) as [w1 [[]|err]];
    cbn [fst snd] in *; [|discriminate].
  destruct Ho as [s Hs].
  destruct (setState_fields connected w1) as (_ & Htm2 & Hid2).
  assert (socket (setState connected w1) = socket w1
          /\ heartbeatTimer (setState connected w1) = heartbeatTimer w1
          /\ pendingRequests (setState connected w1) = pendingRequests w1)
    as (Hs2 & Hh2 & Hp2) by (unfold setState; by destruct (decide _)).
  pose proof (state_setState connected w1) as Hst2.
  unfold setTimeout, fresh. cbn [fst snd].
  match goal with
  | |- context [send ?op ?payload ?w5] =>
      destruct (send_world op payload w5) as (e3 & Hw6 & _);
      destruct (send op payload w5) as [w6 [[]|err]]
  end; cbn [fst snd] in *; subst w6; intros [= <- <-]; wsimpl;
    rewrite Hst2, Hs2, Hh2, Hp2, Hs, Hh, Hp, Htm2, Htm;
    (split; [|by eauto]);
    (rewrite lookup_insert_ne; [done|]);
    specialize (Ia t task Ht); rewrite Hid2; lia.
Qed.

(** X27. [destroy()] does not cancel the handshake timer, and neither
    does a new [login]. In a world a client has reached, with a handshake
    timer set and the state not [ready], [destroy()] tears the client down
    within the call and leaves that timer set. When the timer fires right
    then, the old promise of [login] is rejected with a [TimeoutError] and
    nothing else happens. When instead a new [login] has connected first,
    the timer is still set, and when it fires it rejects the old promise
    and tears the new session down: the new socket is destroyed and the
    state [disconnected] is announced. *)
Theorem destroy_keeps_handshake_timer o e w t p :
  reachable o e w ->
  state w <> ready ->
  timers w !! t = Some (HandshakeTimeout p) ->
  let w' := destroy_call w in
  effects_since w w' = teardown_effects w
  /\ state w' = disconnected
  /\ timers w' !! t = Some (HandshakeTimeout p)
  /\ effects_since w' (fire t w')
     = [Reject p (TimeoutError "Handshake timed out.")]
  /\ state (fire t w') = disconnected
  /\ forall id,
       snd (login_begin id w') = Ok tt
       /\ forall w2 p2,
            login_resume id (fst (login_begin id w')) = (w2, Ok p2) ->
            state w2 = connected
            /\ timers w2 !! t = Some (HandshakeTimeout p)
            /\ exists s,
                 socket w2 = Some {| sock_id := s; destroyed := false |}
                 /\ effects_since w2 (fire t w2)
                    = [Reject p (TimeoutError "Handshake timed out.");
                       SocketRemoveAllListeners s; SocketDestroy s;
                       Emit (EvStateChange disconnected)]
                 /\ state (fire t w2) = disconnected
                 /\ socket (fire t w2) = None.
Proof.
  intros Hrun Hst Ht.
  destruct (reachable_timers_agree o e w Hrun) as (_ & Ib & Ic & _).
  assert (reachable o e (destroy_call w)) as Hrun'
    by (eapply rtc_r; [exact Hrun|apply step_destroy_call]).
  cbv zeta. revert Hrun'. unfold destroy_call, destroy_begin.
  destruct (decide (state w = ready)) as [|_]; [done|]. intros Hrun'.
  destruct (destroy_finish_spec w) as (Hhb & Hp & Hs & Hb & Hstate & Hlog & _).
  cbv zeta in *.
  assert (timers (destroy_finish w) !! t = Some (HandshakeTimeout p)) as Ht'.
  { rewrite destroy_finish_keeps_timer; [done| |].
    - intros Hhb'. rewrite (Ic t Hhb') in Ht. discriminate.
    - intros [tok pending] Hin Heq. destruct (Ib _ _ Hin) as [cmd Hc].
      cbn in Heq. rewrite Heq, Ht in Hc. discriminate. }
  set (w' := destroy_finish w) in *.
  assert (state w' <> ready) as Hst' by (rewrite Hstate; discriminate).
  destruct (fire_handshake t p w' Ht' Hst') as (Hfire & Hfst & _).
  split. { unfold effects_since. by rewrite Hlog, drop_app_length. }
  split; [done|]. split; [done|].
  split.
  { rewrite Hfire. unfold teardown_effects. rewrite Hhb, Hp, Hs, Hstate.
    by destruct (decide (disconnected = disconnected)). }
  split; [done|]. intros id.
  assert (login_begin id w'
          = (setState connecting (with_clientId (Some id) w'), Ok tt)) as Hbegin.
  { unfold login_begin. by destruct (decide (state w' = disconnected)). }
  rewrite Hbegin. split; [done|]. cbn [fst]. intros w2 p2 Hresume.
  set (w1 := setState connecting (with_clientId (Some id) w')) in *.
  assert (reachable o e w1) as Hrun1.
  { eapply rtc_r; [exact Hrun'|].
    replace w1 with (fst (login_begin id w')) by by rewrite Hbegin.
    apply step_login_begin. }
  assert (timers w1 !! t = Some (HandshakeTimeout p)
          /\ heartbeatTimer w1 = None /\ pendingRequests w1 = []) as (Ht1 & Hh1 & Hp1).
  { subst w1. unfold setState. by destruct (decide _). }
  destruct (login_resume_keeps_timer id w1 t _ w2 p2
              (reachable_timers_agree o e w1 Hrun1) Ht1 Hresume)
    as (Ht2 & Hst2 & (s & Hs2) & Hh2 & Hp2).
  split; [done|]. split; [done|]. exists s. split; [done|].
  assert (state w2 <> ready) as Hnr by (rewrite Hst2; discriminate).
  destruct (fire_handshake t p w2 Ht2 Hnr) as (Hfire2 & Hfst2 & Hfs2).
  split; [|done]. rewrite Hfire2. unfold teardown_effects.
  rewrite Hh2, Hh1, Hp2, Hp1, Hs2, Hst2. cbn.
  by destruct (decide (connected = disconnected)).
Qed.

(** X28. [destroy()] on a [ready] client with a live socket does not
    tear down within the call. It sends the request that clears the
    activity (SET_ACTIVITY with the process id and [activity: null]), whose
    timeout is set, and hands control back: the state is still [ready],
    the socket and the heartbeat are untouched, and the request is pending
    under its token. *)
Theorem destroy_when_ready_clears_activity_first w s bs :
  state w = ready ->
  socket w = Some s -> destroyed s = false ->
  let tok := uuid (env w) (uuid_ctr w) in
  let raw :=
    request_frame Command_SetActivity
      (Some (JObj [("pid", JNum (pid (env w))); ("activity", JNull)]))
      undefined tok in
  encode OpCode_Frame raw = Ok bs ->
  let w' := destroy_call w in
  exists p t,
    effects_since w w'
    = [SetTimeout t (connectionTimeout (options w));
       SocketWrite (sock_id s) bs]
    /\ Map_get tok (pendingRequests w') = Some {| promise := p; timer := t |}
    /\ state w' = ready
    /\ socket w' = socket w
    /\ heartbeatTimer w' = heartbeatTimer w
    /\ buffer w' = buffer w.
Proof.
  intros Hst Es Ed tok raw Henc. cbv zeta.
  unfold destroy_call, destroy_begin, clearActivity.
  destruct (decide (state w = ready)) as [_|]; [|done].
  unfold request. destruct (decide (state w = ready)) as [_|]; [|done].
  cbn [randomUUID fresh setTimeout]. unfold send. wsimpl.
  rewrite Es, Ed. fold tok.
  fold (request_frame Command_SetActivity
          (Some (JObj [("pid", JNum (pid (env w))); ("activity", JNull)]))
          undefined tok).
  fold raw. rewrite Henc. exists (next_id w), (S (next_id w)). wsimpl.
  split. { unfold effects_since. wsimpl.
           by rewrite <- app_assoc, drop_app_length. }
  split; [apply Map_get_set_eq|]. by rewrite Es.
Qed.
End MoreFacts.

(** ** The further statements on the sessions of [Scenario] and [Cases] *)

Section MoreInstances.
Import Reference Scenario Cases.
Local Open Scope string_scope.

Lemma decoder_batch_in_order_witness :
  Forall2 encodes two_messages two_packets
  /\ encode OpCode_Frame error_response = Ok error_bytes
  /\ (12 < length error_bytes)%nat
  /\ rec_process ((concat two_packets ++ take 12 error_bytes)%list, [])
     = (take 12 error_bytes, two_messages).
Proof.
  assert (Forall2 encodes two_messages two_packets) as Hall.
  { repeat constructor; vm_compute; reflexivity. }
  assert (encode OpCode_Frame error_response = Ok error_bytes) as Henc
    by (vm_compute; reflexivity).
  assert (12 < length error_bytes)%nat as Hk by (vm_compute; lia).
  split; [exact Hall|]. split; [exact Henc|]. split; [exact Hk|].
  exact (decoder_batch_in_order two_messages two_packets OpCode_Frame
           error_response error_bytes 12 [] Hall Henc Hk).
Defined.

Lemma first_login_reaches_ready_witness :
  snd (connect None (connectionTimeout (options connecting_client))
         connecting_client) = Ok tt
  /\ frame_member "evt" ready_frame = Some (JStr RPCEvent_Ready)
  /\ exists p w2,
       login_resume "app-1" connecting_client = (w2, Ok p)
       /\ state (fst (onPacket OpCode_Frame ready_frame w2)) = ready
       /\ stateChanges (log (fst (onPacket OpCode_Frame ready_frame w2)))
          = [connecting; connected; ready].
Proof.
  assert (snd (connect None (connectionTimeout (options connecting_client))
                 connecting_client) = Ok tt) as Hc
    by (vm_compute; reflexivity).
  assert (frame_member "evt" ready_frame = Some (JStr RPCEvent_Ready)) as Hevt
    by reflexivity.
  split; [exact Hc|]. split; [exact Hevt|].
  destruct (first_login_reaches_ready
              {| heartbeatInterval_opt := None; connectionTimeout_opt := None |}
              env0 "app-1" ready_frame Hc Hevt)
    as (p & t & hb & w2 & s & Hl & _ & _ & _ & _ & _ & _ & Hst & _ & _ & _ & Hsc).
  exists p, w2. split; [exact Hl|]. split; [exact Hst|exact Hsc].
Defined.

Lemma failed_login_resets_client_witness :
  state lonely_client = disconnected
  /\ exists w',
       login_resume "app-1" (fst (login_begin "app-1" lonely_client))
       = (w', Throw (ConnectionError
                       "Could not connect to Discord. No running instance found (scanned 10 pipes)."))
       /\ state w' = disconnected
       /\ stateChanges (effects_since lonely_client w')
          = [connecting; disconnected].
Proof.
  assert (state lonely_client = disconnected) as Hst by reflexivity.
  assert (snd (connect None
                 (connectionTimeout
                    (options (fst (login_begin "app-1" lonely_client))))
                 (fst (login_begin "app-1" lonely_client)))
          = Throw (ConnectionError
                     "Could not connect to Discord. No running instance found (scanned 10 pipes)."))
    as Hc by (vm_compute; reflexivity).
  split; [exact Hst|].
  destruct (failed_login_resets_client "app-1" lonely_client _ Hst Hc)
    as (w' & Hl & _ & Hs & Hsc & _).
  exists w'. split; [exact Hl|]. split; [exact Hs|exact Hsc].
Defined.

Lemma handshake_timeout_tears_down_witness :
  timers connected_client !! 7%nat = Some (HandshakeTimeout 6)
  /\ state connected_client <> ready
  /\ state (fire 7 connected_client) = disconnected
  /\ socket (fire 7 connected_client) = None
  /\ timers (fire 7 connected_client) !! 7%nat = None.
Proof.
  assert (timers connected_client !! 7%nat = Some (HandshakeTimeout 6)) as Ht
    by (vm_compute; reflexivity).
  assert (state connected_client <> ready) as Hst
    by (vm_compute; discriminate).
  split; [exact Ht|]. split; [exact Hst|].
  destruct (handshake_timeout_tears_down 7 6 connected_client Ht Hst)
    as (_ & Hs & Hsock & _ & _ & Htm).
  split; [exact Hs|]. split; [exact Hsock|exact Htm].
Defined.

Lemma busy_client_reachable :
  reachable {| heartbeatInterval_opt := None; connectionTimeout_opt := None |}
    env0 busy_client.
Proof.
  unfold reachable. eapply rtc_trans; [exact ready_client_reachable|].
  unfold busy_client.
  eapply rtc_l; [apply step_request|]. apply rtc_once, step_request.
Qed.

Lemma pending_request_has_live_timeout_witness :
  Map_get "nonce-0" (pendingRequests busy_client) = Some first_pending
  /\ exists cmd,
       timers busy_client !! 10%nat = Some (RequestTimeout "nonce-0" cmd 9)
       /\ Map_get "nonce-0" (pendingRequests (fire 10 busy_client)) = None.
Proof.
  assert (Map_get "nonce-0" (pendingRequests busy_client) = Some first_pending)
    as Hget by (vm_compute; reflexivity).
  split; [exact Hget|].
  destruct (pending_request_has_live_timeout _ _ busy_client "nonce-0"
              first_pending busy_client_reachable Hget)
    as (cmd & Htm & _ & Hgone & _).
  exists cmd. split; [exact Htm|exact Hgone].
Defined.

Lemma ready_client_has_heartbeat_witness :
  state ready_client = ready
  /\ exists t,
       heartbeatTimer ready_client = Some t
       /\ timers ready_client !! t = Some HeartbeatTick.
Proof.
  assert (state ready_client = ready) as Hst by (vm_compute; reflexivity).
  split; [exact Hst|].
  destruct (ready_client_has_heartbeat _ _ ready_client
              ready_client_reachable Hst) as (t & Hhb & Htm & _).
  exists t. split; [exact Hhb|exact Htm].
Defined.

Lemma request_writes_one_frame_witness :
  state ready_client = ready
  /\ socket ready_client = Some {| sock_id := 4; destroyed := false |}
  /\ encodes (OpCode_Frame, guilds_frame) (packet OpCode_Frame guilds_frame)
  /\ let (p, w') := request "GET_GUILDS" undefined undefined ready_client in
     exists t,
       effects_since ready_client w'
       = [SetTimeout t 10000; SocketWrite 4 (packet OpCode_Frame guilds_frame)]
       /\ Map_get "nonce-0" (pendingRequests w')
          = Some {| promise := p; timer := t |}.
Proof.
  assert (state ready_client = ready) as Hst by (vm_compute; reflexivity).
  assert (socket ready_client = Some {| sock_id := 4; destroyed := false |})
    as Hs by (vm_compute; reflexivity).
  assert (encodes (OpCode_Frame, guilds_frame)
            (packet OpCode_Frame guilds_frame)) as Henc
    by (split; vm_compute; reflexivity).
  split; [exact Hst|]. split; [exact Hs|]. split; [exact Henc|].
  pose proof (request_writes_one_frame "GET_GUILDS" undefined undefined
                ready_client _ _ Hst Hs eq_refl Henc) as Hreq.
  destruct (request "GET_GUILDS" undefined undefined ready_client) as [p w'].
  destruct Hreq as (t & Heff & Hget & _). exists t.
  split; [exact Heff|exact Hget].
Defined.

Lemma request_without_transport_witness :
  state broken_client = ready
  /\ transport_connected broken_client = false
  /\ let (p, w') := request "GET_GUILDS" undefined undefined broken_client in
     exists t,
       effects_since broken_client w'
       = [SetTimeout t 10000;
          Reject p (ConnectionError
                      "Cannot send data: transport is not connected.")]
       /\ timers w' !! t = Some (RequestTimeout "nonce-0" "GET_GUILDS" p).
Proof.
  assert (state broken_client = ready) as Hst by (vm_compute; reflexivity).
  assert (transport_connected broken_client = false) as Hc
    by (vm_compute; reflexivity).
  split; [exact Hst|]. split; [exact Hc|].
  pose proof (request_without_transport "GET_GUILDS" undefined undefined
                broken_client Hst Hc) as Hreq.
  cbv zeta in Hreq.
  destruct (request "GET_GUILDS" undefined undefined broken_client) as [p w'].
  destruct Hreq as (t & Heff & _ & Htm & _). exists t.
  split; [exact Heff|exact Htm].
Defined.

Lemma request_response_leaves_nothing_witness :
  state ready_client = ready
  /\ Map_get "nonce-0" (pendingRequests ready_client) = None
  /\ is_RPCFrame silent_late_response = true
  /\ let (p, w1) := request "GET_GUILDS" undefined undefined ready_client in
     pendingRequests (fst (onPacket OpCode_Frame silent_late_response w1))
     = pendingRequests ready_client
     /\ timers (fst (onPacket OpCode_Frame silent_late_response w1))
        = timers ready_client.
Proof.
  assert (state ready_client = ready) as Hst by (vm_compute; reflexivity).
  assert (uuid (env ready_client) (uuid_ctr ready_client) <> "") as Htok
    by (vm_compute; discriminate).
  assert (Map_get (uuid (env ready_client) (uuid_ctr ready_client))
            (pendingRequests ready_client) = None) as Hfree
    by (vm_compute; reflexivity).
  assert (is_RPCFrame silent_late_response = true) as Hframe
    by (vm_compute; reflexivity).
  assert (frame_member "nonce" silent_late_response
          = Some (JStr (uuid (env ready_client) (uuid_ctr ready_client))))
    as Hnonce by (vm_compute; reflexivity).
  assert (strict_eq_str (frame_member "evt" silent_late_response)
            RPCEvent_Ready = false) as Hevt by (vm_compute; reflexivity).
  split; [exact Hst|]. split; [exact Hfree|]. split; [exact Hframe|].
  pose proof (request_response_leaves_nothing _ _ ready_client "GET_GUILDS"
                undefined undefined silent_late_response
                ready_client_reachable Hst Htok Hfree Hframe Hnonce Hevt)
    as Hreq.
  destruct (request "GET_GUILDS" undefined undefined ready_client) as [p w1].
  destruct Hreq as (_ & Hp & Htm & _). split; [exact Hp|exact Htm].
Defined.

Lemma packet_in_chunks_handled_once_witness :
  buffer connected_client = []
  /\ encodes (OpCode_Frame, ready_frame) ready_bytes
  /\ concat ready_chunks = ready_bytes
  /\ foldl (fun acc chunk => on_data chunk acc) connected_client ready_chunks
     = fst (onPacket OpCode_Frame ready_frame connected_client).
Proof.
  assert (buffer connected_client = []) as Hb by (vm_compute; reflexivity).
  assert (encodes (OpCode_Frame, ready_frame) ready_bytes) as Henc
    by (split; vm_compute; reflexivity).
  assert (concat ready_chunks = ready_bytes) as Hcat
    by (vm_compute; reflexivity).
  split; [exact Hb|]. split; [exact Henc|]. split; [exact Hcat|].
  exact (packet_in_chunks_handled_once OpCode_Frame ready_frame ready_bytes
           ready_chunks connected_client Hb Henc Hcat).
Defined.

Lemma close_packet_ends_session_witness :
  buffer connected_client = []
  /\ encodes (OpCode_Close, close_payload) (packet OpCode_Close close_payload)
  /\ on_data ((packet OpCode_Close close_payload ++ ready_bytes)%list)
       connected_client
     = destroy_finish (emit (EvDisconnected (Some (JStr "bye")))
                         connected_client).
Proof.
  assert (buffer connected_client = []) as Hb by (vm_compute; reflexivity).
  assert (encodes (OpCode_Close, close_payload)
            (packet OpCode_Close close_payload)) as Henc
    by (split; vm_compute; reflexivity).
  split; [exact Hb|]. split; [exact Henc|].
  apply (close_packet_ends_session close_payload
           (packet OpCode_Close close_payload) ready_bytes connected_client
           Hb Henc).
  - discriminate.
  - vm_compute. discriminate.
Defined.

Lemma keepalive_packets_witness :
  buffer ready_client = []
  /\ encodes (OpCode_Ping, ping_payload) (packet OpCode_Ping ping_payload)
  /\ on_data (packet OpCode_Ping ping_payload) ready_client
     = perform (SocketWrite 4 (packet OpCode_Pong ping_payload)) ready_client.
Proof.
  assert (buffer ready_client = []) as Hb by (vm_compute; reflexivity).
  assert (encodes (OpCode_Ping, ping_payload)
            (packet OpCode_Ping ping_payload)) as Henc
    by (split; vm_compute; reflexivity).
  split; [exact Hb|]. split; [exact Henc|].
  apply (proj1 (keepalive_packets OpCode_Ping ping_payload
                  (packet OpCode_Ping ping_payload) ready_client Hb Henc)
           eq_refl {| sock_id := 4; destroyed := false |}
           (packet OpCode_Pong ping_payload)).
  - vm_compute. reflexivity.
  - reflexivity.
  - vm_compute. reflexivity.
Defined.

Lemma chain_keeps_limits_witness :
  Forall PresenceBuilder.method_call long_chain
  /\ PresenceBuilder.within_limits
       (fst (PresenceBuilder.chain long_chain
               PresenceBuilder.new_PresenceBuilder))
  /\ snd (PresenceBuilder.chain long_chain PresenceBuilder.new_PresenceBuilder)
     = PresenceBuilder.Throws_RangeError "Maximum of 2 buttons allowed.".
Proof.
  assert (Forall PresenceBuilder.method_call long_chain) as Hcalls
    by (repeat constructor).
  split; [exact Hcalls|]. split; [exact (chain_keeps_limits long_chain Hcalls)|].
  vm_compute. reflexivity.
Defined.

Lemma join_builder_within_limits : PresenceBuilder.within_limits join_builder.
Proof.
  apply limits_chain; [repeat constructor|apply new_builder_within_limits].
Qed.

Lemma built_activity_shares_buttons_witness :
  PresenceBuilder.within_limits join_builder
  /\ PresenceBuilder.buttons_of (PresenceBuilder.arrays join_builder)
       (PresenceBuilder.build join_builder)
     = Some [{| PresenceBuilder.label := "Join";
                PresenceBuilder.url := "https://example.com/join" |}]
  /\ PresenceBuilder.buttons_of
       (PresenceBuilder.arrays
          (fst (PresenceBuilder.addButton "Watch" "https://example.com/watch"
                  join_builder)))
       (PresenceBuilder.build join_builder)
     = Some [{| PresenceBuilder.label := "Join";
                PresenceBuilder.url := "https://example.com/join" |};
             {| PresenceBuilder.label := "Watch";
                PresenceBuilder.url := "https://example.com/watch" |}].
Proof.
  assert (PresenceBuilder.buttons_of (PresenceBuilder.arrays join_builder)
            (PresenceBuilder.build join_builder)
          = Some [{| PresenceBuilder.label := "Join";
                     PresenceBuilder.url := "https://example.com/join" |}])
    as Hcur by (vm_compute; reflexivity).
  split; [exact join_builder_within_limits|]. split; [exact Hcur|].
  destruct (built_activity_shares_buttons join_builder "Watch"
              "https://example.com/watch" join_builder_within_limits)
    as [_ Hadd].
  destruct (Hadd _ Hcur) as [_ Hshared]; [cbn; lia|]. exact Hshared.
Defined.

Lemma exhaustive_scan_order_witness :
  length (concat (map (getPipePaths (env lonely_client)) (seq 0 10))) = 10%nat
  /\ snd (connect None 10000 lonely_client)
     = Throw (ConnectionError
                "Could not connect to Discord. No running instance found (scanned 10 pipes).")
  /\ paths_tried (effects_since lonely_client
                    (fst (connect None 10000 lonely_client)))
     = concat (map (getPipePaths (env lonely_client)) (seq 0 10)).
Proof.
  assert (Forall (fun p => p <> "")
            (concat (map (getPipePaths (env lonely_client)) (seq 0 10))))
    as Hne by (vm_compute; repeat (constructor; [discriminate|]); constructor).
  assert (forall m,
            (m < length (concat (map (getPipePaths (env lonely_client))
                                   (seq 0 10))))%nat ->
            retryable (net (env lonely_client) (net_ctr lonely_client + m))
            = true) as Hretry by (intros m _; reflexivity).
  split; [vm_compute; reflexivity|].
  exact (exhaustive_scan_order 10000 lonely_client Hne Hretry).
Defined.

Lemma waiting_client_reachable :
  reachable {| heartbeatInterval_opt := None; connectionTimeout_opt := None |}
    env_listening waiting_client.
Proof.
  unfold reachable.
  eapply rtc_l; [apply (step_login_begin "app-1")|].
  apply rtc_once, step_login_resume.
Qed.

Lemma destroy_keeps_handshake_timer_witness :
  state waiting_client <> ready
  /\ timers waiting_client !! 3%nat = Some (HandshakeTimeout 2)
  /\ state (destroy_call waiting_client) = disconnected
  /\ timers (destroy_call waiting_client) !! 3%nat
     = Some (HandshakeTimeout 2)
  /\ exists w2,
       login_resume "app-2"
         (fst (login_begin "app-2" (destroy_call waiting_client)))
       = (w2, Ok 6%nat)
       /\ state w2 = connected
       /\ effects_since w2 (fire 3 w2)
          = [Reject 2 (TimeoutError "Handshake timed out.");
             SocketRemoveAllListeners 4; SocketDestroy 4;
             Emit (EvStateChange disconnected)]
       /\ state (fire 3 w2) = disconnected.
Proof.
  assert (state waiting_client <> ready) as Hst
    by (vm_compute; discriminate).
  assert (timers waiting_client !! 3%nat = Some (HandshakeTimeout 2)) as Ht
    by (vm_compute; reflexivity).
  split; [exact Hst|]. split; [exact Ht|].
  destruct (destroy_keeps_handshake_timer _ _ waiting_client 3 2
              waiting_client_reachable Hst Ht)
    as (_ & Hs & Htm & _ & _ & Hagain).
  split; [exact Hs|]. split; [exact Htm|].
  destruct (Hagain "app-2") as [_ Hresume].
  destruct (login_resume "app-2"
              (fst (login_begin "app-2" (destroy_call waiting_client))))
    as [w2 result] eqn:Elogin.
  assert (result = Ok 6%nat) as ->.
  { change result with (snd (w2, result)). rewrite <- Elogin.
    vm_compute. reflexivity. }
  destruct (Hresume w2 6%nat eq_refl) as (Hc & _ & s & Hsock & Heff & Hd & _).
  assert (s = 4%nat) as ->.
  { assert (socket w2 = Some {| sock_id := 4; destroyed := false |}) as Hs4.
    { change w2 with (fst (w2, Ok 6%nat : Outcome nat)). rewrite <- Elogin.
      vm_compute. reflexivity. }
    rewrite Hs4 in Hsock. by injection Hsock. }
  exists w2. split; [reflexivity|]. split; [exact Hc|].
  split; [exact Heff|exact Hd].
Defined.

Lemma destroy_when_ready_clears_activity_first_witness :
  state ready_client = ready
  /\ socket ready_client = Some {| sock_id := 4; destroyed := false |}
  /\ encode OpCode_Frame clear_frame = Ok (packet OpCode_Frame clear_frame)
  /\ exists t,
       effects_since ready_client (destroy_call ready_client)
       = [SetTimeout t 10000; SocketWrite 4 (packet OpCode_Frame clear_frame)]
       /\ state (destroy_call ready_client) = ready
       /\ socket (destroy_call ready_client) = socket ready_client.
Proof.
  assert (state ready_client = ready) as Hst by (vm_compute; reflexivity).
  assert (socket ready_client = Some {| sock_id := 4; destroyed := false |})
    as Hs by (vm_compute; reflexivity).
  assert (encode OpCode_Frame clear_frame
          = Ok (packet OpCode_Frame clear_frame)) as Henc
    by (vm_compute; reflexivity).
  split; [exact Hst|]. split; [exact Hs|]. split; [exact Henc|].
  destruct (destroy_when_ready_clears_activity_first ready_client _ _
              Hst Hs eq_refl Henc)
    as (p & t & Heff & _ & Hstate & Hsock & _).
  exists t. split; [exact Heff|]. split; [exact Hstate|exact Hsock].
Defined.
End MoreInstances.
